(** * Lead scoring pipeline: extraction, scoring and feedback weights

    A shallow embedding of [nlp.py], [extraction.py], [scoring.py],
    [feedback.py] and the part of [db.py] and [config.py] they use, of what
    a lead is made into ([signal_engine.py], [why_hpcl.py], [dossier.py],
    [should_notify] of [notifications.py]) and of the discovery job
    ([entity_resolution.py], [run_discovery] of [app.py]), followed by the
    properties of the pipeline.

    Conventions of the embedding:
    - a Python [str] is a [string]; its characters are read as ASCII code
      points, characters above 127 are carried along as opaque symbols that
      are neither white space, nor letters, nor digits;
    - a Python [float] is a binary64 number, a [spec_float] with the
      operations of [SpecFloat] at precision 53 and maximal exponent 1024;
    - a Python [int] is a [Z];
    - a [dict] read as a map is a [gmap]; a [dict] that is iterated is an
      association list in insertion order;
    - a call that can raise returns a [result]. *)

From Stdlib Require Import ZArith Lia Bool List String Ascii.
From Stdlib Require Import Floats.SpecFloat.
From stdpp Require Import gmap strings list.

Local Open Scope Z_scope.

(** ** Python values and built-ins *)

Module Py.

(** The values [raw_text] can be bound to by a caller. *)
Inductive pyobj : Type :=
| PyStr (s : string)
| PyNone
| PyInt (z : Z).

Inductive exn : Type :=
| AttributeError
| ValueError
| OverflowError.

Inductive result (A : Type) : Type :=
| Ok (a : A)
| Raise (e : exn).
Arguments Ok {A} a.
Arguments Raise {A} e.

Definition bind {A B : Type} (r : result A) (k : A -> result B) : result B :=
  match r with
  | Ok a => k a
  | Raise e => Raise e
  end.

(** Truth value of an object, as tested by [if not raw]. *)
Definition truthy (o : pyobj) : bool :=
  match o with
  | PyStr s => negb (String.eqb s "")
  | PyNone => false
  | PyInt z => negb (Z.eqb z 0)
  end.

Definition isinstance_str (o : pyobj) : bool :=
  match o with
  | PyStr _ => true
  | _ => false
  end.

Definition ord (c : ascii) : N := N_of_ascii c.

Definition between (lo hi : N) (c : ascii) : bool :=
  ((lo <=? ord c) && (ord c <=? hi))%N.

(** [str.isspace] on one character: tab to carriage return, the four
    separators 28 to 31, and the space. The same set is matched by [\s]. *)
Definition isspace (c : ascii) : bool := between 9 13 c || between 28 32 c.
Definition isupper (c : ascii) : bool := between 65 90 c.
Definition islower (c : ascii) : bool := between 97 122 c.
Definition isdigit (c : ascii) : bool := between 48 57 c.
Definition isalnum_char (c : ascii) : bool := isupper c || islower c || isdigit c.
(** The class [\w]. *)
Definition isword (c : ascii) : bool := isalnum_char c || Ascii.eqb c "_".
(** The class [[a-z0-9]]. *)
Definition is_az09 (c : ascii) : bool := islower c || isdigit c.

Definition lower_char (c : ascii) : ascii :=
  if isupper c then ascii_of_N (ord c + 32) else c.

Fixpoint all_chars (p : ascii -> bool) (s : string) : bool :=
  match s with
  | EmptyString => true
  | String c t => p c && all_chars p t
  end.

(** [s.lower()] *)
Fixpoint lower (s : string) : string :=
  match s with
  | EmptyString => EmptyString
  | String c t => String (lower_char c) (lower t)
  end.

(** [s.isalnum()] *)
Definition isalnum (s : string) : bool :=
  negb (String.eqb s "") && all_chars isalnum_char s.

Fixpoint startswith (p s : string) : bool :=
  match p, s with
  | EmptyString, _ => true
  | String a p', String b s' => Ascii.eqb a b && startswith p' s'
  | String _ _, EmptyString => false
  end.

(** [sub in s] *)
Fixpoint contains (sub s : string) : bool :=
  startswith sub s ||
  match s with
  | EmptyString => false
  | String _ t => contains sub t
  end.

Fixpoint lstrip (s : string) : string :=
  match s with
  | EmptyString => EmptyString
  | String c t => if isspace c then lstrip t else s
  end.

Fixpoint rstrip (s : string) : string :=
  match s with
  | EmptyString => EmptyString
  | String c t =>
      match rstrip t with
      | EmptyString => if isspace c then EmptyString else String c EmptyString
      | t' => String c t'
      end
  end.

(** [s.strip()] *)
Definition strip (s : string) : string := rstrip (lstrip s).

(** [sep.join(l)] *)
Fixpoint join (sep : string) (l : list string) : string :=
  match l with
  | [] => ""
  | [x] => x
  | x :: rest => x +:+ sep +:+ join sep rest
  end.

(** Pieces of [s] between the characters satisfying [is_sep]; a run of
    separators counts as one separator. [cur] is the piece being read. *)
Fixpoint split_runs (is_sep : ascii -> bool) (cur : string) (in_sep : bool)
    (s : string) : list string :=
  match s with
  | EmptyString => [cur]
  | String c t =>
      if is_sep c then
        if in_sep then split_runs is_sep "" true t
        else cur :: split_runs is_sep "" true t
      else split_runs is_sep (cur +:+ String c "") false t
  end.

(** [s.split()]: the maximal runs of characters that are not white space. *)
Definition split (s : string) : list string :=
  filter (fun p => p <> "") (split_runs isspace "" false s).

(** [s[:n]] *)
Definition slice_to (n : nat) (s : string) : string := String.substring 0 n s.

(** [l[:n]] is [take n l] and [len(l)] is [length l]. *)

End Py.
Export Py.

(** [result] is a monad; [x ← r; k] stops at the first exception. *)
#[global] Instance result_ret : MRet Py.result := @Py.Ok.
#[global] Instance result_bind : MBind Py.result :=
  fun A B k r => Py.bind r k.

(** ** Python floats *)

Module PyFloat.

Definition prec : Z := 53.
Definition emax : Z := 1024.

Abbreviation float := spec_float.

(** An integer as the exact operand of a float operation. *)
Definition of_int (z : Z) : float :=
  match z with
  | Z0 => S754_zero false
  | Zpos p => S754_finite false p 0
  | Zneg p => S754_finite true p 0
  end.

Definition mul : float -> float -> float := SFmul prec emax.
Definition add : float -> float -> float := SFadd prec emax.
(** Also the true division [a / b] of two ints, which is correctly rounded. *)
Definition div : float -> float -> float := SFdiv prec emax.

(** The literals of the program. *)
Definition f1_0 : float := S754_finite false 4503599627370496 (-52).
Definition f0_85 : float := Eval vm_compute in div (of_int 85) (of_int 100).
Definition f0_35 : float := Eval vm_compute in div (of_int 35) (of_int 100).

(** [int(x)]: truncation toward zero; fails on a NaN or an infinity. *)
Definition to_int (x : float) : result Z :=
  match x with
  | S754_zero _ => Ok 0
  | S754_finite s m e => Ok (cond_Zopp s (Z.shiftl (Zpos m) e))
  | S754_infinity _ => Raise OverflowError
  | S754_nan => Raise ValueError
  end.

(** The integer nearest to [n / d], ties to the even one ([0 < d]). *)
Definition div_half_even (n d : Z) : Z :=
  let q := n / d in
  match (2 * (n mod d) ?= d) with
  | Lt => q
  | Gt => q + 1
  | Eq => if Z.even q then q else q + 1
  end.

(** [round(x)] with no [ndigits]: the nearest integer, ties to even. *)
Definition round_int (x : float) : result Z :=
  match x with
  | S754_zero _ => Ok 0
  | S754_finite s m e =>
      Ok (cond_Zopp s
            (match e with
             | Zneg p => div_half_even (Zpos m) (2 ^ Zpos p)
             | _ => Zpos m * 2 ^ e
             end))
  | S754_infinity _ => Raise OverflowError
  | S754_nan => Raise ValueError
  end.

(** [round(x, 2)]: the exact value of [x] is rounded to two decimals, ties
    to even, and the decimal is converted back to the nearest float. *)
Definition round2 (x : float) : float :=
  match x with
  | S754_finite s m e =>
      let q := match e with
               | Zneg p => div_half_even (Zpos m * 100) (2 ^ Zpos p)
               | _ => Zpos m * 100 * 2 ^ e
               end in
      match q with
      | Zpos q' => div (S754_finite s q' 0) (of_int 100)
      | _ => S754_zero s
      end
  | _ => x
  end.

(** [x <= y] on floats. *)
Definition leb : float -> float -> bool := SFleb.

(** A float that is a binary64 number: canonical mantissa and exponent. *)
Definition valid (x : float) : bool := valid_binary prec emax x.

End PyFloat.

(** ** nlp.py *)

Module Nlp.
Import Py.

(** What the optional packages provide where they are installed: NLTK's
    word and sentence tokenizers with its English stop words, and the
    entities (text and label) spaCy's model finds in a text. *)
Record Nltk : Type := {
  word_tokenize : string -> list string;
  sent_tokenize : string -> list string;
  stopwords : list string
}.

Record Entity : Type := { ent_text : string; ent_label : string }.

Record Env : Type := {
  nltk : option Nltk;             (* None: [_nltk_tokenizer = False] *)
  spacy : option (string -> list Entity)  (* None: no package or no model *)
}.

(** [x in l] for a list or set of strings. *)
Definition mem (x : string) (l : list string) : bool := existsb (String.eqb x) l.

(** [re.sub(r"<[^>]+>", " ", raw)]. After a ["<"] a tag is open when the
    next character is not [">"] and a [">"] follows later; the tag then runs
    up to the first [">"]. *)
Fixpoint has_gt (s : string) : bool :=
  match s with
  | EmptyString => false
  | String c t => Ascii.eqb c ">" || has_gt t
  end.

Definition opens_tag (t : string) : bool :=
  match t with
  | EmptyString => false
  | String c t' => negb (Ascii.eqb c ">") && has_gt t'
  end.

Fixpoint sub_tags (in_tag : bool) (s : string) : string :=
  match s with
  | EmptyString => EmptyString
  | String c t =>
      if in_tag then sub_tags (negb (Ascii.eqb c ">")) t
      else if Ascii.eqb c "<" && opens_tag t then String " " (sub_tags true t)
      else String c (sub_tags false t)
  end.

(** [re.sub(r"\s+", " ", text)] *)
Fixpoint sub_spaces (in_run : bool) (s : string) : string :=
  match s with
  | EmptyString => EmptyString
  | String c t =>
      if isspace c then
        if in_run then sub_spaces true t else String " " (sub_spaces true t)
      else String c (sub_spaces false t)
  end.

Definition clean_text (raw : pyobj) : string :=
  if negb (truthy raw) || negb (isinstance_str raw) then ""
  else
    match raw with
    | PyStr s =>
        let text := sub_tags false s in
        let text := strip (sub_spaces false text) in
        text
    | _ => ""
    end.

(** The maximal runs of [\w] characters of [s]; [cur] is the run being read. *)
Fixpoint word_runs (cur : string) (s : string) : list string :=
  match s with
  | EmptyString => if String.eqb cur "" then [] else [cur]
  | String c t =>
      if isword c then word_runs (cur +:+ String c "") t
      else (if String.eqb cur "" then [] else [cur]) ++ word_runs "" t
  end.

(** [re.findall(r"\b[a-z0-9]{2,}\b", s)]: a match starts and ends at a word
    boundary, so it is a whole run of [\w] characters, made of [[a-z0-9]]
    only and at least two characters long. *)
Definition findall_tokens (s : string) : list string :=
  List.filter (fun r => (2 <=? String.length r)%nat && all_chars is_az09 r)
    (word_runs "" s).

Definition fallback_stop : list string :=
  ["the"; "a"; "an"; "and"; "or"; "but"; "in"; "on"; "at"; "to"; "for"; "of";
   "is"; "are"; "was"; "were"].

(** [" ".join(tokens[i : i + n])] for every [i] in [range(len(tokens) - n + 1)]. *)
Definition extract_ngrams (tokens : list string) (n : nat) : list string :=
  if (length tokens <? n)%nat then []
  else map (fun i => join " " (take n (drop i tokens)))
           (seq 0 (length tokens - n + 1)).

(** The set literal of [extract_key_phrases]; it names "refinery" twice. *)
Definition signal_words : list string :=
  remove_dups
  ["fuel"; "cement"; "marine"; "bitumen"; "tender"; "supply"; "contract";
   "expansion"; "industrial"; "road"; "construction"; "shipping"; "vessel";
   "procurement"; "refinery"; "power"; "aviation"; "mining"; "steel";
   "bunkering"; "vessels"; "bituminous"; "asphalt"; "petcoke"; "furnace";
   "bunker"; "maritime"; "highway"; "paving"; "refinery"; "lube"; "ore"].

Definition score_phrase (p : string) : nat :=
  let words := split p in
  length (List.filter (fun w => mem w words) signal_words).

(** [candidates.sort(key=lambda x: -x[1])]: descending score, and the sort
    is stable, so equal scores keep their order. *)
Fixpoint insert_by_score (x : string * nat) (l : list (string * nat))
    : list (string * nat) :=
  match l with
  | [] => [x]
  | y :: l' =>
      if (snd x <? snd y)%nat then y :: insert_by_score x l' else x :: l
  end.

Definition sort_by_score (l : list (string * nat)) : list (string * nat) :=
  foldr insert_by_score [] l.

(** The loop that fills [out], skipping the phrases already [seen]. *)
Fixpoint collect_phrases (max_phrases : nat) (seen out : list string)
    (candidates : list (string * nat)) : list string :=
  match candidates with
  | [] => out
  | (p, _) :: rest =>
      if mem p seen then collect_phrases max_phrases seen out rest
      else
        let seen := p :: seen in
        let out := out ++ [p] in
        if (max_phrases <=? length out)%nat then out
        else collect_phrases max_phrases seen out rest
  end.

(** The signal words of [extractive_summary]. *)
Definition summary_signal_words : list string :=
  ["fuel"; "cement"; "marine"; "bitumen"; "tender"; "supply"; "contract";
   "expansion"; "industrial"; "construction"; "shipping"; "vessel";
   "procurement"; "refinery"; "power"; "aviation"; "mining"; "steel"].

Definition INTENT_SIGNALS_STRONG : list string :=
  ["tender"; "rfp"; "rfi"; "contract"; "procurement"; "bid"; "order"; "purchase"].
Definition INTENT_SIGNALS_MEDIUM : list string :=
  ["expansion"; "capacity"; "new plant"; "supply"; "requirement"; "fuel supply"].
Definition INTENT_SIGNALS_WEAK : list string :=
  ["announce"; "plan"; "consider"; "seek"; "invite"; "float"].

(** The dictionary of [expand_text_with_synonyms], in insertion order. *)
Definition synonyms : list (string * string) :=
  [("marine", "maritime bunker vessel shipping");
   ("fuel", "fuels petcoke furnace bunker");
   ("bitumen", "bituminous asphalt paving");
   ("cement", "clinker kiln");
   ("tender", "tenders rfq rfp bid");
   ("construction", "infrastructure highway road")].

Definition expand_text_with_synonyms (text : string) : string :=
  let lower := lower text in
  let extra :=
    flat_map (fun '(canonical, syns) =>
                if contains canonical lower then [syns] else []) synonyms in
  match extra with
  | [] => text
  | _ => text +:+ " " +:+ join " " extra
  end.

(** The horizontal ellipsis, as its three UTF-8 bytes. *)
Definition ellipsis : string :=
  String (ascii_of_N 226) (String (ascii_of_N 128) (String (ascii_of_N 166) "")).

(** The dictionary [extract_entities] returns; the empty dictionary of the
    failure paths is the record with no entity. *)
Record entities : Type := { orgs : list string; products : list string }.

(** The dictionary [summarize_for_scoring] returns. *)
Record nlp_summary : Type := {
  s_cleaned_text : string;
  s_tokens : list string;
  s_key_phrases : list string;
  s_entities : entities;
  s_procurement_intent_score : Z;
  s_summary : string
}.

Section WithEnv.
Context (env : Env).

Definition get_tokens (text : pyobj) (remove_stopwords : bool) : list string :=
  let text := clean_text text in
  if String.eqb text "" then []
  else
    match nltk env with
    | Some tk =>
        let tokens := word_tokenize tk (lower text) in
        if remove_stopwords && negb (bool_decide (stopwords tk = [])) then
          List.filter (fun t => isalnum t && negb (mem t (stopwords tk))) tokens
        else List.filter isalnum tokens
    | None =>
        let tokens := findall_tokens (lower text) in
        if remove_stopwords then
          List.filter (fun t => negb (mem t fallback_stop)) tokens
        else tokens
    end.

Definition extract_key_phrases (raw_text : pyobj) (max_phrases : nat)
    : list string :=
  let text := clean_text raw_text in
  if String.eqb text "" then []
  else
    let tokens := get_tokens (PyStr text) true in
    if (length tokens <? 2)%nat then []
    else
      let two := extract_ngrams tokens 2 in
      let three := extract_ngrams tokens 3 in
      let candidates :=
        map (fun p => (p, score_phrase p))
            (List.filter (fun p => (0 <? score_phrase p)%nat) (two ++ three)) in
      let candidates := sort_by_score candidates in
      collect_phrases max_phrases [] [] candidates.

(** The entity texts with a given label, stripped, longer than two
    characters, without repetition, at most ten. The program builds them
    through a set, whose order is not fixed; here it is the order of first
    occurrence. *)
Definition entity_texts (label : string) (ents : list Entity) : list string :=
  take 10
    (remove_dups
       (map (fun e => strip (ent_text e))
          (List.filter
             (fun e => String.eqb (ent_label e) label
                       && (2 <? String.length (strip (ent_text e)))%nat)
             ents))).

Definition extract_entities (raw_text : pyobj) : entities :=
  match spacy env with
  | Some nlp =>
      let doc := nlp (slice_to 5000 (clean_text raw_text)) in
      {| orgs := entity_texts "ORG" doc; products := entity_texts "PRODUCT" doc |}
  | None => {| orgs := []; products := [] |}
  end.

Definition procurement_intent_score (raw_text : pyobj) : Z :=
  let text := lower (clean_text raw_text) in
  if String.eqb text "" then 0
  else
    let hits (l : list string) : Z :=
      Z.of_nat (length (List.filter (fun w => contains w text) l)) in
    let score := 0 in
    let score := score + 25 * hits INTENT_SIGNALS_STRONG in
    let score := score + 12 * hits INTENT_SIGNALS_MEDIUM in
    let score := score + 5 * hits INTENT_SIGNALS_WEAK in
    Z.min 100 score.

Definition is_sentence_end (c : ascii) : bool :=
  Ascii.eqb c "." || Ascii.eqb c "!" || Ascii.eqb c "?".

Definition _get_sentences (text : string) : list string :=
  let pieces :=
    match nltk env with
    | Some tk => sent_tokenize tk text
    | None => split_runs is_sentence_end "" false text   (* [.!?]+ *)
    end in
  map strip (List.filter (fun s => negb (String.eqb (strip s) "")) pieces).

Definition extractive_summary (raw_text : pyobj) (max_sentences max_length : nat)
    : string :=
  let text := clean_text raw_text in
  if String.eqb text "" then ""
  else
    let sentences := _get_sentences text in
    match sentences with
    | [] =>
        slice_to max_length text
        +:+ (if (max_length <? String.length text)%nat then ellipsis else "")
    | _ =>
        let score_sent (s : string) : nat :=
          length (List.filter (fun w => contains w (lower s)) summary_signal_words) in
        let scored := sort_by_score (map (fun s => (s, score_sent s)) sentences) in
        let chosen :=
          map fst (List.filter (fun x => negb (String.eqb (strip (fst x)) ""))
                     (take max_sentences scored)) in
        let chosen :=
          match chosen with
          | [] => take max_sentences sentences
          | _ => chosen
          end in
        let summary := strip (join " " chosen) in
        slice_to max_length summary
        +:+ (if (max_length <? String.length summary)%nat then ellipsis else "")
    end.

Definition summarize_for_scoring (raw_text : pyobj) : nlp_summary :=
  let text := clean_text raw_text in
  {| s_cleaned_text := text;
     s_tokens := get_tokens (PyStr text) true;
     s_key_phrases := extract_key_phrases raw_text 12;
     s_entities := extract_entities raw_text;
     s_procurement_intent_score := procurement_intent_score raw_text;
     s_summary := extractive_summary raw_text 2 280 |}.

End WithEnv.

End Nlp.

(** ** extraction.py *)

Module Extraction.
Import Py Nlp.

(** The three tables; the two dictionaries are listed in insertion order,
    which is the order a [for] loop visits them in. *)
Definition INDUSTRY_SIGNALS : list (string * list string) :=
  [("Cement", ["cement"; "clinker"; "kiln"; "grinding"; "limestone"]);
   ("Marine", ["marine"; "shipping"; "vessel"; "port"; "bunker"; "maritime"]);
   ("Construction / Roads",
     ["road"; "highway"; "bitumen"; "asphalt"; "paving"; "construction";
      "infrastructure"]);
   ("Power / Utilities",
     ["power"; "generation"; "furnace"; "boiler"; "industrial fuel"; "dg set"]);
   ("Refinery / Petrochemical",
     ["refinery"; "petrochemical"; "cracker"; "lube"; "specialty product"]);
   ("Mining / Steel", ["mining"; "steel"; "iron"; "ore"; "pellet"]);
   ("Aviation", ["aviation"; "atf"; "airport"; "jet fuel"]);
   ("General Industrial",
     ["industrial"; "manufacturing"; "tender"; "procurement"; "supply"])].

Definition PRODUCT_MAPPING : list (string * list string) :=
  [("Cement", ["Petcoke"; "Furnace Oil"; "Industrial Fuels"]);
   ("Marine", ["Marine Fuel"; "LSHS"; "Bunker"]);
   ("Construction / Roads", ["Bitumen"; "VGB"; "Paving Grade"]);
   ("Power / Utilities", ["Furnace Oil"; "LSHS"; "Industrial Fuels"]);
   ("Refinery / Petrochemical", ["Specialty Products"; "Lubes"; "Feedstocks"]);
   ("Mining / Steel", ["Industrial Fuels"; "Furnace Oil"; "Petcoke"]);
   ("Aviation", ["ATF"; "Jet Fuel"]);
   ("General Industrial", ["Industrial Fuels"; "Furnace Oil"; "LSHS"])].

Definition PROCUREMENT_SIGNALS : list string :=
  ["tender"; "rfp"; "rfi"; "contract"; "procurement"; "supply"; "requirement";
   "expansion"; "capacity"; "new plant"; "order"; "bid"; "purchase"].

(** [d.get(k, dflt)] on a dictionary kept as an association list. *)
Fixpoint dict_get {V : Type} (d : list (string * V)) (k : string) (dflt : V) : V :=
  match d with
  | [] => dflt
  | (k', v) :: d' => if String.eqb k' k then v else dict_get d' k dflt
  end.

(** [sum(1 for kw in keywords if kw in text)] *)
Definition count_hits (keywords : list string) (text : string) : Z :=
  Z.of_nat (length (List.filter (fun kw => contains kw text) keywords)).

(** The inner loop of [extract_requirement_clues]: the clue of the first
    keyword found, then [break]. *)
Fixpoint first_keyword_clue (industry : string) (keywords : list string)
    (text : string) : list string :=
  match keywords with
  | [] => []
  | kw :: rest =>
      if contains kw text
      then ["Industry signal: " +:+ industry +:+ " (" +:+ kw +:+ ")"]
      else first_keyword_clue industry rest text
  end.

Section WithEnv.
Context (env : Env).

Definition extract_requirement_clues (raw_text : pyobj) : list string :=
  let text := lower (clean_text raw_text) in
  let clues := [] in
  let clues :=
    clues ++ map (fun sig => "Procurement signal: " +:+ sig)
               (List.filter (fun sig => contains sig text) PROCUREMENT_SIGNALS) in
  let clues :=
    clues ++ flat_map (fun '(industry, keywords) =>
                         first_keyword_clue industry keywords text)
               INDUSTRY_SIGNALS in
  let key_phrases := extract_key_phrases env raw_text 6 in
  let clues := clues ++ map (fun p => "Phrase: " +:+ p) key_phrases in
  take 14 clues.

(** The text the keywords are looked up in: the cleaned, lowered and
    synonym-expanded text, a space, and the key phrases. *)
Definition detection_text (raw_text : pyobj) : string :=
  let text := lower (clean_text raw_text) in
  let text := expand_text_with_synonyms text in
  let key_phrases := extract_key_phrases env raw_text 10 in
  text +:+ " " +:+ lower (join " " key_phrases).

(** One turn of the loop over the specific industries. *)
Definition best_step (text : string) (best : string * Z) (industry : string)
    : string * Z :=
  let '(best_industry, best_score) := best in
  let keywords := dict_get INDUSTRY_SIGNALS industry [] in
  let score := count_hits keywords text in
  if best_score <? score then (industry, score) else (best_industry, best_score).

Definition detect_industry (raw_text : pyobj) : string * list string :=
  let text := detection_text raw_text in
  let specific :=
    List.filter (fun k => negb (String.eqb k "General Industrial"))
      (map fst INDUSTRY_SIGNALS) in
  let '(best_industry, best_score) :=
    foldl (best_step text) ("Unknown", 0) specific in
  let best_industry :=
    if String.eqb best_industry "Unknown" then
      let keywords := dict_get INDUSTRY_SIGNALS "General Industrial" [] in
      if 0 <? count_hits keywords text then "General Industrial"
      else best_industry
    else best_industry in
  let products := dict_get PRODUCT_MAPPING best_industry ["Industrial Fuels"] in
  (best_industry, products).

End WithEnv.

End Extraction.

(** ** config.py *)

Module Config.

(** The two thresholds the scorer reads; both come from the environment. *)
Record t : Type := {
  HIGH_PRIORITY_THRESHOLD : Z;
  MEDIUM_PRIORITY_THRESHOLD : Z
}.

(** The values used when the environment sets neither. *)
Definition defaults : t :=
  {| HIGH_PRIORITY_THRESHOLD := 75; MEDIUM_PRIORITY_THRESHOLD := 50 |}.

End Config.

(** ** The table [scoring_weights] of db.py *)

Module Db.
Import PyFloat.

(** A row of [scoring_weights] without its row id. The column
    [industry_or_product] is declared [UNIQUE]. *)
Record weight_row : Type := {
  industry_or_product : string;
  weight_real : float;
  signal_type : string;
  updated_at : Z
}.

(** A row of [get_feedback_for_weights]: the industry and the products of
    the lead and the outcome of the feedback; each may be [NULL]. *)
Record feedback_row : Type := {
  fb_industry : option string;
  fb_product_recommendations : option string;
  fb_outcome : option string
}.

(** [INSERT ... ON CONFLICT(industry_or_product) DO UPDATE SET
    weight_real = ?, updated_at = CURRENT_TIMESTAMP], run at time [now]. *)
Fixpoint upsert (now : Z) (key : string) (weight : float)
    (table : list weight_row) : list weight_row :=
  match table with
  | [] =>
      [{| industry_or_product := key; weight_real := weight;
          signal_type := "industry"; updated_at := now |}]
  | r :: rest =>
      if String.eqb (industry_or_product r) key then
        {| industry_or_product := industry_or_product r; weight_real := weight;
           signal_type := signal_type r; updated_at := now |} :: rest
      else r :: upsert now key weight rest
  end.

End Db.

(** ** scoring.py *)

Module Scoring.
Import Py PyFloat Nlp Extraction Config Db.

Definition _nlp_boost (nlp_summary : nlp_summary) : Z :=
  let boost := 0 in
  let boost :=
    if (2 <=? length (s_key_phrases nlp_summary))%nat then boost + 3 else boost in
  let boost :=
    match orgs (s_entities nlp_summary) with
    | [] => boost
    | _ => boost + 2
    end in
  Z.min 5 boost.

(** The dictionary comprehension of [_get_weights] over the rows of the
    table; [None] is the failure path, which returns the empty dictionary. *)
Definition _get_weights (table : option (list weight_row)) : gmap string float :=
  match table with
  | Some rows =>
      foldl (fun d row => <[industry_or_product row := weight_real row]> d) ∅ rows
  | None => ∅
  end.

(** [weights.get(key, 1.0)] *)
Definition weights_get (weights : gmap string float) (key : string) : float :=
  default f1_0 (weights !! key).

(** [int(base * w)] *)
Definition bonus (base : Z) (w : float) : result Z := to_int (mul (of_int base) w).

(** The loop over [PROCUREMENT_SIGNALS]: the first signal found in the text
    adds its bonus and the loop stops. *)
Fixpoint procurement_loop (weights : gmap string float) (text : string)
    (score : Z) (signals : list string) : result Z :=
  match signals with
  | [] => Ok score
  | sig :: rest =>
      if contains sig text then
        let w := weights_get weights ("signal_" +:+ sig) in
        b ← bonus 15 w; Ok (score + b)
      else procurement_loop weights text score rest
  end.

(** The dictionary [analyze_and_score] returns. *)
Record analysis : Type := {
  industry : string;
  product_recommendations : list string;
  requirement_clues : list string;
  score : Z;
  confidence : Z;
  priority : string;
  summary : string;
  intent_score : Z
}.

Section WithEnv.
Context (env : Env) (config : Config.t).

(** Lines 64 to 87 of [analyze_and_score]: the score before [min(100, score)],
    for the lowered text, the weights and the summary read before. *)
Definition score_before_clamp (weights : gmap string float) (raw_text : string)
    : result Z :=
  let text := lower raw_text in
  let nlp_summary := summarize_for_scoring env (PyStr raw_text) in
  let intent_score := s_procurement_intent_score nlp_summary in
  let score := 0 in
  let '(industry, _) := detect_industry env (PyStr raw_text) in
  score ← procurement_loop weights text score PROCUREMENT_SIGNALS;
  score ←
    (if contains "expansion" text || contains "new plant" text
        || contains "capacity" text then
       let w := weights_get weights "signal_expansion" in
       b ← bonus 25 w; Ok (score + b)
     else Ok score);
  score ←
    (if contains "tender" text || contains "rfp" text
        || contains "contract" text then
       let w := weights_get weights "signal_tender" in
       b ← bonus 20 w; Ok (score + b)
     else Ok score);
  let ind_w := weights_get weights ("industry_" +:+ industry) in
  score ←
    (if negb (String.eqb industry "Unknown") then
       b ← bonus 30 ind_w; Ok (score + b)
     else Ok score);
  let score := score + _nlp_boost nlp_summary in
  b ← to_int (div (of_int intent_score) (of_int 10));
  Ok (score + b).

(** [weights] is the dictionary [_get_weights()] returns at line 59. *)
Definition analyze_and_score (weights : gmap string float) (raw_text : pyobj)
    : result analysis :=
  match raw_text with
  | PyStr s =>
      let nlp_summary := summarize_for_scoring env raw_text in
      let intent_score := s_procurement_intent_score nlp_summary in
      let summary := s_summary nlp_summary in
      let '(industry, product_recommendations) := detect_industry env raw_text in
      let requirement_clues := extract_requirement_clues env raw_text in
      score ← score_before_clamp weights s;
      let score := Z.min 100 score in
      let confidence := Z.min 95 (score + 10) in
      let priority :=
        if HIGH_PRIORITY_THRESHOLD config <=? score then "HIGH"
        else if MEDIUM_PRIORITY_THRESHOLD config <=? score then "MEDIUM"
        else "LOW" in
      Ok {| industry := industry;
            product_recommendations := product_recommendations;
            requirement_clues := requirement_clues;
            score := score;
            confidence := confidence;
            priority := priority;
            summary := summary;
            intent_score := intent_score |}
  | _ => Raise AttributeError      (* [raw_text.lower()] at line 58 *)
  end.

End WithEnv.

End Scoring.

(** ** feedback.py *)

Module Feedback.
Import Py PyFloat Db.

(** [industry_outcomes[ind].append(outcome)] on the [defaultdict], kept in
    insertion order. *)
Fixpoint group_append (ind : string) (outcome : option string)
    (d : list (string * list (option string)))
    : list (string * list (option string)) :=
  match d with
  | [] => [(ind, [outcome])]
  | (k, outcomes) :: rest =>
      if String.eqb k ind then (k, outcomes ++ [outcome]) :: rest
      else (k, outcomes) :: group_append ind outcome rest
  end.

(** [r.get("industry") or "Unknown"] *)
Definition industry_of (r : feedback_row) : string :=
  match fb_industry r with
  | Some s => if String.eqb s "" then "Unknown" else s
  | None => "Unknown"
  end.

Definition is_accepted (o : option string) : bool :=
  match o with
  | Some s =>
      String.eqb s "Assigned" || String.eqb s "Accepted" || String.eqb s "Converted"
  | None => false
  end.

(** The weight computed for a group with its list of outcomes. *)
Definition group_weight (outcomes : list (option string)) : float :=
  let accepted := Z.of_nat (length (List.filter is_accepted outcomes)) in
  let total := Z.of_nat (length outcomes) in
  let ratio := div (of_int accepted) (of_int total) in
  let weight := add f0_85 (mul f0_35 ratio) in
  round2 weight.

(** The loop over the groups, one upsert for each group that has events. *)
Definition store_group (now : Z) (table : list weight_row)
    (group : string * list (option string)) : list weight_row :=
  let '(industry, outcomes) := group in
  let total := length outcomes in
  if (total =? 0)%nat then table
  else upsert now ("industry_" +:+ industry) (group_weight outcomes) table.

(** [feedback] is what [get_feedback_for_weights()] returns, [None] when the
    database layer is missing or the query fails; [table] is the content of
    [scoring_weights] and [now] the time of the run. *)
Definition _update_weights_from_feedback (now : Z)
    (feedback : option (list feedback_row)) (table : list weight_row)
    : list weight_row :=
  match feedback with
  | None => table
  | Some rows =>
      let industry_outcomes :=
        foldl (fun d r => group_append (industry_of r) (fb_outcome r) d) [] rows in
      foldl (store_group now) table industry_outcomes
  end.

End Feedback.

(** ** signal_engine.py *)

Module SignalEngine.
Import Py.

(** The value of an entry of the graph. *)
Record signal_data : Type := {
  sg_products : list string;
  sg_reasoning : string
}.

(** The graph, in insertion order. *)
Definition SIGNAL_GRAPH : list (string * signal_data) :=
  [("expansion",
    {| sg_products := ["Bitumen"; "Industrial Fuels"; "Furnace Oil"];
       sg_reasoning :=
         "Expansion = new construction (paving, bitumen) and increased boiler/furnace load (industrial fuels)." |});
   ("new plant",
    {| sg_products := ["Industrial Fuels"; "Furnace Oil"; "Petcoke"];
       sg_reasoning :=
         "New plant typically requires captive power and process fuel (Furnace Oil, Petcoke for cement/steel)." |});
   ("tender",
    {| sg_products := ["Industrial Fuels"; "Bitumen"; "Marine Fuel"];
       sg_reasoning :=
         "Tender indicates active procurement; product mix depends on industry (inferred from text)." |});
   ("marine",
    {| sg_products := ["Marine Fuel"; "LSHS"; "Bunker"];
       sg_reasoning :=
         "Marine/shipping segment requires bunker fuel and marine-grade LSHS per IMO specs." |});
   ("shipping",
    {| sg_products := ["Marine Fuel"; "Bunker"];
       sg_reasoning :=
         "Shipping and vessel operations use marine fuels and bunkering." |});
   ("road",
    {| sg_products := ["Bitumen"; "VGB"; "Paving Grade"];
       sg_reasoning :=
         "Road/highway projects use bitumen (VG-30, VG-40) for paving and overlay." |});
   ("highway",
    {| sg_products := ["Bitumen"; "VGB"; "Paving Grade"];
       sg_reasoning :=
         "Highway construction requires paving-grade bitumen (VG-30 typical for highways)." |});
   ("cement",
    {| sg_products := ["Petcoke"; "Furnace Oil"; "Industrial Fuels"];
       sg_reasoning :=
         "Cement industry uses Petcoke and furnace oil for kiln and grinding." |});
   ("construction",
    {| sg_products := ["Bitumen"; "Industrial Fuels"; "Furnace Oil"];
       sg_reasoning :=
         "Construction sector needs bitumen (roads/sites) and fuels for equipment and temporary power." |});
   ("power",
    {| sg_products := ["Furnace Oil"; "LSHS"; "Industrial Fuels"];
       sg_reasoning :=
         "Power generation and DG sets use furnace oil and LSHS." |});
   ("refinery",
    {| sg_products := ["Specialty Products"; "Lubes"; "Feedstocks"];
       sg_reasoning :=
         "Refinery/petrochemical segment uses specialty products and feedstocks." |});
   ("aviation",
    {| sg_products := ["ATF"; "Jet Fuel"];
       sg_reasoning :=
         "Aviation segment requires ATF and jet fuel to spec." |})].

(** An entry of the fingerprint. *)
Record fingerprint : Type := {
  event : string;
  fp_products : list string;
  fp_reasoning : string
}.

(** [sorted(l)] for a list of strings, which compare by code point. *)
Fixpoint insert_sorted (x : string) (l : list string) : list string :=
  match l with
  | [] => [x]
  | y :: l' => if String.leb x y then x :: l else y :: insert_sorted x l'
  end.

Definition sorted (l : list string) : list string := foldr insert_sorted [] l.

(** The loop over the graph; [seen_products] is the set of the sorted
    product tuples met so far. *)
Fixpoint fingerprint_loop (text : string) (graph : list (string * signal_data))
    (seen_products : list (list string)) (out : list fingerprint)
    : list fingerprint :=
  match graph with
  | [] => out
  | (signal, data) :: rest =>
      if negb (contains signal text) then
        fingerprint_loop text rest seen_products out
      else
        let products := sg_products data in
        let reasoning := sg_reasoning data in
        let key := sorted products in
        if bool_decide (key ∈ seen_products) then
          fingerprint_loop text rest seen_products out
        else
          fingerprint_loop text rest (key :: seen_products)
            (out ++ [{| event := signal; fp_products := products;
                        fp_reasoning := reasoning |}])
  end.

Definition fingerprint_signals (raw_text : pyobj) : result (list fingerprint) :=
  text ←
    (if truthy raw_text then
       match raw_text with
       | PyStr s => Ok (lower s)
       | _ => Raise AttributeError        (* a number has no [lower] *)
       end
     else Ok (lower ""));                 (* [raw_text or ""] *)
  Ok (take 10 (fingerprint_loop text SIGNAL_GRAPH [] [])).

Definition get_primary_product_reasoning (industry : string)
    (products : list string) : string :=
  match products with
  | [] => "General industrial fuels opportunity."
  | p :: _ =>
      if contains "Bitumen" p || contains "VGB" p then
        "Highway/road and paving projects drive Bitumen (VG-30/VG-40) demand. HPCL supplies to NHAI and state highways."
      else if contains "Marine" p || contains "Bunker" p then
        "Marine/shipping segment requires compliant bunker fuel. HPCL offers marine fuels at key Indian ports."
      else if contains "Petcoke" p || contains "Furnace" p then
        "Cement/industrial expansion increases demand for Petcoke and Furnace Oil for kilns and boilers."
      else if contains "ATF" p || contains "Jet" p then
        "Aviation segment requires ATF to spec. HPCL supplies major airports."
      else
        "Industrial demand signals align with " +:+ p
        +:+ ". HPCL has supply and logistics capability."
  end.

End SignalEngine.

(** ** why_hpcl.py *)

Module WhyHpcl.
Import Py.

(** The values of a battlecard: a string or a list of strings. A battlecard
    is a dictionary from strings to such values, in insertion order. *)
Inductive value : Type :=
| VStr (s : string)
| VList (l : list string).

Definition dict : Type := list (string * value).

(** The right single quotation mark, as its three UTF-8 bytes. *)
Definition right_quote : string :=
  String (ascii_of_N 226) (String (ascii_of_N 128) (String (ascii_of_N 153) "")).

Definition WHY_HPCL_BATTLECARDS : list (string * dict) :=
  [("Marine Fuel",
    [("headline", VStr "HPCL Marine Fuels vs industry");
     ("points",
      VList
          ["HPCL supplies IMO 2020-compliant low-sulphur marine fuels at major Indian ports (Mumbai, Kochi, Chennai, Vizag).";
           "Quality conforms to ISO 8217; consistent supply for bunkering and long-term contracts.";
           "Strong logistics and storage at port locations reduces delivery risk for shipping lines."]);
     ("cta",
      VStr ("Position HPCL" +:+ right_quote +:+ "s port infrastructure and compliance for marine tenders."))]);
   ("Bitumen",
    [("headline", VStr "HPCL Bitumen for roads and paving");
     ("points",
      VList
          ["VG-30 and VG-40 grades supplied to NHAI and state highway projects; proven track record.";
           "Meets IS 73 and MORTH specs; suitable for hot-mix and paving applications.";
           "Pan-India supply chain supports timely delivery for project schedules."]);
     ("cta",
      VStr "Lead with NHAI/state project references and VG-30 availability for highway tenders.")]);
   ("Petcoke",
    [("headline", VStr "HPCL Petcoke for cement and industrial");
     ("points",
      VList
          ["Petcoke suitable for cement kilns and industrial furnaces; quality specs as per offtake requirements.";
           "Sourcing from HPCL refineries ensures consistent quality and supply security.";
           "Competitive pricing and volume flexibility for large cement/steel customers."]);
     ("cta",
      VStr "Emphasise refinery-backed supply and quality consistency for expansion/new plant discussions.")]);
   ("Furnace Oil",
    [("headline", VStr "HPCL Furnace Oil and industrial fuels");
     ("points",
      VList
          ["Furnace oil and LSHS for boilers, kilns, and process heating; meets industrial specs.";
           "Reliable supply from HPCL refineries; supports both spot and contract requirements.";
           "Technical support available for combustion and efficiency optimisation."]);
     ("cta",
      VStr "Offer furnace oil/LSHS for expansion and captive power needs.")]);
   ("Industrial Fuels",
    [("headline", VStr "HPCL Industrial Fuels");
     ("points",
      VList
          ["Wide range of industrial fuels for manufacturing, power backup, and process use.";
           "Supply chain and safety standards aligned with large industrial customers.";
           "Flexible delivery and contract options for bulk offtake."]);
     ("cta",
      VStr "Position full product range and logistics for multi-site industrials.")]);
   ("ATF",
    [("headline", VStr "HPCL ATF and jet fuel");
     ("points",
      VList
          ["ATF supplied to major airports; meets DGCA and international specs.";
           "Into-plane and storage infrastructure at key airports.";
           "Quality and compliance documentation for aviation tenders."]);
     ("cta",
      VStr "Lead with airport presence and compliance for aviation contracts.")]);
   ("LSHS",
    [("headline", VStr "HPCL LSHS");
     ("points",
      VList
          ["Low-sulphur heavy stock for industrial boilers and marine applications.";
           "Meets environmental norms; suitable for long-term supply agreements.";
           "Available at select locations; discuss logistics for your geography."]);
     ("cta",
      VStr "Position LSHS for boiler and marine segments with compliance focus.")]);
   ("Bunker",
    [("headline", VStr "HPCL Bunker fuels");
     ("points",
      VList
          ["Bunker fuels at key ports; IMO 2020 compliant options.";
           "Competitive pricing and reliable supply for shipping lines.";
           "Coordination with port authorities for smooth bunkering."]);
     ("cta",
      VStr "Use port coverage and compliance as differentiators in marine tenders.")]);
   ("VGB",
    [("headline", VStr "HPCL VGB (Viscosity Grade Bitumen)");
     ("points",
      VList
          ["VGB grades for specialised paving and industrial applications.";
           "Consistent quality from refinery production.";
           "Suitable for state and private road projects."]);
     ("cta",
      VStr "Recommend VGB where spec requires viscosity-grade bitumen.")]);
   ("Paving Grade",
    [("headline", VStr "HPCL Paving-grade bitumen");
     ("points",
      VList
          ["Paving-grade bitumen (VG-10, VG-30, VG-40) for roads and runways.";
           "Widely used in NHAI and state projects.";
           "Supply and logistics aligned to project timelines."]);
     ("cta",
      VStr "Lead with VG-30 for highway projects and project references.")]);
   ("Specialty Products",
    [("headline", VStr "HPCL Specialty products");
     ("points",
      VList
          ["Specialty and value-added products for refinery and petrochemical offtake.";
           "Quality and specs as per customer and application.";
           "Technical engagement for custom requirements."]);
     ("cta",
      VStr "Position specialty range for refinery/petrochemical tenders.")])].

(** [d.get(k)] *)
Fixpoint lookup {V : Type} (d : list (string * V)) (k : string) : option V :=
  match d with
  | [] => None
  | (k', v) :: d' => if String.eqb k' k then Some v else lookup d' k
  end.

Definition value_eqb (a b : value) : bool :=
  match a, b with
  | VStr s, VStr t => String.eqb s t
  | VList l, VList k => bool_decide (l = k)
  | _, _ => false
  end.

(** [a == b] for two dictionaries: as many keys, and every key of [a] is a
    key of [b] with an equal value. *)
Definition dict_eqb (a b : dict) : bool :=
  (length a =? length b)%nat
  && forallb (fun '(k, v) =>
                match lookup b k with
                | Some v' => value_eqb v v'
                | None => false
                end) a.

(** [d[k] = v] *)
Fixpoint update (d : dict) (k : string) (v : value) : dict :=
  match d with
  | [] => [(k, v)]
  | (k', v') :: d' =>
      if String.eqb k' k then (k', v) :: d' else (k', v') :: update d' k v
  end.

(** [{"product": p, **c}] *)
Definition with_product (p : string) (c : dict) : dict :=
  foldl (fun d '(k, v) => update d k v) [("product", VStr p)] c.

(** The loop that fills [all_cards]. *)
Fixpoint all_cards_loop (products : list string) (all_cards : list dict)
    : list dict :=
  match products with
  | [] => all_cards
  | p :: rest =>
      match lookup WHY_HPCL_BATTLECARDS p with
      | Some c =>
          if negb (bool_decide (c = [])) && negb (existsb (dict_eqb c) all_cards)
          then all_cards_loop rest (all_cards ++ [with_product p c])
          else all_cards_loop rest all_cards
      | None => all_cards_loop rest all_cards
      end
  end.

(** The dictionary [build_why_hpcl] returns. *)
Record why_hpcl : Type := {
  primary_headline : value;
  primary_points : value;
  primary_cta : value;
  all_battlecards : list dict
}.

Definition build_why_hpcl (products : list string) (industry : string)
    : why_hpcl :=
  let product :=
    match products with
    | [] => "Industrial Fuels"
    | p :: _ => p
    end in
  let fallback := default [] (lookup WHY_HPCL_BATTLECARDS "Industrial Fuels") in
  let card :=
    match lookup WHY_HPCL_BATTLECARDS product with
    | Some c => if bool_decide (c = []) then fallback else c
    | None => fallback
    end in
  let all_cards := all_cards_loop (take 5 products) [] in
  {| primary_headline := default (VStr "Why HPCL") (lookup card "headline");
     primary_points := default (VList []) (lookup card "points");
     primary_cta :=
       default (VStr "Reach out with product sheet and capability note.")
         (lookup card "cta");
     all_battlecards :=
       match all_cards with
       | [] => [with_product product card]
       | _ => all_cards
       end |}.

Definition sales_pitch_script (company industry : string)
    (products : list string) (summary : string) : string :=
  let p :=
    match products with
    | [] => "industrial fuels"
    | _ => join ", " (take 3 products)
    end in
  strip
    ("Hi, I'm from HPCL Direct Sales. We noticed " +:+ company
     +:+ " may have requirements in " +:+ p +:+ " (" +:+ industry +:+ "). "
     +:+ (if negb (String.eqb summary "") then slice_to 150 summary
          else "We would like to discuss how HPCL can support your needs.")
     +:+ " We supply to leading players in the segment and would welcome a short conversation. "
     +:+ "Would you be open to a 15-minute call this week?").

End WhyHpcl.

(** ** dossier.py *)

Module Dossier.
Import Py Scoring SignalEngine WhyHpcl.

(** The en dash, as its three UTF-8 bytes. *)
Definition en_dash : string :=
  String (ascii_of_N 226) (String (ascii_of_N 128) (String (ascii_of_N 147) "")).

Definition _suggest_actions (priority industry : string)
    (products : list string) : list string :=
  let actions := [] in
  let actions :=
    if String.eqb priority "HIGH" then
      (actions ++ ["Contact within 24" +:+ en_dash +:+ "48 hours with product sheet"])
      ++ ["Prepare quote for primary product(s)"]
    else if String.eqb priority "MEDIUM" then
      (actions ++ ["Reach out this week; share case studies"])
      ++ ["Identify decision-maker"]
    else actions ++ ["Add to nurture list; periodic check"] in
  actions ++ ["Highlight HPCL capability in: " +:+ join ", " (take 3 products)].

(** The dictionary [build_dossier] returns. *)
Record dossier : Type := {
  d_company : string;
  d_raw_text : pyobj;
  d_source : string;
  d_source_url : string;
  d_industry : string;
  d_product_recommendations : list string;
  d_requirement_clues : list string;
  d_score : Z;
  d_confidence : Z;
  d_priority : string;
  d_suggested_actions : list string;
  d_summary : string;
  d_intent_score : Z;
  d_signal_fingerprint : list fingerprint;
  d_product_reasoning : string;
  d_why_hpcl : why_hpcl;
  d_sales_pitch_script : string
}.

(** [analysis] is a dictionary [analyze_and_score] returned: it has every
    key, so no default of a [get] is used. The second [try] guards calls
    that do not raise on a list of strings. *)
Definition build_dossier (company : string) (raw_text : pyobj) (source : string)
    (analysis : analysis) (source_url : option string) : dossier :=
  let products := product_recommendations analysis in
  let priority := priority analysis in
  let industry := industry analysis in
  let actions := _suggest_actions priority industry products in
  let summary := summary analysis in
  let '(signal_fingerprint, product_reasoning) :=
    match fingerprint_signals raw_text with
    | Ok fp => (fp, get_primary_product_reasoning industry products)
    | Raise _ => ([], "")
    end in
  let why_hpcl := build_why_hpcl products industry in
  let pitch_script := sales_pitch_script company industry products summary in
  {| d_company := company;
     d_raw_text := raw_text;
     d_source := source;
     d_source_url := default "" source_url;
     d_industry := industry;
     d_product_recommendations := products;
     d_requirement_clues := requirement_clues analysis;
     d_score := score analysis;
     d_confidence := confidence analysis;
     d_priority := priority;
     d_suggested_actions := actions;
     d_summary := summary;
     d_intent_score := intent_score analysis;
     d_signal_fingerprint := signal_fingerprint;
     d_product_reasoning := product_reasoning;
     d_why_hpcl := why_hpcl;
     d_sales_pitch_script := pitch_script |}.

End Dossier.

(** ** notifications.py *)

Module Notifications.
Import Py Dossier.

(** [MIN_CONFIDENCE_TO_NOTIFY] comes from the environment; 50 when it is
    not set there. *)
Definition should_notify (MIN_CONFIDENCE_TO_NOTIFY : Z) (dossier : dossier)
    : bool :=
  (MIN_CONFIDENCE_TO_NOTIFY <=? d_confidence dossier)
  && (String.eqb (d_priority dossier) "HIGH"
      || String.eqb (d_priority dossier) "MEDIUM").

End Notifications.

(** ** entity_resolution.py *)

Module EntityResolution.
Import Py Nlp.

(** The regular expressions of the module: literal text, [\s+], [r?],
    [(?:r1|r2)], concatenation and [$]. *)
Inductive regex : Type :=
| Lit (w : string)
| Spaces
| Opt (r : regex)
| Alt (r1 r2 : regex)
| Seq (r1 r2 : regex)
| Eos.

(** Two characters that are equal under [re.IGNORECASE]. *)
Definition eqb_nocase (c d : ascii) : bool :=
  Ascii.eqb (lower_char c) (lower_char d).

Definition line_feed : string := String (ascii_of_N 10) "".

(** Matching hands the rest of the text to [k], what follows in the
    pattern, and returns the rest of the text after the whole match. A
    quantifier takes as much as it can and gives back when [k] fails; the
    second alternative is tried when the first fails. *)
Fixpoint lit_then (w s : string) (k : string -> option string) : option string :=
  match w with
  | EmptyString => k s
  | String c w' =>
      match s with
      | String d t => if eqb_nocase c d then lit_then w' t k else None
      | EmptyString => None
      end
  end.

Fixpoint spaces_then (s : string) (k : string -> option string) : option string :=
  match s with
  | String c t =>
      if isspace c then
        match spaces_then t k with
        | Some rest => Some rest
        | None => k t
        end
      else None
  | EmptyString => None
  end.

(** [$] matches at the end of the text and before a line feed that ends
    it. *)
Fixpoint rmatch (r : regex) (s : string) (k : string -> option string)
    : option string :=
  match r with
  | Lit w => lit_then w s k
  | Spaces => spaces_then s k
  | Opt r' =>
      match rmatch r' s k with
      | Some rest => Some rest
      | None => k s
      end
  | Alt r1 r2 =>
      match rmatch r1 s k with
      | Some rest => Some rest
      | None => rmatch r2 s k
      end
  | Seq r1 r2 => rmatch r1 s (fun s' => rmatch r2 s' k)
  | Eos => if String.eqb s "" || String.eqb s line_feed then k s else None
  end.

(** [re.sub(r, repl, s, flags=re.IGNORECASE)] for an [r] that matches no
    empty text, as every pattern of the module: the first match from the
    left is replaced and the search goes on after it. [skip] counts the
    characters of a match that are still to be passed. *)
Fixpoint re_sub (r : regex) (repl : string) (skip : nat) (s : string) : string :=
  match s with
  | EmptyString => EmptyString
  | String c t =>
      match skip with
      | S n => re_sub r repl n t
      | O =>
          match rmatch r s Some with
          | Some rest =>
              match (String.length s - String.length rest)%nat with
              | S n => repl +:+ re_sub r repl n t
              | O => String c (re_sub r repl 0 t)
              end
          | None => String c (re_sub r repl 0 t)
          end
      end
  end.

Definition cat (l : list regex) : regex := foldr Seq (Lit "") l.

Definition COMPANY_SUFFIXES : list regex :=
  [ cat [Spaces; Alt (cat [Lit "Pvt"; Opt (Lit ".")]) (Lit "Private"); Spaces;
         Lit "Limited"; Opt (Lit "."); Eos];
    cat [Spaces; Lit "Ltd"; Opt (Lit "."); Eos];
    cat [Spaces; Lit "Limited"; Eos];
    cat [Spaces; Lit "Corp"; Opt (Lit "."); Eos];
    cat [Spaces; Lit "Corporation"; Opt (Lit "."); Eos];
    cat [Spaces; Lit "Inc"; Opt (Lit "."); Eos];
    cat [Spaces; Lit "Incorporated"; Opt (Lit "."); Eos];
    cat [Spaces; Lit "Co"; Opt (Lit "."); Eos];
    cat [Spaces; Lit "India"; Eos];
    cat [Spaces; Lit "Ind"; Opt (Lit "."); Eos] ].

Definition normalize_company_name (name : pyobj) : string :=
  if negb (truthy name) || negb (isinstance_str name) then ""
  else
    match name with
    | PyStr n =>
        let s := strip n in
        let s := foldl (fun s suffix => re_sub suffix "" 0 s) s COMPANY_SUFFIXES in
        let s := strip (sub_spaces false s) in
        s
    | _ => ""
    end.

(** [raw_text_snippet] is a string or [None], as the rows of the table and
    the items of the sources have it. *)
Definition canonical_key_for_dedup (name : pyobj)
    (raw_text_snippet : option string) : string :=
  let canonical := lower (normalize_company_name name) in
  let snippet := lower (slice_to 80 (default "" raw_text_snippet)) in
  canonical +:+ "|" +:+ snippet.

End EntityResolution.

(** ** The discovery job of app.py *)

Module App.
Import Py PyFloat Nlp Config Scoring Dossier Notifications EntityResolution.

(** An item of [fetch_all_sources]. Every source builds it with the four
    keys, so no default of a [get] is used; the company and the text are
    strings or [None]. *)
Record item : Type := {
  i_company : option string;
  i_raw_text : option string;
  i_source : string;
  i_source_url : option string
}.

(** The columns of a row of [leads] that the job reads. *)
Record lead_row : Type := {
  l_company : option string;
  l_raw_text : option string
}.

Record officer : Type := {
  o_id : Z;
  o_phone : option string
}.

Definition py (o : option string) : pyobj :=
  match o with
  | Some s => PyStr s
  | None => PyNone
  end.

(** [round(x, 3)], as [round2] with three decimals. *)
Definition round3 (x : float) : float :=
  match x with
  | S754_finite s m e =>
      let q := match e with
               | Zneg p => div_half_even (Zpos m * 1000) (2 ^ Zpos p)
               | _ => Zpos m * 1000 * 2 ^ e
               end in
      match q with
      | Zpos q' => div (S754_finite s q' 0) (of_int 1000)
      | _ => S754_zero s
      end
  | _ => x
  end.

(** The dossier [insert_lead] gets: the one [build_dossier] returned, with
    the key [propensity_score] when the model gave a score. *)
Record lead : Type := {
  l_dossier : dossier;
  l_propensity_score : option float
}.

(** The columns [company] and [raw_text] of the row [insert_lead] writes. *)
Definition stored_row (l : lead) : lead_row :=
  {| l_company := Some (d_company (l_dossier l));
     l_raw_text := match d_raw_text (l_dossier l) with
                   | PyStr s => Some s
                   | _ => None
                   end |}.

(** What a run has done so far: the keys in [seen], the leads inserted, in
    the order of their insertion, and the leads [notify_new_lead] was called
    for, each with the officer it was called with. *)
Record state : Type := {
  seen : gset string;
  inserted : list lead;
  notified : list (lead * officer)
}.

Section WithWorld.

Variable env : Env.
Variable config : Config.t.
(** The dictionary [_get_weights()] returns; the job does not write the
    table it is read from. *)
Variable weights : gmap string float.
Variable MIN_CONFIDENCE_TO_NOTIFY : Z.
(** [predict_propensity] of ml_feedback.py, a trained model or none; [None]
    also stands for an exception, which the job passes over. *)
Variable predict_propensity :
  string -> string -> string -> Z -> Z -> Z -> option float.
(** The rows [get_sales_officers()] returns. *)
Variable officers : list officer.

Definition item_key (it : item) : string :=
  canonical_key_for_dedup (py (i_company it)) (i_raw_text it).

(** [normalize_company_name(item.get("company")) or item.get("company") or
    "Unknown"] *)
Definition company_name (it : item) : string :=
  let n := normalize_company_name (py (i_company it)) in
  if negb (String.eqb n "") then n
  else
    match i_company it with
    | Some c => if negb (String.eqb c "") then c else "Unknown"
    | None => "Unknown"
    end.

(** The body of the loop, from [analyze_and_score] on, for an item whose
    key is new. An exception of the scorer ends the job. *)
Definition process (it : item) (st : state) : result state :=
  analysis ← analyze_and_score env config weights (py (i_raw_text it));
  let dossier :=
    build_dossier (company_name it) (py (i_raw_text it)) (i_source it)
      analysis (i_source_url it) in
  let prop :=
    predict_propensity (d_industry dossier) (d_source dossier)
      (d_priority dossier) (d_score dossier) (d_confidence dossier)
      (d_intent_score dossier) in
  let l := {| l_dossier := dossier;
              l_propensity_score := option_map round3 prop |} in
  let notified :=
    match officers with
    | default_officer :: _ =>
        if should_notify MIN_CONFIDENCE_TO_NOTIFY dossier
        then notified st ++ [(l, default_officer)]
        else notified st
    | [] => notified st
    end in
  Ok {| seen := seen st;
        inserted := inserted st ++ [l];
        notified := notified |}.

(** The loop over the items. The state is returned with the exception that
    ended the job, since every insertion is committed when it is made. *)
Fixpoint discovery_loop (existing : gset string) (items : list item)
    (st : state) : state * result unit :=
  match items with
  | [] => (st, Ok tt)
  | it :: items =>
      let key := item_key it in
      if bool_decide (key ∈ existing) || bool_decide (key ∈ seen st)
      then discovery_loop existing items st
      else
        let st := {| seen := {[key]} ∪ seen st;
                     inserted := inserted st;
                     notified := notified st |} in
        match process it st with
        | Ok st => discovery_loop existing items st
        | Raise e => (st, Raise e)
        end
  end.

Definition existing_keys (leads : list lead_row) : gset string :=
  list_to_set
    (map (fun row => canonical_key_for_dedup (py (l_company row)) (l_raw_text row))
       leads).

(** [leads] are the rows [get_all_leads()] returns and [items] the items
    [fetch_all_sources] returns. *)
Definition run_discovery (leads : list lead_row) (items : list item)
    : state * result Z :=
  let existing := existing_keys leads in
  let '(st, r) :=
    discovery_loop existing items
      {| seen := ∅; inserted := []; notified := [] |} in
  (st, match r with
       | Ok _ => Ok (Z.of_nat (size (seen st)))
       | Raise e => Raise e
       end).

End WithWorld.

End App.

(** ** Notions the properties are stated with *)

Module Spec.
Import Py PyFloat Nlp Extraction Config Db Scoring Feedback.

(** An installation with neither NLTK nor spaCy. *)
Definition no_packages : Env := {| nltk := None; spacy := None |}.

(** *** Scoring *)

(** The first procurement signal of the list that occurs in the text. *)
Definition first_signal (text : string) : option string :=
  List.find (fun sig => contains sig text) PROCUREMENT_SIGNALS.

Definition expansion_trigger (text : string) : bool :=
  contains "expansion" text || contains "new plant" text || contains "capacity" text.

Definition tender_trigger (text : string) : bool :=
  contains "tender" text || contains "rfp" text || contains "contract" text.

(** The four weighted bonuses, added up, for a way [f] of turning a base
    and a weight into points. *)
Definition bonus_total (f : Z -> float -> result Z) (weights : gmap string float)
    (text industry : string) : result Z :=
  p ← match first_signal text with
      | Some sig => f 15 (weights_get weights ("signal_" +:+ sig))
      | None => Ok 0
      end;
  e ← (if expansion_trigger text
       then f 25 (weights_get weights "signal_expansion") else Ok 0);
  t ← (if tender_trigger text
       then f 20 (weights_get weights "signal_tender") else Ok 0);
  i ← (if negb (String.eqb industry "Unknown")
       then f 30 (weights_get weights ("industry_" +:+ industry)) else Ok 0);
  Ok (p + e + t + i).

(** The score before the clamp, for a way [f] of computing a bonus. *)
Definition score_with (f : Z -> float -> result Z) (env : Env)
    (weights : gmap string float) (raw_text : string) : result Z :=
  let nlp_summary := summarize_for_scoring env (PyStr raw_text) in
  let industry := (detect_industry env (PyStr raw_text)).1 in
  b ← bonus_total f weights (lower raw_text) industry;
  Ok (b + _nlp_boost nlp_summary + s_procurement_intent_score nlp_summary / 10).

(** The bonus in the words of the specification: [round(base × weight)]. *)
Definition rounded_bonus (base : Z) (w : float) : result Z :=
  round_int (mul (of_int base) w).

(** A weight that is not negative: [0.0 <= w]. *)
Definition nonneg (w : float) : bool := leb (S754_zero false) w.

Definition none_in (keywords : list string) (text : string) : bool :=
  forallb (fun kw => negb (contains kw text)) keywords.



(** *** Classification *)

Definition specific_verticals : list string :=
  List.filter (fun k => negb (String.eqb k "General Industrial"))
    (map fst INDUSTRY_SIGNALS).

(** The number of keywords of a vertical that occur in the text. *)
Definition hits (text industry : string) : Z :=
  count_hits (dict_get INDUSTRY_SIGNALS industry []) text.

Definition max_hits (text : string) (verticals : list string) : Z :=
  foldr Z.max 0 (map (hits text) verticals).

(** The classification in the words of the specification: the specific
    vertical with the greatest count, the first one in catalog order among
    equals; with no hit at all, the general category if one of its keywords
    occurs, and Unknown otherwise. *)
Definition classify (text : string) : string :=
  let best := max_hits text specific_verticals in
  if best =? 0 then
    if 0 <? hits text "General Industrial" then "General Industrial" else "Unknown"
  else
    match List.find (fun v => hits text v =? best) specific_verticals with
    | Some v => v
    | None => "Unknown"
    end.

(** The text named by the specification: cleaned, lowered, with synonyms. *)
Definition synonym_expanded_text (raw_text : pyobj) : string :=
  expand_text_with_synonyms (lower (clean_text raw_text)).

(** *** The weight store *)

(** The row stored under a key. *)
Definition table_lookup (key : string) (table : list weight_row) : option weight_row :=
  List.find (fun r => String.eqb (industry_or_product r) key) table.

Definition keys (table : list weight_row) : list string :=
  map industry_or_product table.


(** The outcomes of the feedback rows of one industry. *)
Definition outcomes_of (ind : string) (rows : list feedback_row)
    : list (option string) :=
  map fb_outcome (List.filter (fun r => String.eqb (industry_of r) ind) rows).

(** The grouping loop of the adapter, started from any dictionary. *)
Definition grouped (d : list (string * list (option string)))
    (rows : list feedback_row) : list (string * list (option string)) :=
  foldl (fun d r => group_append (industry_of r) (fb_outcome r) d) d rows.

(** [round(0.85 + 0.35 × (accepted / total), 2)] *)
Definition adapted_weight (accepted total : Z) : float :=
  round2 (add f0_85 (mul f0_35 (div (of_int accepted) (of_int total)))).

Definition feedback (ind outcome : string) : feedback_row :=
  {| fb_industry := Some ind; fb_product_recommendations := None;
     fb_outcome := Some outcome |}.

(** The float nearest to 1.11 and the float nearest to 1.02. *)
Definition f1_11 : float := Eval vm_compute in div (of_int 111) (of_int 100).
Definition f1_02 : float := Eval vm_compute in div (of_int 102) (of_int 100).
(** The float -1.0. *)
Definition fm1_0 : float := S754_finite true 4503599627370496 (-52).

(** *** Binary64 rounding on scaled integers *)

(** The value [m * 2^e] counted in units of [2^-1074], the least positive
    binary64 number; it is an integer when [-1074 <= e]. *)
Definition scaled (m e : Z) : Z := m * 2 ^ (e + 1074).

(** The exponent, in the same units, of the grid binary64 offers around
    [x]: a number of up to 53 bits is exact. *)
Definition grid_exponent (x : Z) : Z := Z.max (Z.log2 x + 1 - 53) 0.

(** Rounding to the nearest multiple of the grid step, ties to even. *)
Definition round_scaled (x : Z) : Z :=
  div_half_even x (2 ^ grid_exponent x) * 2 ^ grid_exponent x.

(** [mrs] is [m] shifted right by [k] bits, with the round bit and the
    sticky bit of what was shifted out. *)
Definition shifted (m k : Z) (mrs : shr_record) : Prop :=
  shr_m mrs = m / 2 ^ k
  /\ exists t, 2 * (m mod 2 ^ k) = Z.b2z (shr_r mrs) * 2 ^ k + t
               /\ 0 <= t < 2 ^ k /\ (shr_s mrs = true <-> 0 < t).

(** A finite float whose exponent is at most 900, so below [2^953] in
    magnitude: multiplied by a base of the scorer it does not overflow. *)
Definition moderate (w : float) : bool :=
  match w with
  | S754_zero _ => true
  | S754_finite _ _ e => e <=? 900
  | _ => false
  end.

(** The scaled value of a float that is not an infinity. *)
Definition finite_result (x : float) (v : Z) : Prop :=
  match x with
  | S754_zero _ => v = 0
  | S754_finite _ m e => -1074 <= e /\ scaled (Z.pos m) e = v
  | S754_infinity _ => True
  | S754_nan => False
  end.

(** *** The range of the adapted weights *)

(** The float nearest to 1.2. *)
Definition f1_2 : float := Eval vm_compute in div (of_int 12) (of_int 10).

(** The two bits a location stands for, below the mantissa it comes
    with: the round bit and the sticky bit. *)
Definition loc_code (l : location) : Z :=
  match l with
  | loc_Exact => 0
  | loc_Inexact Lt => 1
  | loc_Inexact Eq => 2
  | loc_Inexact Gt => 3
  end.

(** The scaled value of a finite float, its sign apart. *)
Definition scaled_of (x : float) : Z :=
  match x with
  | S754_finite _ m e => scaled (Z.pos m) e
  | _ => 0
  end.

(** A float that is not negative, with a scaled value from [lo] to [hi]. *)
Definition within (lo hi : Z) (x : float) : Prop :=
  match x with
  | S754_zero false => lo <= 0 <= hi
  | S754_finite false m e => -1074 <= e /\ lo <= scaled (Z.pos m) e <= hi
  | _ => False
  end.

(** The priorities in increasing order. *)
Definition priority_rank (priority : string) : Z :=
  if String.eqb priority "HIGH" then 2
  else if String.eqb priority "MEDIUM" then 1
  else 0.

(** *** Cleaned text *)

(** The text does not start with white space. *)
Definition starts_clean (s : string) : bool :=
  match s with
  | EmptyString => true
  | String c _ => negb (isspace c)
  end.

(** Every white-space character of the text is a space, and what follows it
    is not white space. *)
Fixpoint single_spaced (s : string) : bool :=
  match s with
  | EmptyString => true
  | String c t =>
      (negb (isspace c) || (Ascii.eqb c " " && starts_clean t))
      && single_spaced t
  end.

(** No ["<"] of the text opens a tag. *)
Fixpoint no_tag (s : string) : bool :=
  match s with
  | EmptyString => true
  | String c t => negb (Ascii.eqb c "<" && opens_tag t) && no_tag t
  end.

(** *** ASCII text *)

(** [s.isascii()]: every character of the text is below 128. On such a
    text the white space, the letters, the digits and the letter case of
    Python's [str] and [re] are those of the embedding. *)
Definition is_ascii (s : string) : bool :=
  all_chars (fun c => (ord c <? 128)%N) s.

(** A value that is an ASCII string or no string. *)
Definition ascii_or_no_str (o : pyobj) : bool :=
  match o with
  | PyStr s => is_ascii s
  | _ => true
  end.

End Spec.
(** * Properties *)

Module ExtractionFacts.
Import Py PyFloat Nlp Extraction Config Db Scoring Feedback Spec.

Lemma first_keyword_clue_length industry keywords text :
  (length (first_keyword_clue industry keywords text) <= 1)%nat.
Proof.
  induction keywords as [|kw rest IH]; simpl; [lia|].
  destruct (contains kw text); simpl; lia.
Qed.

Lemma industry_clues_length text (catalog : list (string * list string)) :
  (length (flat_map (fun '(industry, keywords) =>
                       first_keyword_clue industry keywords text) catalog)
   <= length catalog)%nat.
Proof.
  induction catalog as [|[industry keywords] rest IH]; simpl; [lia|].
  rewrite length_app.
  pose proof (first_keyword_clue_length industry keywords text). lia.
Qed.

Lemma collect_phrases_length max_phrases seen out candidates :
  (length out < max_phrases \/ out = [])%nat ->
  (length (collect_phrases max_phrases seen out candidates)
   <= Nat.max 1 max_phrases)%nat.
Proof.
  revert seen out.
  induction candidates as [|[p n] rest IH]; intros seen out Hout; simpl.
  - destruct Hout as [Hout | ->]; simpl; lia.
  - destruct (mem p seen); [apply IH; exact Hout|].
    destruct (Nat.leb_spec max_phrases (length (out ++ [p]))) as [Hle | Hlt].
    + rewrite length_app in *. simpl in *.
      destruct Hout as [Hout | ->]; simpl in *; lia.
    + apply IH. left. exact Hlt.
Qed.

Lemma extract_key_phrases_length env raw_text max_phrases :
  (length (extract_key_phrases env raw_text max_phrases) <= Nat.max 1 max_phrases)%nat.
Proof.
  unfold extract_key_phrases.
  destruct (String.eqb _ ""); [simpl; lia|].
  destruct (_ <? 2)%nat; [simpl; lia|].
  apply collect_phrases_length. right. reflexivity.
Qed.

(** Claim C10. [extract_requirement_clues] returns the first 14 entries of
    the procurement-signal clues, followed by the industry clues, followed by
    the key-phrase clues; so it returns at most 14 clues. There is at most
    one industry clue for each of the 8 verticals and there are at most 6
    key-phrase clues. *)
Theorem requirement_clues_at_most_14 (env : Env) (raw_text : pyobj) :
  let text := lower (clean_text raw_text) in
  let signal_clues :=
    map (fun sig => "Procurement signal: " +:+ sig)
      (List.filter (fun sig => contains sig text) PROCUREMENT_SIGNALS) in
  let industry_clues :=
    flat_map (fun '(industry, keywords) => first_keyword_clue industry keywords text)
      INDUSTRY_SIGNALS in
  let phrase_clues :=
    map (fun p => "Phrase: " +:+ p) (extract_key_phrases env raw_text 6) in
  extract_requirement_clues env raw_text
    = take 14 (signal_clues ++ industry_clues ++ phrase_clues)
  /\ (length (extract_requirement_clues env raw_text) <= 14)%nat
  /\ (forall industry keywords,
        (length (first_keyword_clue industry keywords text) <= 1)%nat)
  /\ (length industry_clues <= 8)%nat
  /\ (length phrase_clues <= 6)%nat.
Proof.
  intros text signal_clues industry_clues phrase_clues.
  split; [|split; [|split; [|split]]].
  - unfold extract_requirement_clues. rewrite app_nil_l, <- app_assoc. reflexivity.
  - unfold extract_requirement_clues. rewrite length_take. lia.
  - intros. apply first_keyword_clue_length.
  - apply (industry_clues_length text INDUSTRY_SIGNALS).
  - unfold phrase_clues. rewrite length_map.
    apply (extract_key_phrases_length env raw_text 6).
Qed.

End ExtractionFacts.
Module ClassifierFacts.
Import Py PyFloat Nlp Extraction Config Db Scoring Feedback Spec.

Lemma max_hits_nil text : max_hits text [] = 0.
Proof. reflexivity. Qed.

Lemma max_hits_cons text v l :
  max_hits text (v :: l) = Z.max (hits text v) (max_hits text l).
Proof. reflexivity. Qed.

Lemma max_hits_nonneg text l : 0 <= max_hits text l.
Proof. induction l; rewrite ?max_hits_nil, ?max_hits_cons; lia. Qed.

Lemma find_max_hits text l :
  0 < max_hits text l ->
  exists v, List.find (fun v => hits text v =? max_hits text l) l = Some v.
Proof.
  induction l as [|a l IH]; [rewrite max_hits_nil; lia|].
  rewrite max_hits_cons. cbn [List.find]. intros Hpos.
  destruct (Z.eqb_spec (hits text a) (Z.max (hits text a) (max_hits text l))) as [E | NE].
  - eexists. reflexivity.
  - assert (Hmax : Z.max (hits text a) (max_hits text l) = max_hits text l) by lia.
    rewrite Hmax in *. apply IH. lia.
Qed.

(** The loop of [detect_industry] from any state: it keeps the state when no
    vertical of the list beats it, and otherwise ends on the first vertical
    that reaches the maximum of the list. *)
Lemma best_loop text l : forall best_industry best_score,
  0 <= best_score ->
  foldl (best_step text) (best_industry, best_score) l =
    if max_hits text l <=? best_score then (best_industry, best_score)
    else (match List.find (fun v => hits text v =? max_hits text l) l with
          | Some v => v
          | None => "Unknown"
          end, max_hits text l).
Proof.
  induction l as [|v l IH]; intros bi bs Hbs.
  - rewrite max_hits_nil. simpl. destruct (Z.leb_spec 0 bs); [reflexivity | lia].
  - cbn [foldl]. unfold best_step at 2. fold (hits text v).
    rewrite max_hits_cons. cbn [List.find].
    pose proof (max_hits_nonneg text l) as Hm.
    destruct (Z.ltb_spec bs (hits text v)) as [Hlt | Hge].
    + rewrite IH by lia.
      destruct (Z.leb_spec (Z.max (hits text v) (max_hits text l)) bs); [lia|].
      destruct (Z.leb_spec (max_hits text l) (hits text v)) as [Hle | Hgt].
      * rewrite Z.max_l by lia. rewrite Z.eqb_refl. reflexivity.
      * rewrite Z.max_r by lia.
        destruct (Z.eqb_spec (hits text v) (max_hits text l)); [lia | reflexivity].
    + rewrite IH by lia.
      destruct (Z.leb_spec (max_hits text l) bs) as [Hle | Hgt].
      * destruct (Z.leb_spec (Z.max (hits text v) (max_hits text l)) bs); [reflexivity | lia].
      * destruct (Z.leb_spec (Z.max (hits text v) (max_hits text l)) bs); [lia|].
        rewrite Z.max_r by lia.
        destruct (Z.eqb_spec (hits text v) (max_hits text l)); [lia | reflexivity].
Qed.

Lemma specific_verticals_list :
  specific_verticals =
    ["Cement"; "Marine"; "Construction / Roads"; "Power / Utilities";
     "Refinery / Petrochemical"; "Mining / Steel"; "Aviation"].
Proof. vm_compute. reflexivity. Qed.

Lemma specific_not_unknown v : v ∈ specific_verticals -> String.eqb v "Unknown" = false.
Proof.
  intros Hin. rewrite specific_verticals_list in Hin.
  repeat (apply elem_of_cons in Hin as [-> | Hin]; [reflexivity|]).
  inversion Hin.
Qed.

Lemma find_some_elem {A} (p : A -> bool) l v : List.find p l = Some v -> v ∈ l /\ p v = true.
Proof.
  induction l as [|a l IH]; simpl; [discriminate|].
  destruct (p a) eqn:E.
  - intros [= <-]. split; [left | exact E].
  - intros H. destruct (IH H). split; [right; assumption | assumption].
Qed.

(** [detect_industry] computes [classify] on the text it searches. *)
Lemma detect_industry_classify env raw_text :
  (detect_industry env raw_text).1 = classify (detection_text env raw_text).
Proof.
  unfold detect_industry, classify. fold specific_verticals.
  set (text := detection_text env raw_text).
  rewrite best_loop by lia.
  fold (hits text "General Industrial").
  pose proof (max_hits_nonneg text specific_verticals) as Hm.
  destruct (Z.leb_spec (max_hits text specific_verticals) 0) as [Hle | Hgt].
  - assert (E : max_hits text specific_verticals = 0) by lia. rewrite E. simpl.
    destruct (0 <? hits text "General Industrial"); reflexivity.
  - destruct (Z.eqb_spec (max_hits text specific_verticals) 0); [lia|].
    destruct (find_max_hits text specific_verticals Hgt) as [v Hv].
    rewrite Hv. apply find_some_elem in Hv as [Hin _].
    rewrite (specific_not_unknown v Hin). reflexivity.
Qed.

Lemma find_first_max text before v after :
  (forall j, j ∈ before -> hits text j < hits text v) ->
  (forall j, j ∈ after -> hits text j <= hits text v) ->
  0 < hits text v ->
  max_hits text (before ++ v :: after) = hits text v /\
  List.find (fun j => hits text j =? hits text v) (before ++ v :: after) = Some v.
Proof.
  intros Hb Ha Hpos. induction before as [|b before IH]; cbn [app List.find];
    rewrite max_hits_cons.
  - assert (max_hits text after <= hits text v).
    { clear -Ha Hpos. induction after as [|a after IH];
        rewrite ?max_hits_nil, ?max_hits_cons; [lia|].
      pose proof (Ha a ltac:(left)).
      assert (max_hits text after <= hits text v) by (apply IH; intros; apply Ha; right; assumption).
      lia. }
    rewrite Z.eqb_refl. split; [lia | reflexivity].
  - destruct IH as [IH1 IH2]; [intros; apply Hb; right; assumption|].
    pose proof (Hb b ltac:(left)).
    rewrite IH1. split; [lia|].
    destruct (Z.eqb_spec (hits text b) (hits text v)); [lia | exact IH2].
Qed.

Lemma products_of_classify text :
  dict_get PRODUCT_MAPPING (classify text) ["Industrial Fuels"] <> [] /\
  (classify text = "Unknown" ->
   dict_get PRODUCT_MAPPING (classify text) ["Industrial Fuels"] = ["Industrial Fuels"]).
Proof.
  assert (Hcases : classify text = "Unknown" \/ classify text = "General Industrial"
                   \/ classify text ∈ specific_verticals).
  { unfold classify.
    destruct (_ =? 0).
    - destruct (0 <? _); auto.
    - destruct (List.find _ _) eqn:E; [|auto].
      apply find_some_elem in E as [Hin _]. auto. }
  destruct Hcases as [-> | [-> | Hin]].
  - split; [discriminate | reflexivity].
  - split; [discriminate | discriminate].
  - set (c := classify text) in *. clearbody c.
    rewrite specific_verticals_list in Hin.
    repeat (apply elem_of_cons in Hin as [-> | Hin];
            [split; [vm_compute; discriminate | discriminate]|]).
    inversion Hin.
Qed.

(** Claim C7. The products returned by [detect_industry] are never empty,
    for any input, text or not, the empty string included: with industry
    Unknown they are the default list holding "Industrial Fuels", and every
    vertical of the catalog has a non-empty entry in the product table. *)
Theorem products_never_empty (env : Env) (raw_text : pyobj) :
  (detect_industry env raw_text).2 <> []
  /\ ((detect_industry env raw_text).1 = "Unknown" ->
      (detect_industry env raw_text).2 = ["Industrial Fuels"])
  /\ (forall vertical, vertical ∈ map fst INDUSTRY_SIGNALS ->
      vertical ∈ map fst PRODUCT_MAPPING /\
      dict_get PRODUCT_MAPPING vertical ["Industrial Fuels"] <> [])
  /\ detect_industry env (PyStr "") = ("Unknown", ["Industrial Fuels"]).
Proof.
  assert (Hprod : (detect_industry env raw_text).2
                  = dict_get PRODUCT_MAPPING (detect_industry env raw_text).1 ["Industrial Fuels"]).
  { unfold detect_industry. destruct (foldl _ _ _). reflexivity. }
  rewrite Hprod, detect_industry_classify.
  destruct (products_of_classify (detection_text env raw_text)) as [Hne Hunk].
  split; [exact Hne|]. split; [exact Hunk|]. split; [|vm_compute; reflexivity].
  intros vertical Hin.
  change (map fst INDUSTRY_SIGNALS) with
    ["Cement"; "Marine"; "Construction / Roads"; "Power / Utilities";
     "Refinery / Petrochemical"; "Mining / Steel"; "Aviation"; "General Industrial"] in Hin.
  change (map fst PRODUCT_MAPPING) with
    ["Cement"; "Marine"; "Construction / Roads"; "Power / Utilities";
     "Refinery / Petrochemical"; "Mining / Steel"; "Aviation"; "General Industrial"].
  repeat (apply elem_of_cons in Hin as [-> | Hin];
          [split; [repeat constructor | vm_compute; discriminate]|]).
  inversion Hin.
Qed.

Lemma products_never_empty_witness :
  (detect_industry no_packages (PyStr "Hello world")).2 = ["Industrial Fuels"].
Proof.
  apply (products_never_empty no_packages (PyStr "Hello world")).
  vm_compute. reflexivity.
Defined.

Lemma max_hits_zero text l :
  (forall j, j ∈ l -> hits text j = 0) -> max_hits text l = 0.
Proof.
  induction l as [|a l IH]; intros H; [reflexivity|].
  rewrite max_hits_cons.
  rewrite (H a) by left.
  rewrite IH by (intros j Hj; apply H; right; exact Hj).
  reflexivity.
Qed.

(** Claim C3, with the text the program searches. [detect_industry] returns
    the specific vertical (every vertical of the catalog except General
    Industrial) with the strictly greatest number of keyword hits, the first
    one in catalog order among equals; the hits are counted in the cleaned,
    lowered, synonym-expanded text followed by the key phrases. When no
    specific vertical has a hit it returns General Industrial if one of that
    category's keywords occurs there, and Unknown otherwise. *)
Theorem detect_industry_best_vertical (env : Env) (raw_text : pyobj) :
  let text := detection_text env raw_text in
  let industry := (detect_industry env raw_text).1 in
  industry = classify text
  /\ (forall before v after,
        specific_verticals = before ++ v :: after ->
        0 < hits text v ->
        (forall j, j ∈ before -> hits text j < hits text v) ->
        (forall j, j ∈ after -> hits text j <= hits text v) ->
        industry = v)
  /\ ((forall j, j ∈ specific_verticals -> hits text j = 0) ->
      industry = if 0 <? hits text "General Industrial"
                 then "General Industrial" else "Unknown")
  /\ specific_verticals =
       ["Cement"; "Marine"; "Construction / Roads"; "Power / Utilities";
        "Refinery / Petrochemical"; "Mining / Steel"; "Aviation"].
Proof.
  intros text industry. unfold industry. rewrite detect_industry_classify. fold text.
  split; [reflexivity|]. split; [|split; [|exact specific_verticals_list]].
  - intros before v after Hsplit Hpos Hbefore Hafter.
    destruct (find_first_max text before v after Hbefore Hafter Hpos) as [Hmax Hfind].
    unfold classify. rewrite Hsplit, Hmax, Hfind.
    destruct (Z.eqb_spec (hits text v) 0); [lia | reflexivity].
  - intros Hzero. unfold classify. rewrite (max_hits_zero _ _ Hzero). reflexivity.
Qed.

Lemma detect_industry_best_vertical_witness :
  (detect_industry no_packages (PyStr "industrial, fuel")).1 = "Power / Utilities".
Proof.
  apply (detect_industry_best_vertical no_packages (PyStr "industrial, fuel"))
    with (before := ["Cement"; "Marine"; "Construction / Roads"])
         (after := ["Refinery / Petrochemical"; "Mining / Steel"; "Aviation"]).
  - vm_compute. reflexivity.
  - vm_compute. reflexivity.
  - intros j Hj.
    repeat (apply elem_of_cons in Hj as [-> | Hj]; [vm_compute; reflexivity|]).
    inversion Hj.
  - intros j Hj.
    repeat (apply elem_of_cons in Hj as [-> | Hj]; [vm_compute; discriminate|]).
    inversion Hj.
Defined.

(** Claim C3 as it is worded counts the hits in the synonym-expanded text
    alone. For the text "industrial, fuel" that text gives Marine one hit
    (bunker) and Power / Utilities one hit (furnace), so Marine would win;
    the key phrase "industrial fuel" gives Power / Utilities a second hit,
    and the program returns Power / Utilities. *)
Lemma synonym_text_is_not_the_searched_text :
  ~ (forall (env : Env) (raw_text : pyobj),
       (detect_industry env raw_text).1 = classify (synonym_expanded_text raw_text)).
Proof.
  intros H. specialize (H no_packages (PyStr "industrial, fuel")).
  vm_compute in H. discriminate H.
Qed.

End ClassifierFacts.
Module ScoringFacts.
Import Py PyFloat Nlp Extraction Config Db Scoring Feedback Spec.

(** *** Weight keys *)

Lemma signal_key_ne sig : "signal_" +:+ sig <> "industry_Unknown".
Proof. discriminate. Qed.

Lemma industry_key_inj a b : "industry_" +:+ a = "industry_" +:+ b -> a = b.
Proof. intros H. injection H. auto. Qed.

Lemma eqb_false_ne (a b : string) : String.eqb a b = false -> a <> b.
Proof. intros H. apply String.eqb_neq. exact H. Qed.

(** *** The loop over the procurement signals *)

Lemma procurement_loop_find weights text score signals :
  procurement_loop weights text score signals =
    match List.find (fun sig => contains sig text) signals with
    | Some sig => b ← bonus 15 (weights_get weights ("signal_" +:+ sig)); Ok (score + b)
    | None => Ok score
    end.
Proof.
  induction signals as [|sig rest IH]; simpl; [reflexivity|].
  destruct (contains sig text); [reflexivity | exact IH].
Qed.

(** *** The intent score *)

Lemma intent_score_range raw_text :
  0 <= procurement_intent_score raw_text <= 100.
Proof.
  unfold procurement_intent_score.
  destruct (String.eqb _ ""); [lia|]. lia.
Qed.

Lemma int_div_10_table :
  forallb (fun i => match to_int (div (of_int i) (of_int 10)) with
                    | Ok z => z =? i / 10
                    | Raise _ => false
                    end) (map Z.of_nat (seq 0 101)) = true.
Proof. vm_compute. reflexivity. Qed.

(** [int(intent_score / 10)] is the integer quotient. *)
Lemma int_div_10 i : 0 <= i <= 100 -> to_int (div (of_int i) (of_int 10)) = Ok (i / 10).
Proof.
  intros Hi. pose proof int_div_10_table as T.
  rewrite forallb_forall in T.
  specialize (T i). 
  assert (Hin : In i (map Z.of_nat (seq 0 101))).
  { apply in_map_iff. exists (Z.to_nat i). split; [lia|]. apply in_seq. lia. }
  specialize (T Hin).
  destruct (to_int (div (of_int i) (of_int 10))); [|discriminate].
  apply Z.eqb_eq in T. congruence.
Qed.

Lemma summary_intent env raw_text :
  s_procurement_intent_score (summarize_for_scoring env raw_text)
  = procurement_intent_score raw_text.
Proof. reflexivity. Qed.

(** The score before the clamp is the sum of the four bonuses, each the
    truncated product, of the NLP boost and of a tenth of the intent score. *)
Lemma score_before_clamp_sum env weights raw_text :
  score_before_clamp env weights raw_text = score_with bonus env weights raw_text.
Proof.
  unfold score_before_clamp, score_with, bonus_total, first_signal,
    expansion_trigger, tender_trigger.
  cbv zeta. rewrite procurement_loop_find, !summary_intent.
  rewrite (int_div_10 _ (intent_score_range (PyStr raw_text))).
  destruct (detect_industry env (PyStr raw_text)) as [industry products].
  cbn [fst].
  repeat match goal with
         | |- context [match List.find ?p ?l with Some _ => _ | None => _ end] =>
             destruct (List.find p l)
         | |- context [if ?b then _ else _] => destruct b
         | |- context [bonus ?n ?w] => destruct (bonus n w)
         end; cbn; try reflexivity; f_equal; lia.
Qed.

(** *** The weight of Unknown *)

Lemma weights_get_agree (w1 w2 : gmap string float) key :
  (forall k, k <> "industry_Unknown" -> w1 !! k = w2 !! k) ->
  key <> "industry_Unknown" ->
  weights_get w1 key = weights_get w2 key.
Proof. intros H Hne. unfold weights_get. rewrite (H key Hne). reflexivity. Qed.

Lemma bonus_total_agree f (w1 w2 : gmap string float) text industry :
  (forall k, k <> "industry_Unknown" -> w1 !! k = w2 !! k) ->
  bonus_total f w1 text industry = bonus_total f w2 text industry.
Proof.
  intros H. unfold bonus_total.
  rewrite (weights_get_agree w1 w2 "signal_expansion" H) by discriminate.
  rewrite (weights_get_agree w1 w2 "signal_tender" H) by discriminate.
  destruct (first_signal text) as [sig|].
  - rewrite (weights_get_agree w1 w2 _ H (signal_key_ne sig)).
    destruct (String.eqb industry "Unknown") eqn:E; [reflexivity|].
    rewrite (weights_get_agree w1 w2 ("industry_" +:+ industry) H); [reflexivity|].
    intros Heq. apply industry_key_inj in Heq. apply eqb_false_ne in E. contradiction.
  - destruct (String.eqb industry "Unknown") eqn:E; [reflexivity|].
    rewrite (weights_get_agree w1 w2 ("industry_" +:+ industry) H); [reflexivity|].
    intros Heq. apply industry_key_inj in Heq. apply eqb_false_ne in E. contradiction.
Qed.

(** Claim C9. A weight stored under "industry_Unknown" never influences a
    result: two weight tables that differ at most in the value or the
    presence of that key give the same result of [analyze_and_score], an
    exception included, for every input. *)
Theorem unknown_weight_is_never_used (env : Env) (config : Config.t)
    (w1 w2 : gmap string float) (raw_text : pyobj) :
  (forall k, k <> "industry_Unknown" -> w1 !! k = w2 !! k) ->
  analyze_and_score env config w1 raw_text = analyze_and_score env config w2 raw_text.
Proof.
  intros H. destruct raw_text as [s| |z]; [|reflexivity|reflexivity].
  unfold analyze_and_score.
  rewrite !score_before_clamp_sum. unfold score_with.
  rewrite (bonus_total_agree bonus w1 w2 _ _ H). reflexivity.
Qed.

Lemma unknown_weight_is_never_used_witness :
  analyze_and_score no_packages Config.defaults
    {[ "industry_Unknown" := fm1_0 ]} (PyStr "Hello world")
  = analyze_and_score no_packages Config.defaults ∅ (PyStr "Hello world").
Proof.
  apply (unknown_weight_is_never_used no_packages Config.defaults
           {[ "industry_Unknown" := fm1_0 ]} ∅ (PyStr "Hello world")).
  intros k Hk. rewrite lookup_singleton_ne by congruence. rewrite lookup_empty.
  reflexivity.
Defined.

(** *** Bounds *)

Lemma binary_round_aux_sign s m e l :
  match binary_round_aux prec emax s m e l with
  | S754_zero s' | S754_infinity s' | S754_finite s' _ _ => s' = s
  | S754_nan => True
  end.
Proof.
  unfold binary_round_aux.
  destruct (shr_fexp prec emax m e l) as [mrs' e'].
  destruct (shr_fexp prec emax _ e' loc_Exact) as [mrs'' e''].
  destruct (shr_m mrs''); [reflexivity | | exact I].
  destruct (e'' <=? emax - prec); reflexivity.
Qed.

Lemma shiftl_pos_nonneg m e : 0 <= Z.shiftl (Zpos m) e.
Proof. apply Z.shiftl_nonneg. lia. Qed.

(** A positive base times a weight that is not negative gives points that
    are not negative. *)
Lemma bonus_nonneg base w z :
  0 < base -> nonneg w = true -> bonus base w = Ok z -> 0 <= z.
Proof.
  intros Hbase Hw. unfold bonus, mul, to_int.
  destruct base as [|b|b]; try lia. cbn [of_int].
  destruct w as [s|s| |s m e]; cbn [SFmul]; try discriminate.
  - intros [= <-]. lia.
  - destruct s; [discriminate Hw|]. cbn [xorb].
    pose proof (binary_round_aux_sign false (Z.pos (b * m)) (0 + e) loc_Exact) as Hs.
    destruct (binary_round_aux prec emax false (Z.pos (b * m)) (0 + e) loc_Exact)
      as [s'|s'| |s' m' e']; try discriminate.
    + intros [= <-]. lia.
    + intros [= <-]. subst s'. cbn [cond_Zopp]. apply shiftl_pos_nonneg.
Qed.

Lemma weights_get_nonneg (weights : gmap string float) key :
  (forall k w, weights !! k = Some w -> nonneg w = true) ->
  nonneg (weights_get weights key) = true.
Proof.
  intros H. unfold weights_get.
  destruct (weights !! key) as [w|] eqn:E; [exact (H key w E) | reflexivity].
Qed.

Lemma nlp_boost_range nlp_summary : 0 <= _nlp_boost nlp_summary <= 5.
Proof.
  unfold _nlp_boost.
  destruct (2 <=? _)%nat; destruct (orgs _); lia.
Qed.

Lemma bonus_total_nonneg (weights : gmap string float) text industry b :
  (forall k w, weights !! k = Some w -> nonneg w = true) ->
  bonus_total bonus weights text industry = Ok b -> 0 <= b.
Proof.
  intros H. unfold bonus_total.
  assert (Hb : forall base key z, 0 < base ->
             bonus base (weights_get weights key) = Ok z -> 0 <= z).
  { intros base key z Hbase. apply bonus_nonneg; [exact Hbase|].
    apply weights_get_nonneg. exact H. }
  repeat match goal with
         | |- context [match first_signal ?t with Some _ => _ | None => _ end] =>
             destruct (first_signal t)
         | |- context [if ?b then _ else _] => destruct b
         | |- context [bonus ?n (weights_get weights ?k)] =>
             let E := fresh "E" in
             destruct (bonus n (weights_get weights k)) eqn:E;
             [apply Hb in E; [|lia] |]
         end; cbn; try discriminate; intros [= <-]; lia.
Qed.

Lemma score_before_clamp_nonneg env (weights : gmap string float) raw_text z :
  (forall k w, weights !! k = Some w -> nonneg w = true) ->
  score_before_clamp env weights raw_text = Ok z -> 0 <= z.
Proof.
  intros H. rewrite score_before_clamp_sum. unfold score_with.
  rewrite summary_intent.
  destruct (bonus_total bonus weights _ _) as [b|] eqn:Eb; [|discriminate].
  apply (bonus_total_nonneg _ _ _ _ H) in Eb.
  intros [= <-].
  pose proof (nlp_boost_range (summarize_for_scoring env (PyStr raw_text))).
  pose proof (intent_score_range (PyStr raw_text)) as Hi.
  assert (0 <= procurement_intent_score (PyStr raw_text) / 10)
    by (apply Z.div_pos; lia).
  lia.
Qed.

Lemma analyze_and_score_ok env config weights raw_text r :
  analyze_and_score env config weights raw_text = Ok r ->
  exists s z, raw_text = PyStr s /\ score_before_clamp env weights s = Ok z
              /\ score r = Z.min 100 z /\ confidence r = Z.min 95 (score r + 10).
Proof.
  destruct raw_text as [s| |n]; [|discriminate|discriminate].
  unfold analyze_and_score. cbv zeta.
  generalize (extract_requirement_clues env (PyStr s)).
  generalize (summarize_for_scoring env (PyStr s)).
  destruct (detect_industry env (PyStr s)) as [ind prods].
  destruct (score_before_clamp env weights s) as [z|] eqn:E; [|discriminate].
  intros ns clues [= <-]. exists s, z. repeat split; try reflexivity; exact E.
Qed.

(** Claim C2, with the lower bound where it holds. Whenever
    [analyze_and_score] returns, the score is at most 100 and the confidence
    is [min(95, score + 10)]: it is [score + 10] when the score is at most 85
    and 95 otherwise, it is derived from the score alone. The score is at
    least 0 when no weight of the table is negative. *)
Theorem score_and_confidence_bounds (env : Env) (config : Config.t)
    (weights : gmap string float) (raw_text : pyobj) (r : analysis) :
  analyze_and_score env config weights raw_text = Ok r ->
  score r <= 100
  /\ confidence r = Z.min 95 (score r + 10)
  /\ (score r <= 85 -> confidence r = score r + 10)
  /\ (85 < score r -> confidence r = 95)
  /\ ((forall k w, weights !! k = Some w -> nonneg w = true) -> 0 <= score r).
Proof.
  intros H. apply analyze_and_score_ok in H as (s & z & -> & Hz & Hs & Hc).
  rewrite Hc.
  split; [lia|]. split; [reflexivity|]. split; [lia|]. split; [lia|].
  intros Hw. pose proof (score_before_clamp_nonneg env weights s z Hw Hz). lia.
Qed.

Lemma score_and_confidence_bounds_witness :
  exists r,
    analyze_and_score no_packages Config.defaults {[ "industry_Marine" := f1_02 ]}
      (PyStr "marine") = Ok r
    /\ 0 <= score r <= 100 /\ confidence r = score r + 10.
Proof.
  assert (H : analyze_and_score no_packages Config.defaults
                {[ "industry_Marine" := f1_02 ]} (PyStr "marine")
              = Ok {| industry := "Marine";
                      product_recommendations := ["Marine Fuel"; "LSHS"; "Bunker"];
                      requirement_clues := ["Industry signal: Marine (marine)"];
                      score := 30; confidence := 40; priority := "LOW";
                      summary := "marine"; intent_score := 0 |})
    by (vm_compute; reflexivity).
  eexists. split; [exact H|].
  destruct (score_and_confidence_bounds _ _ _ _ _ H) as (Hle & _ & Hlow & _ & Hge).
  split; [split; [|exact Hle] | apply Hlow; vm_compute; discriminate].
  apply Hge. intros k w Hk.
  destruct (decide (k = "industry_Marine")) as [-> | Hne].
  - rewrite lookup_singleton_eq in Hk. injection Hk as <-. vm_compute. reflexivity.
  - rewrite lookup_singleton_ne in Hk by congruence. discriminate Hk.
Defined.

(** Claim C2 as it is worded: with the weight -1.0 for "signal_tender" the
    text "tender" has the score -3. *)
Lemma negative_weight_negative_score :
  ~ (forall (env : Env) (config : Config.t) (weights : gmap string float)
            (raw_text : pyobj) (r : analysis),
       analyze_and_score env config weights raw_text = Ok r ->
       0 <= score r <= 100 /\ confidence r = Z.min 95 (score r + 10)).
Proof.
  intros H.
  assert (E : analyze_and_score no_packages Config.defaults
                {[ "signal_tender" := fm1_0 ]} (PyStr "tender")
              = Ok {| industry := "General Industrial";
                      product_recommendations := ["Industrial Fuels"; "Furnace Oil"; "LSHS"];
                      requirement_clues :=
                        ["Procurement signal: tender";
                         "Industry signal: General Industrial (tender)"];
                      score := -3; confidence := 7; priority := "LOW";
                      summary := "tender"; intent_score := 25 |})
    by (vm_compute; reflexivity).
  destruct (H _ _ _ _ _ E) as [[Hneg _] _]. cbn [score] in Hneg. lia.
Qed.

(** *** Truncated and rounded bonuses *)

Lemma first_signal_first before sig after text :
  PROCUREMENT_SIGNALS = before ++ sig :: after ->
  contains sig text = true ->
  (forall s, s ∈ before -> contains s text = false) ->
  first_signal text = Some sig.
Proof.
  unfold first_signal. intros -> Hsig Hbefore.
  induction before as [|b before IH]; cbn [app List.find].
  - rewrite Hsig. reflexivity.
  - rewrite (Hbefore b) by left. apply IH. intros s Hs. apply Hbefore. right. exact Hs.
Qed.

Lemma find_none_in text keywords :
  (forall s, s ∈ keywords -> contains s text = false) ->
  List.find (fun sig => contains sig text) keywords = None.
Proof.
  induction keywords as [|k keywords IH]; intros H; cbn [List.find]; [reflexivity|].
  rewrite (H k) by left. apply IH. intros s Hs. apply H. right. exact Hs.
Qed.

Lemma div_half_even_cases n d :
  0 <= n -> 0 < d ->
  n / d <= div_half_even n d <= n / d + 1.
Proof.
  intros Hn Hd. unfold div_half_even.
  destruct (2 * (n mod d) ?= d); [destruct (Z.even (n / d))| |]; lia.
Qed.

Lemma abs_cond_Zopp s z : Z.abs (cond_Zopp s z) = Z.abs z.
Proof. destruct s; cbn [cond_Zopp]; lia. Qed.

(** Truncation and rounding of the same float differ by at most one, and
    the truncation is the one nearer to zero. *)
Lemma to_int_round_int x z :
  to_int x = Ok z ->
  exists z', round_int x = Ok z' /\ Z.abs z <= Z.abs z' <= Z.abs z + 1.
Proof.
  destruct x as [s|s| |s m e]; cbn [to_int round_int]; try discriminate.
  - intros [= <-]. exists 0. split; [reflexivity | lia].
  - intros [= <-]. eexists. split; [reflexivity|].
    rewrite !abs_cond_Zopp.
    destruct e as [|p|p].
    + rewrite Z.shiftl_0_r. cbn [Z.pow]. lia.
    + rewrite Z.shiftl_mul_pow2 by lia. lia.
    + rewrite Z.shiftl_div_pow2 by lia. change (- Z.neg p) with (Z.pos p).
      assert (Hd : 0 < 2 ^ Z.pos p) by (apply Z.pow_pos_nonneg; lia).
      pose proof (div_half_even_cases (Z.pos m) (2 ^ Z.pos p) ltac:(lia) Hd).
      assert (0 <= Z.pos m / 2 ^ Z.pos p) by (apply Z.div_pos; lia).
      lia.
Qed.

Lemma bonus_default base (weights : gmap string float) key :
  base ∈ [15; 25; 20; 30] -> weights !! key = None ->
  bonus base (weights_get weights key) = Ok base.
Proof.
  intros Hbase Hkey. unfold weights_get. rewrite Hkey. cbn [default].
  repeat (apply elem_of_cons in Hbase as [-> | Hbase]; [vm_compute; reflexivity|]).
  inversion Hbase.
Qed.

(** Claim C1, with the truncation the program applies. For every text and
    weight table the score before the clamp is the sum of the bonuses, of
    the NLP boost and of a tenth of the intent score, and each bonus is the
    product of its base and its weight truncated toward zero by [int]: 15
    times the weight of "signal_<sig>" for the first procurement signal of
    the list that occurs in the text and for no other one, 25 times the
    weight of "signal_expansion" for an expansion trigger, 20 times the
    weight of "signal_tender" for a tender trigger, 30 times the weight of
    "industry_<vertical>" for an industry other than Unknown. A missing
    weight counts as 1.0 and then gives the base itself. The truncated
    product is the rounded product or the integer next to it toward zero. *)
Theorem bonuses_are_truncated_products (env : Env) (weights : gmap string float)
    (raw_text : string) :
  score_before_clamp env weights raw_text = score_with bonus env weights raw_text
  /\ (forall base w, bonus base w = to_int (mul (of_int base) w))
  /\ (forall before sig after,
        PROCUREMENT_SIGNALS = before ++ sig :: after ->
        contains sig (lower raw_text) = true ->
        (forall s, s ∈ before -> contains s (lower raw_text) = false) ->
        first_signal (lower raw_text) = Some sig)
  /\ ((forall s, s ∈ PROCUREMENT_SIGNALS -> contains s (lower raw_text) = false) ->
      first_signal (lower raw_text) = None)
  /\ (forall base key, base ∈ [15; 25; 20; 30] -> weights !! key = None ->
      bonus base (weights_get weights key) = Ok base)
  /\ (forall base w z, bonus base w = Ok z ->
      exists z', rounded_bonus base w = Ok z' /\ Z.abs z <= Z.abs z' <= Z.abs z + 1)
  /\ (forall config r,
        analyze_and_score env config weights (PyStr raw_text) = Ok r ->
        exists z, score_before_clamp env weights raw_text = Ok z
                  /\ score r = Z.min 100 z).
Proof.
  split; [apply score_before_clamp_sum|].
  split; [reflexivity|].
  split; [intros before sig after; apply first_signal_first|].
  split; [apply find_none_in|].
  split; [intros base key; apply bonus_default|].
  split; [intros base w z; apply to_int_round_int|].
  intros config r Hr.
  apply analyze_and_score_ok in Hr as (s & z & [= <-] & Hz & Hs & _).
  exists z. split; assumption.
Qed.

Lemma bonuses_are_truncated_products_witness :
  first_signal (lower "Supply TENDER") = Some "tender"
  /\ bonus 15 (weights_get {[ "signal_rfp" := f1_11 ]} "signal_tender") = Ok 15
  /\ exists z', rounded_bonus 30 f1_02 = Ok z' /\ 30 <= Z.abs z' <= 31.
Proof.
  pose proof (bonuses_are_truncated_products no_packages
                {[ "signal_rfp" := f1_11 ]} "Supply TENDER")
    as (_ & _ & Hfirst & _ & Hdefault & Hround & _).
  split; [|split].
  - apply (Hfirst [] "tender"
             ["rfp"; "rfi"; "contract"; "procurement"; "supply"; "requirement";
              "expansion"; "capacity"; "new plant"; "order"; "bid"; "purchase"]).
    + reflexivity.
    + vm_compute. reflexivity.
    + intros s Hs. inversion Hs.
  - apply Hdefault.
    + repeat constructor.
    + apply lookup_singleton_ne. discriminate.
  - apply (Hround 30 f1_02 30). vm_compute. reflexivity.
Defined.

(** Claim C1 as it is worded, with rounded products: the weight 1.02 for
    "industry_Marine" and the text "marine" give the score 30, the truncation
    of 30.6, where the rounded product is 31. *)
Lemma bonus_is_not_the_rounded_product :
  ~ (forall (env : Env) (weights : gmap string float) (raw_text : string),
       score_before_clamp env weights raw_text
       = score_with rounded_bonus env weights raw_text).
Proof.
  intros H.
  specialize (H no_packages {[ "industry_Marine" := f1_02 ]} "marine").
  vm_compute in H. discriminate H.
Qed.

(** *** Texts in which nothing is found *)

Lemma none_in_contains keywords text kw :
  none_in keywords text = true -> kw ∈ keywords -> contains kw text = false.
Proof.
  unfold none_in. rewrite forallb_forall. intros H Hin.
  apply list_elem_of_In in Hin. specialize (H kw Hin).
  destruct (contains kw text); [discriminate H | reflexivity].
Qed.

Lemma none_in_hits keywords text :
  none_in keywords text = true ->
  List.filter (fun kw => contains kw text) keywords = [].
Proof.
  induction keywords as [|k keywords IH]; cbn [none_in forallb List.filter];
    [reflexivity|].
  unfold none_in in *. cbn [forallb]. intros H.
  apply andb_true_iff in H as [Hk Hrest].
  destruct (contains k text); [discriminate Hk | exact (IH Hrest)].
Qed.


Lemma no_hits_in_catalog (catalog : list (string * list string)) text v :
  forallb (fun '(_, keywords) => none_in keywords text) catalog = true ->
  count_hits (dict_get catalog v []) text = 0.
Proof.
  induction catalog as [|[k kws] catalog IH]; cbn [forallb dict_get]; [reflexivity|].
  intros H. apply andb_true_iff in H as [Hk Hrest].
  destruct (String.eqb k v); [|exact (IH Hrest)].
  unfold count_hits. rewrite (none_in_hits _ _ Hk). reflexivity.
Qed.








End ScoringFacts.
Module FeedbackFacts.
Import Py PyFloat Nlp Extraction Config Db Scoring Feedback Spec.

(** *** Grouping the feedback rows *)

Lemma group_append_get ind outcome d k :
  dict_get (group_append ind outcome d) k []
  = if String.eqb ind k then dict_get d k [] ++ [outcome] else dict_get d k [].
Proof.
  induction d as [|[k0 os] d IH]; cbn [group_append dict_get].
  - destruct (String.eqb ind k); reflexivity.
  - destruct (String.eqb_spec k0 ind) as [-> | Hne]; cbn [dict_get].
    + destruct (String.eqb ind k); reflexivity.
    + destruct (String.eqb_spec k0 k) as [-> | Hne'].
      * destruct (String.eqb_spec ind k) as [-> | _]; [contradiction | reflexivity].
      * exact IH.
Qed.

Lemma group_append_keys ind outcome d :
  map fst (group_append ind outcome d)
  = if bool_decide (ind ∈ map fst d) then map fst d else map fst d ++ [ind].
Proof.
  induction d as [|[k0 os] d IH]; cbn [group_append map fst].
  - rewrite bool_decide_eq_false_2; [reflexivity | apply not_elem_of_nil].
  - destruct (String.eqb_spec k0 ind) as [-> | Hne]; cbn [map fst].
    + rewrite bool_decide_eq_true_2; [reflexivity | left].
    + rewrite IH. destruct (decide (ind ∈ map fst d)) as [Hin | Hnin].
      * rewrite !bool_decide_eq_true_2; [reflexivity | right; exact Hin | exact Hin].
      * rewrite !bool_decide_eq_false_2; [reflexivity | | exact Hnin].
        intros Hin. apply elem_of_cons in Hin as [-> | Hin]; contradiction.
Qed.

Lemma group_append_nodup ind outcome d :
  NoDup (map fst d) -> NoDup (map fst (group_append ind outcome d)).
Proof.
  intros Hd. rewrite group_append_keys.
  destruct (decide (ind ∈ map fst d)) as [Hin | Hnin].
  - rewrite bool_decide_eq_true_2 by exact Hin. exact Hd.
  - rewrite bool_decide_eq_false_2 by exact Hnin.
    apply NoDup_app. split; [exact Hd|]. split.
    + intros x Hx Hx'. apply list_elem_of_singleton in Hx'. subst. contradiction.
    + apply NoDup_singleton.
Qed.

Lemma grouped_get rows : forall d k,
  dict_get (grouped d rows) k [] = dict_get d k [] ++ outcomes_of k rows.
Proof.
  induction rows as [|r rows IH]; intros d k.
  - cbn. rewrite app_nil_r. reflexivity.
  - unfold grouped in *. cbn [foldl]. rewrite IH, group_append_get.
    unfold outcomes_of. cbn [List.filter].
    destruct (String.eqb (industry_of r) k); cbn [map];
      [rewrite <- app_assoc|]; reflexivity.
Qed.

Lemma grouped_nodup rows : forall d,
  NoDup (map fst d) -> NoDup (map fst (grouped d rows)).
Proof.
  induction rows as [|r rows IH]; intros d Hd; [exact Hd|].
  unfold grouped in *. cbn [foldl]. apply IH. apply group_append_nodup. exact Hd.
Qed.

Lemma grouped_keys rows : forall d k,
  k ∈ map fst (grouped d rows) <-> k ∈ map fst d \/ k ∈ map industry_of rows.
Proof.
  induction rows as [|r rows IH]; intros d k.
  - cbn. split; [auto | intros [H | H]; [exact H | inversion H]].
  - unfold grouped in *. cbn [foldl map]. rewrite IH, group_append_keys.
    destruct (decide (industry_of r ∈ map fst d)) as [Hin | Hnin].
    + rewrite bool_decide_eq_true_2 by exact Hin. rewrite elem_of_cons.
      split; [tauto|]. intros [H | [-> | H]]; auto.
    + rewrite bool_decide_eq_false_2 by exact Hnin.
      rewrite elem_of_app, list_elem_of_singleton, elem_of_cons. tauto.
Qed.

Lemma dict_get_elem {V} (d : list (string * V)) k v dflt :
  NoDup (map fst d) -> (k, v) ∈ d -> dict_get d k dflt = v.
Proof.
  induction d as [|[k0 v0] d IH]; intros Hnd Hin; [inversion Hin|].
  cbn [dict_get]. apply NoDup_cons in Hnd as [Hk0 Hnd].
  apply elem_of_cons in Hin as [[= -> ->] | Hin].
  - rewrite String.eqb_refl. reflexivity.
  - destruct (String.eqb_spec k0 k) as [-> | _]; [|exact (IH Hnd Hin)].
    exfalso. apply Hk0. apply list_elem_of_fmap. exists (k, v). split; [reflexivity | exact Hin].
Qed.

Lemma elem_key_value {V} (d : list (string * V)) k :
  k ∈ map fst d -> exists v, (k, v) ∈ d.
Proof.
  intros Hin. apply list_elem_of_fmap in Hin as [[k' v] [-> Hin]].
  exists v. exact Hin.
Qed.

(** *** Upserts *)

Lemma table_lookup_upsert_eq now key w table :
  exists r, table_lookup key (upsert now key w table) = Some r
            /\ industry_or_product r = key /\ weight_real r = w /\ updated_at r = now.
Proof.
  induction table as [|r0 table IH]; cbn [upsert].
  - unfold table_lookup. cbn [List.find industry_or_product].
    rewrite String.eqb_refl. eexists. split; [reflexivity|]. cbn. auto.
  - destruct (String.eqb_spec (industry_or_product r0) key) as [E | Hne].
    + unfold table_lookup. cbn [List.find industry_or_product].
      rewrite E, String.eqb_refl. eexists. split; [reflexivity|]. cbn. auto.
    + unfold table_lookup in *. cbn [List.find].
      destruct (String.eqb_spec (industry_or_product r0) key); [contradiction|].
      exact IH.
Qed.

Lemma table_lookup_upsert_ne now key key' w table :
  key <> key' ->
  table_lookup key' (upsert now key w table) = table_lookup key' table.
Proof.
  intros Hne. unfold table_lookup.
  induction table as [|r0 table IH]; cbn [upsert List.find industry_or_product].
  - destruct (String.eqb_spec key key'); [contradiction | reflexivity].
  - destruct (String.eqb_spec (industry_or_product r0) key) as [E | Hne0];
      cbn [List.find industry_or_product].
    + rewrite E. destruct (String.eqb_spec key key'); [contradiction | reflexivity].
    + rewrite IH. reflexivity.
Qed.

Lemma store_group_other now table k os key' :
  key' <> "industry_" +:+ k ->
  table_lookup key' (store_group now table (k, os)) = table_lookup key' table.
Proof.
  intros Hne. unfold store_group.
  destruct (length os =? 0)%nat; [reflexivity|].
  apply table_lookup_upsert_ne. congruence.
Qed.

Lemma store_groups_other now groups : forall table k,
  k ∉ map fst groups ->
  table_lookup ("industry_" +:+ k) (foldl (store_group now) table groups)
  = table_lookup ("industry_" +:+ k) table.
Proof.
  induction groups as [|[k0 os] groups IH]; intros table k Hk; [reflexivity|].
  cbn [foldl]. cbn [map fst] in Hk. apply not_elem_of_cons in Hk as [Hne Hk].
  rewrite (IH _ _ Hk). apply store_group_other.
  intros E. apply ScoringFacts.industry_key_inj in E. contradiction.
Qed.

(** After the loop, every group that has events has its weight stored. *)
Lemma store_groups_lookup now groups : forall table k os,
  NoDup (map fst groups) -> (k, os) ∈ groups -> os <> [] ->
  exists r, table_lookup ("industry_" +:+ k) (foldl (store_group now) table groups) = Some r
            /\ industry_or_product r = "industry_" +:+ k
            /\ weight_real r = group_weight os /\ updated_at r = now.
Proof.
  induction groups as [|[k0 os0] groups IH]; intros table k os Hnd Hin Hos;
    [inversion Hin|].
  cbn [map fst] in Hnd. apply NoDup_cons in Hnd as [Hk0 Hnd]. cbn [foldl].
  apply elem_of_cons in Hin as [[= -> ->] | Hin].
  - rewrite (store_groups_other _ _ _ _ Hk0). unfold store_group.
    destruct os0 as [|o os0]; [contradiction|]. cbn [length Nat.eqb].
    apply table_lookup_upsert_eq.
  - apply IH; assumption.
Qed.

Lemma outcomes_of_nonempty ind rows :
  ind ∈ map industry_of rows -> outcomes_of ind rows <> [].
Proof.
  induction rows as [|r rows IH]; intros Hin; [inversion Hin|].
  unfold outcomes_of. cbn [List.filter map] in *.
  destruct (String.eqb_spec (industry_of r) ind) as [E | Hne]; [discriminate|].
  apply elem_of_cons in Hin as [-> | Hin]; [contradiction | exact (IH Hin)].
Qed.

Lemma update_is_store now rows table :
  _update_weights_from_feedback now (Some rows) table
  = foldl (store_group now) table (grouped [] rows).
Proof. reflexivity. Qed.

Lemma grouped_elem rows ind :
  ind ∈ map industry_of rows -> (ind, outcomes_of ind rows) ∈ grouped [] rows.
Proof.
  intros Hin.
  assert (Hk : ind ∈ map fst (grouped [] rows)) by (apply grouped_keys; right; exact Hin).
  destruct (elem_key_value _ _ Hk) as [os Hos].
  pose proof (grouped_nodup rows [] (NoDup_nil_2)) as Hnd.
  pose proof (dict_get_elem _ _ _ [] Hnd Hos) as Hget.
  rewrite grouped_get in Hget. cbn [dict_get app] in Hget.
  rewrite Hget. exact Hos.
Qed.

Lemma update_lookup now rows table ind :
  ind ∈ map industry_of rows ->
  exists r,
    table_lookup ("industry_" +:+ ind)
      (_update_weights_from_feedback now (Some rows) table) = Some r
    /\ industry_or_product r = "industry_" +:+ ind
    /\ weight_real r = group_weight (outcomes_of ind rows)
    /\ updated_at r = now.
Proof.
  intros Hin. rewrite update_is_store.
  apply store_groups_lookup.
  - apply grouped_nodup. apply NoDup_nil_2.
  - apply grouped_elem. exact Hin.
  - apply outcomes_of_nonempty. exact Hin.
Qed.

(** Claim C4. The adapter groups the feedback events by the industry of
    their lead, with "Unknown" for a missing industry, and for every group,
    which has at least one event, stores under "industry_<name>" the weight
    [round(0.85 + 0.35 * (accepted / total), 2)], where [accepted] counts the
    outcomes Assigned, Accepted and Converted of the group and [total] all
    its events. Three Converted and one Rejected for Marine store the float
    1.11 under "industry_Marine". *)
Theorem adapter_stores_group_weight (now : Z) (rows : list feedback_row)
    (table : list weight_row) (ind : string) :
  ind ∈ map industry_of rows ->
  let outcomes := outcomes_of ind rows in
  let accepted := Z.of_nat (length (List.filter is_accepted outcomes)) in
  let total := Z.of_nat (length outcomes) in
  0 < total
  /\ (exists r,
        table_lookup ("industry_" +:+ ind)
          (_update_weights_from_feedback now (Some rows) table) = Some r
        /\ weight_real r = adapted_weight accepted total)
  /\ (forall products outcome,
        industry_of {| fb_industry := None; fb_product_recommendations := products;
                       fb_outcome := outcome |} = "Unknown")
  /\ (forall o, is_accepted o = true <->
                o = Some "Assigned" \/ o = Some "Accepted" \/ o = Some "Converted")
  /\ (exists r,
        table_lookup "industry_Marine"
          (_update_weights_from_feedback now
             (Some [feedback "Marine" "Converted"; feedback "Marine" "Rejected";
                    feedback "Marine" "Converted"; feedback "Marine" "Converted"])
             table) = Some r
        /\ weight_real r = f1_11).
Proof.
  intros Hin outcomes accepted total.
  split; [|split; [|split; [|split]]].
  - pose proof (outcomes_of_nonempty ind rows Hin) as Hne.
    subst total outcomes. destruct (outcomes_of ind rows); [contradiction|].
    cbn [length]. lia.
  - destruct (update_lookup now rows table ind Hin) as (r & Hr & _ & Hw & _).
    exists r. split; [exact Hr | exact Hw].
  - reflexivity.
  - intros [o|]; cbn [is_accepted].
    + rewrite !orb_true_iff, !String.eqb_eq. split.
      * intros [[-> | ->] | ->]; auto.
      * intros [[= ->] | [[= ->] | [= ->]]]; auto.
    + split; [discriminate | intros [H | [H | H]]; discriminate H].
  - destruct (update_lookup now
                [feedback "Marine" "Converted"; feedback "Marine" "Rejected";
                 feedback "Marine" "Converted"; feedback "Marine" "Converted"]
                table "Marine") as (r & Hr & _ & Hw & _).
    + left.
    + exists r. split; [exact Hr|]. rewrite Hw. vm_compute. reflexivity.
Qed.

Lemma adapter_stores_group_weight_witness :
  exists r,
    table_lookup "industry_Cement"
      (_update_weights_from_feedback 7
         (Some [feedback "Cement" "Accepted"; feedback "Marine" "New";
                feedback "Cement" "Rejected"])
         []) = Some r
    /\ weight_real r = f1_02.
Proof.
  destruct (adapter_stores_group_weight 7
              [feedback "Cement" "Accepted"; feedback "Marine" "New";
               feedback "Cement" "Rejected"] [] "Cement")
    as (_ & (r & Hr & Hw) & _).
  - left.
  - exists r. split; [exact Hr|]. rewrite Hw. vm_compute. reflexivity.
Defined.

(** *** Running the adapter twice *)

Lemma keys_upsert now key w table :
  keys (upsert now key w table)
  = if bool_decide (key ∈ keys table) then keys table else keys table ++ [key].
Proof.
  unfold keys. induction table as [|r0 table IH]; cbn [upsert map industry_or_product].
  - rewrite bool_decide_eq_false_2; [reflexivity | apply not_elem_of_nil].
  - destruct (String.eqb_spec (industry_or_product r0) key) as [E | Hne];
      cbn [map industry_or_product].
    + rewrite bool_decide_eq_true_2; [reflexivity | rewrite E; left].
    + rewrite IH. destruct (decide (key ∈ map industry_or_product table)) as [Hin | Hnin].
      * rewrite !bool_decide_eq_true_2; [reflexivity | right; exact Hin | exact Hin].
      * rewrite !bool_decide_eq_false_2; [reflexivity | | exact Hnin].
        intros Hin. apply elem_of_cons in Hin as [-> | Hin]; contradiction.
Qed.

Lemma upsert_nodup now key w table :
  NoDup (keys table) -> NoDup (keys (upsert now key w table)).
Proof.
  intros Hd. rewrite keys_upsert.
  destruct (decide (key ∈ keys table)) as [Hin | Hnin].
  - rewrite bool_decide_eq_true_2 by exact Hin. exact Hd.
  - rewrite bool_decide_eq_false_2 by exact Hnin.
    apply NoDup_app. split; [exact Hd|]. split.
    + intros x Hx Hx'. apply list_elem_of_singleton in Hx'. subst. contradiction.
    + apply NoDup_singleton.
Qed.

Lemma update_nodup now feedback table :
  NoDup (keys table) -> NoDup (keys (_update_weights_from_feedback now feedback table)).
Proof.
  destruct feedback as [rows|]; [|auto].
  rewrite update_is_store. generalize (grouped [] rows). intros groups. revert table.
  induction groups as [|[k os] groups IH]; intros table Hd; [exact Hd|].
  cbn [foldl]. apply IH. unfold store_group.
  destruct (length os =? 0)%nat; [exact Hd | apply upsert_nodup; exact Hd].
Qed.










End FeedbackFacts.
Module FloatFacts.
Import Py PyFloat Spec.

(** *** Rounding a quotient to the nearest integer *)

Lemma div_half_even_bounds n d :
  0 < d -> n / d <= div_half_even n d <= n / d + 1.
Proof.
  intros Hd. unfold div_half_even.
  destruct (2 * (n mod d) ?= d); [destruct (Z.even (n / d))| |]; lia.
Qed.

Lemma div_half_even_exact q d : 0 < d -> div_half_even (q * d) d = q.
Proof.
  intros Hd. unfold div_half_even.
  rewrite Z.mod_mul, Z.div_mul by lia.
  destruct (Z.compare_spec (2 * 0) d); [lia | reflexivity | lia].
Qed.

Lemma div_half_even_mono n1 n2 d :
  0 < d -> n1 <= n2 -> div_half_even n1 d <= div_half_even n2 d.
Proof.
  intros Hd Hn.
  pose proof (Z.div_le_mono n1 n2 d Hd Hn) as Hq.
  pose proof (div_half_even_bounds n1 d Hd) as B1.
  pose proof (div_half_even_bounds n2 d Hd) as B2.
  destruct (Z.eq_dec (n1 / d) (n2 / d)) as [E | NE]; [|lia].
  pose proof (Z.div_mod n1 d ltac:(lia)) as D1.
  pose proof (Z.div_mod n2 d ltac:(lia)) as D2.
  assert (Hr : n1 mod d <= n2 mod d) by (rewrite E in D1; lia).
  unfold div_half_even. rewrite E.
  destruct (Z.compare_spec (2 * (n1 mod d)) d);
    destruct (Z.compare_spec (2 * (n2 mod d)) d);
    destruct (Z.even (n2 / d)); lia.
Qed.

Lemma div_half_even_grid_le n y d : 0 < d -> n <= y * d -> div_half_even n d <= y.
Proof.
  intros Hd Hn. rewrite <- (div_half_even_exact y d Hd).
  apply div_half_even_mono; assumption.
Qed.

Lemma div_half_even_grid_ge n y d : 0 < d -> y * d <= n -> y <= div_half_even n d.
Proof.
  intros Hd Hn. rewrite <- (div_half_even_exact y d Hd).
  apply div_half_even_mono; assumption.
Qed.

Lemma div_half_even_scale n d c :
  0 < d -> 0 < c -> div_half_even (n * c) (d * c) = div_half_even n d.
Proof.
  intros Hd Hc. unfold div_half_even.
  rewrite Z.div_mul_cancel_r by lia.
  rewrite Z.mul_mod_distr_r by lia.
  destruct (Z.compare_spec (2 * (n mod d * c)) (d * c));
    destruct (Z.compare_spec (2 * (n mod d)) d); try reflexivity; nia.
Qed.

(** *** Rounding to binary64 is monotone *)

Lemma grid_exponent_nonneg x : 0 <= grid_exponent x.
Proof. unfold grid_exponent. lia. Qed.

Lemma round_scaled_mono x1 x2 :
  0 < x1 -> x1 <= x2 -> round_scaled x1 <= round_scaled x2.
Proof.
  intros Hx1 Hx.
  pose proof (Z.log2_le_mono x1 x2 Hx) as Hlog.
  pose proof (Z.log2_spec x1 Hx1) as [L1 U1].
  pose proof (Z.log2_spec x2 ltac:(lia)) as [L2 U2].
  pose proof (Z.log2_nonneg x1) as N1. pose proof (Z.log2_nonneg x2) as N2.
  unfold round_scaled.
  destruct (Z.eq_dec (grid_exponent x1) (grid_exponent x2)) as [E | NE].
  - rewrite E.
    assert (0 < 2 ^ grid_exponent x2)
      by (apply Z.pow_pos_nonneg; [lia | apply grid_exponent_nonneg]).
    apply Z.mul_le_mono_nonneg_r; [lia|].
    apply div_half_even_mono; assumption.
  - unfold grid_exponent in *.
    set (g1 := Z.max (Z.log2 x1 + 1 - 53) 0) in *.
    set (g2 := Z.max (Z.log2 x2 + 1 - 53) 0) in *.
    assert (Hg : g1 < g2) by lia.
    assert (Hg2 : g2 = Z.log2 x2 - 52) by lia.
    assert (Hl : Z.log2 x1 < Z.log2 x2) by lia.
    assert (HG1 : 0 < 2 ^ g1) by (apply Z.pow_pos_nonneg; lia).
    assert (HG2 : 0 < 2 ^ g2) by (apply Z.pow_pos_nonneg; lia).
    assert (HP1 : 2 ^ Z.log2 x2 = 2 ^ (Z.log2 x2 - g1) * 2 ^ g1)
      by (rewrite <- Z.pow_add_r by lia; f_equal; lia).
    assert (HP2 : 2 ^ Z.log2 x2 = 2 ^ 52 * 2 ^ g2)
      by (rewrite <- Z.pow_add_r by lia; f_equal; lia).
    assert (Hx1P : x1 <= 2 ^ Z.log2 x2).
    { apply Z.lt_le_incl. eapply Z.lt_le_trans; [exact U1|].
      apply Z.pow_le_mono_r; lia. }
    assert (A : div_half_even x1 (2 ^ g1) <= 2 ^ (Z.log2 x2 - g1))
      by (apply div_half_even_grid_le; [exact HG1 | rewrite <- HP1; exact Hx1P]).
    assert (B : 2 ^ 52 <= div_half_even x2 (2 ^ g2))
      by (apply div_half_even_grid_ge; [exact HG2 | rewrite <- HP2; exact L2]).
    apply Z.le_trans with (2 ^ Z.log2 x2).
    + rewrite HP1. apply Z.mul_le_mono_nonneg_r; lia.
    + rewrite HP2. apply Z.mul_le_mono_nonneg_r; lia.
Qed.

(** *** Right shifts *)

Lemma shifted_start m : shifted m 0 {| shr_m := m; shr_r := false; shr_s := false |}.
Proof.
  unfold shifted. cbn [shr_m shr_r shr_s Z.b2z]. split.
  - rewrite Z.pow_0_r, Z.div_1_r. reflexivity.
  - exists 0. rewrite Z.pow_0_r, Z.mod_1_r. split; [lia|]. split; [lia|].
    split; [discriminate | lia].
Qed.

Lemma shr_1_shifted m k mrs :
  0 <= m -> 0 <= k -> shifted m k mrs -> shifted m (k + 1) (shr_1 mrs).
Proof.
  intros Hm Hk [Hq (t & Ht & Hbound & Hs)].
  destruct mrs as [m' r s]. cbn [shr_m shr_r shr_s] in *.
  assert (HP : 0 < 2 ^ k) by (apply Z.pow_pos_nonneg; lia).
  assert (Hm' : 0 <= m') by (subst m'; apply Z.div_pos; lia).
  assert (Hpow : 2 ^ (k + 1) = 2 ^ k * 2) by (rewrite Z.pow_add_r by lia; reflexivity).
  assert (Hdiv : m / 2 ^ (k + 1) = m' / 2)
    by (rewrite Hpow, <- Z.div_div by lia; subst m'; reflexivity).
  assert (Hmod : m mod 2 ^ (k + 1) = m mod 2 ^ k + 2 ^ k * (m' mod 2))
    by (rewrite Hpow, Z.rem_mul_r by lia; subst m'; reflexivity).
  assert (Hcase : exists r', shr_1 {| shr_m := m'; shr_r := r; shr_s := s |}
                     = {| shr_m := m' / 2; shr_r := r'; shr_s := r || s |}
                     /\ m' mod 2 = Z.b2z r').
  { destruct m' as [|[p|p|]|p]; cbn [shr_1]; try lia.
    - exists false. split; reflexivity.
    - exists true. split; [f_equal | ].
      + rewrite Pos2Z.inj_xI. apply (Z.div_unique _ 2 _ 1); lia.
      + rewrite Pos2Z.inj_xI. symmetry. apply (Z.mod_unique _ 2 (Z.pos p) 1); lia.
    - exists false. split; [f_equal | ].
      + rewrite Pos2Z.inj_xO. apply (Z.div_unique _ 2 _ 0); lia.
      + rewrite Pos2Z.inj_xO. symmetry. apply (Z.mod_unique _ 2 (Z.pos p) 0); lia.
    - exists true. split; reflexivity. }
  destruct Hcase as (r' & -> & Hr').
  unfold shifted. cbn [shr_m shr_r shr_s]. split; [symmetry; exact Hdiv|].
  exists (Z.b2z r * 2 ^ k + t).
  rewrite Hmod, Hr', Hpow.
  split; [lia|]. split.
  - destruct r; cbn [Z.b2z]; lia.
  - rewrite orb_true_iff. destruct r; cbn [Z.b2z].
    + split; [lia | auto].
    + split; [intros [H | H]; [discriminate | apply Hs in H; lia]
             | intros H; right; apply Hs; lia].
Qed.

Lemma iter_pos_shifted m p : forall k mrs,
  0 <= m -> 0 <= k -> shifted m k mrs ->
  shifted m (k + Z.pos p) (SpecFloat.iter_pos shr_1 p mrs).
Proof.
  induction p as [p IH | p IH |]; intros k mrs Hm Hk H; cbn [SpecFloat.iter_pos].
  - replace (k + Z.pos p~1) with (k + 1 + Z.pos p + Z.pos p) by lia.
    apply IH; [lia | lia |]. apply IH; [lia | lia |].
    apply shr_1_shifted; assumption.
  - replace (k + Z.pos p~0) with (k + Z.pos p + Z.pos p) by lia.
    apply IH; [lia | lia |]. apply IH; assumption.
  - apply shr_1_shifted; assumption.
Qed.

(** Rounding a shifted mantissa with its round and sticky bits is rounding
    the quotient to the nearest integer, ties to even. *)
Lemma round_shifted m k mrs :
  0 <= k -> shifted m k mrs ->
  round_nearest_even (shr_m mrs) (loc_of_shr_record mrs) = div_half_even m (2 ^ k).
Proof.
  intros Hk [Hq (t & Ht & Hbound & Hs)].
  destruct mrs as [m' r s]. cbn [shr_m shr_r shr_s] in *.
  unfold div_half_even. rewrite <- Hq, Ht.
  destruct r, s; cbn [loc_of_shr_record round_nearest_even Z.b2z].
  - assert (0 < t) by (apply Hs; reflexivity).
    destruct (Z.compare_spec (1 * 2 ^ k + t) (2 ^ k)); [lia | lia | reflexivity].
  - assert (t = 0) by (destruct (Z.lt_ge_cases 0 t) as [H | H];
                       [apply Hs in H; discriminate | lia]).
    destruct (Z.compare_spec (1 * 2 ^ k + t) (2 ^ k)); [reflexivity | lia | lia].
  - destruct (Z.compare_spec (0 * 2 ^ k + t) (2 ^ k)); [lia | reflexivity | lia].
  - destruct (Z.compare_spec (0 * 2 ^ k + t) (2 ^ k)); [lia | reflexivity | lia].
Qed.

(** *** The shape of a rounded product *)

Lemma digits2_size p : digits2_pos p = Pos.size p.
Proof. induction p as [p IH | p IH |]; cbn; rewrite ?IH; reflexivity. Qed.

Lemma digits2_log2 p : Z.pos (digits2_pos p) = Z.log2 (Z.pos p) + 1.
Proof.
  rewrite digits2_size. destruct p; cbn [Z.log2 Pos.size]; lia.
Qed.

Lemma fexp_max x : fexp prec emax x = Z.max (x - 53) (-1074).
Proof. reflexivity. Qed.

Lemma pow2_gt_0 k : 0 <= k -> 0 < 2 ^ k.
Proof. intros. apply Z.pow_pos_nonneg; lia. Qed.

Lemma pos_lt_pow_digits p : Z.pos p < 2 ^ Z.pos (digits2_pos p).
Proof.
  rewrite digits2_log2. pose proof (Z.log2_spec (Z.pos p) ltac:(lia)) as [_ H].
  exact H.
Qed.

Lemma shr_shifted m e n :
  0 <= m ->
  shifted m (Z.max n 0) (shr {| shr_m := m; shr_r := false; shr_s := false |} e n).1
  /\ (shr {| shr_m := m; shr_r := false; shr_s := false |} e n).2 = e + Z.max n 0.
Proof.
  intros Hm. destruct n as [|p|p]; cbn [shr fst snd].
  - split; [apply shifted_start | lia].
  - split; [|lia]. rewrite Z.max_l by lia.
    apply (iter_pos_shifted m p 0); [lia | lia | apply shifted_start].
  - split; [apply shifted_start | lia].
Qed.

Lemma div_half_even_1 m : div_half_even m 1 = m.
Proof. rewrite <- (Z.mul_1_r m) at 1. apply div_half_even_exact. lia. Qed.

Lemma Zdigits2_nonneg_log2 m : 0 < m -> Zdigits2 m = Z.log2 m + 1.
Proof. destruct m as [|p|p]; try lia. intros _. apply digits2_log2. Qed.

(** The first shift and the rounding: the rounded mantissa and its
    exponent stand for the scaled product rounded on its grid. *)
Lemma first_round M E :
  -1074 <= E ->
  let n := Z.max (fexp prec emax (Z.pos (digits2_pos M) + E) - E) 0 in
  let m1 := div_half_even (Z.pos M) (2 ^ n) in
  scaled m1 (E + n) = round_scaled (scaled (Z.pos M) E)
  /\ 0 <= m1 /\ -1074 <= E + n
  /\ (fexp prec emax (Zdigits2 m1 + (E + n)) - (E + n) <= 0
      \/ (fexp prec emax (Zdigits2 m1 + (E + n)) - (E + n) = 1 /\ m1 = 2 ^ 53)).
Proof.
  intros HE. cbv zeta.
  pose proof (digits2_log2 M) as Hd.
  set (d := Z.pos (digits2_pos M)) in *.
  rewrite (fexp_max (d + E)).
  set (n := Z.max (Z.max (d + E - 53) (-1074) - E) 0).
  set (m1 := div_half_even (Z.pos M) (2 ^ n)).
  rewrite !fexp_max.
  pose proof (Z.log2_nonneg (Z.pos M)) as Hlog.
  assert (Hn : 0 <= n) by (subst n; lia).
  assert (HPn : 0 < 2 ^ n) by (apply pow2_gt_0; exact Hn).
  assert (HPe : 0 < 2 ^ (E + 1074)) by (apply pow2_gt_0; lia).
  assert (Hm1 : 0 <= m1).
  { subst m1. pose proof (div_half_even_bounds (Z.pos M) (2 ^ n) HPn).
    assert (0 <= Z.pos M / 2 ^ n) by (apply Z.div_pos; lia). lia. }
  assert (Hgrid : grid_exponent (scaled (Z.pos M) E) = Z.max (d + E - 53) (-1074) + 1074).
  { unfold grid_exponent, scaled. rewrite Z.log2_mul_pow2 by lia. lia. }
  assert (Hround : scaled m1 (E + n) = round_scaled (scaled (Z.pos M) E)).
  { unfold round_scaled. rewrite Hgrid.
    destruct (Z.le_gt_cases (Z.max (d + E - 53) (-1074) - E) 0) as [Hle | Hgt].
    - assert (n = 0) by (subst n; lia).
      subst m1. replace n with 0 by lia. rewrite Z.pow_0_r, div_half_even_1, Z.add_0_r.
      set (g := Z.max (d + E - 53) (-1074) + 1074).
      assert (Hsplit : scaled (Z.pos M) E = Z.pos M * 2 ^ (E + 1074 - g) * 2 ^ g).
      { unfold scaled. rewrite <- Z.mul_assoc, <- Z.pow_add_r by (subst g; lia).
        f_equal. f_equal. lia. }
      rewrite Hsplit at 2. rewrite div_half_even_exact by (apply pow2_gt_0; subst g; lia).
      first [exact Hsplit | symmetry; exact Hsplit].
    - assert (Hn' : n = Z.max (d + E - 53) (-1074) - E) by (subst n; lia).
      replace (Z.max (d + E - 53) (-1074) + 1074) with (n + (E + 1074)) by lia.
      rewrite Z.pow_add_r by lia.
      unfold scaled at 2. rewrite div_half_even_scale by assumption.
      unfold scaled. fold m1. replace (E + n + 1074) with (n + (E + 1074)) by lia.
      rewrite Z.pow_add_r by lia. reflexivity. }
  split; [exact Hround|]. split; [exact Hm1|]. split; [lia|].
  destruct (Z.le_gt_cases (Z.max (d + E - 53) (-1074) - E) 0) as [Hle | Hgt].
  - left. assert (n = 0) by (subst n; lia).
    subst m1. replace n with 0 by lia. rewrite Z.pow_0_r, div_half_even_1, Z.add_0_r.
    cbn [Zdigits2]. fold d. lia.
  - assert (Hn' : n = Z.max (d + E - 53) (-1074) - E) by (subst n; lia).
    assert (Hbound : m1 <= 2 ^ 53).
    { subst m1. pose proof (div_half_even_bounds (Z.pos M) (2 ^ n) HPn) as [_ Hup].
      assert (Z.pos M / 2 ^ n < 2 ^ 53); [|lia].
      apply Z.div_lt_upper_bound; [exact HPn|].
      rewrite <- Z.pow_add_r by lia.
      eapply Z.lt_le_trans; [apply (pos_lt_pow_digits M)|].
      apply Z.pow_le_mono_r; [lia|]. fold d. lia. }
    destruct (Z.eq_dec m1 0) as [E0 | NE0].
    + left. rewrite E0. cbn [Zdigits2]. lia.
    + rewrite Zdigits2_nonneg_log2 by lia.
      destruct (Z.eq_dec m1 (2 ^ 53)) as [E53 | NE53].
      * right. split; [|exact E53]. rewrite E53, Z.log2_pow2 by lia. lia.
      * left. assert (Z.log2 m1 < 53) by (apply Z.log2_lt_pow2; lia). lia.
Qed.

(** A product of positive mantissas, rounded: the result is not a NaN, and
    unless it is an infinity its scaled value is the scaled product rounded
    on its grid. *)
Lemma round_aux_scaled s M E :
  -1074 <= E ->
  finite_result (binary_round_aux prec emax s (Z.pos M) E loc_Exact)
    (round_scaled (scaled (Z.pos M) E)).
Proof.
  intros HE.
  destruct (first_round M E HE) as (Hround & Hm1 & He1 & Hsecond).
  unfold binary_round_aux, shr_fexp. cbn [shr_record_of_loc Zdigits2].
  set (n0 := fexp prec emax (Z.pos (digits2_pos M) + E) - E) in *.
  destruct (shr_shifted (Z.pos M) E n0 ltac:(lia)) as [Hsh He].
  destruct (shr {| shr_m := Z.pos M; shr_r := false; shr_s := false |} E n0)
    as [mrs' e']. cbn [fst snd] in Hsh, He.
  rewrite (round_shifted (Z.pos M) (Z.max n0 0) mrs' ltac:(lia) Hsh).
  subst e'.
  set (n := Z.max n0 0) in *.
  set (m1 := div_half_even (Z.pos M) (2 ^ n)) in *.
  set (n2 := fexp prec emax (Zdigits2 m1 + (E + n)) - (E + n)) in *.
  destruct (shr_shifted m1 (E + n) n2 Hm1) as [Hsh2 He2].
  destruct (shr {| shr_m := m1; shr_r := false; shr_s := false |} (E + n) n2)
    as [mrs'' e'']. cbn [fst snd] in Hsh2, He2.
  destruct Hsh2 as [Hq _].
  assert (Hexact : m1 = shr_m mrs'' * 2 ^ Z.max n2 0).
  { rewrite Hq. destruct Hsecond as [Hle | [H1 H53]].
    - rewrite Z.max_r by lia. rewrite Z.pow_0_r, Z.div_1_r. lia.
    - rewrite H1, H53. reflexivity. }
  assert (Hn2 : 0 <= Z.max n2 0) by lia.
  assert (Hval : scaled (shr_m mrs'') e'' = round_scaled (scaled (Z.pos M) E)).
  { rewrite <- Hround. unfold scaled. rewrite He2.
    replace (E + n + Z.max n2 0 + 1074) with (Z.max n2 0 + (E + n + 1074)) by lia.
    rewrite Z.pow_add_r by lia. rewrite Z.mul_assoc, <- Hexact. reflexivity. }
  assert (Hnonneg : 0 <= shr_m mrs'').
  { rewrite Hq. apply Z.div_pos; [exact Hm1 | apply pow2_gt_0; exact Hn2]. }
  destruct (shr_m mrs'') as [|mf|mf] eqn:Em.
  - cbn [finite_result]. rewrite <- Hval. reflexivity.
  - destruct (e'' <=? emax - prec); cbn [finite_result]; [|exact I].
    split; [lia | exact Hval].
  - lia.
Qed.

(** A product whose exponent is at most 900 and whose mantissa has at most
    60 bits does not round to an infinity. *)
Lemma round_aux_no_overflow s M E :
  -1074 <= E -> E <= 900 -> Z.pos (digits2_pos M) <= 60 ->
  forall s', binary_round_aux prec emax s (Z.pos M) E loc_Exact <> S754_infinity s'.
Proof.
  intros HE Hup Hd s'.
  destruct (first_round M E HE) as (_ & Hm1 & _ & Hsecond).
  unfold binary_round_aux, shr_fexp. cbn [shr_record_of_loc Zdigits2].
  rewrite (fexp_max (Z.pos (digits2_pos M) + E)) in *.
  set (n0 := Z.max (Z.pos (digits2_pos M) + E - 53) (-1074) - E) in *.
  destruct (shr_shifted (Z.pos M) E n0 ltac:(lia)) as [Hsh He].
  destruct (shr {| shr_m := Z.pos M; shr_r := false; shr_s := false |} E n0)
    as [mrs' e']. cbn [fst snd] in Hsh, He.
  rewrite (round_shifted (Z.pos M) (Z.max n0 0) mrs' ltac:(lia) Hsh).
  subst e'.
  set (n := Z.max n0 0) in *.
  set (m1 := div_half_even (Z.pos M) (2 ^ n)) in *.
  set (n2 := fexp prec emax (Zdigits2 m1 + (E + n)) - (E + n)) in *.
  destruct (shr_shifted m1 (E + n) n2 Hm1) as [_ He2].
  destruct (shr {| shr_m := m1; shr_r := false; shr_s := false |} (E + n) n2)
    as [mrs'' e'']. cbn [fst snd] in He2.
  assert (He'' : e'' <= 971) by (subst n n0; lia).
  destruct (shr_m mrs''); [discriminate | | discriminate].
  change (emax - prec) with 971.
  destruct (Z.leb_spec e'' 971); [discriminate | lia].
Qed.

End FloatFacts.
Module MonotonicityFacts.
Import Py PyFloat Nlp Extraction Config Db Scoring Feedback Spec.

(** *** The points of a bonus as a scaled integer *)

Lemma shiftl_scaled m e :
  -1074 <= e -> Z.shiftl m e = scaled m e / 2 ^ 1074.
Proof.
  intros He. unfold scaled.
  destruct (Z.le_gt_cases 0 e) as [Hpos | Hneg].
  - rewrite Z.shiftl_mul_pow2 by lia.
    rewrite Z.pow_add_r by lia. rewrite Z.mul_assoc, Z.div_mul by lia. reflexivity.
  - rewrite Z.shiftl_div_pow2 by lia.
    replace (2 ^ 1074) with (2 ^ (- e) * 2 ^ (e + 1074))
      by (rewrite <- Z.pow_add_r by lia; f_equal; lia).
    rewrite Z.div_mul_cancel_r; [reflexivity | |];
      apply Z.pow_nonzero; lia.
Qed.

Lemma round_scaled_nonneg x : 0 <= x -> 0 <= round_scaled x.
Proof.
  intros Hx. unfold round_scaled.
  assert (HG : 0 < 2 ^ grid_exponent x)
    by (apply FloatFacts.pow2_gt_0; apply FloatFacts.grid_exponent_nonneg).
  pose proof (FloatFacts.div_half_even_bounds x _ HG) as [Hlow _].
  assert (0 <= x / 2 ^ grid_exponent x) by (apply Z.div_pos; lia).
  apply Z.mul_nonneg_nonneg; lia.
Qed.

Lemma scaled_mul b m e : scaled (Z.pos (b * m)) e = Z.pos b * scaled (Z.pos m) e.
Proof. unfold scaled. rewrite Pos2Z.inj_mul. lia. Qed.

Lemma scaled_pos m e : -1074 <= e -> 0 < scaled (Z.pos m) e.
Proof.
  intros He. unfold scaled. apply Z.mul_pos_pos; [lia|].
  apply FloatFacts.pow2_gt_0. lia.
Qed.

(** [int(base * w)] for a finite weight: the scaled product, rounded on its
    grid, divided by [2^1074], with the sign of the weight. *)
Lemma bonus_value b s m e z :
  -1074 <= e ->
  bonus (Z.pos b) (S754_finite s m e) = Ok z ->
  z = cond_Zopp s (round_scaled (Z.pos b * scaled (Z.pos m) e) / 2 ^ 1074).
Proof.
  intros He. unfold bonus, mul. cbn [of_int SFmul xorb].
  change (0 + e) with e.
  pose proof (FloatFacts.round_aux_scaled s (b * m) e He) as Hval.
  pose proof (ScoringFacts.binary_round_aux_sign s (Z.pos (b * m)) e loc_Exact) as Hsign.
  rewrite scaled_mul in Hval.
  destruct (binary_round_aux prec emax s (Z.pos (b * m)) e loc_Exact)
    as [s'|s'| |s' mf ef]; cbn [to_int finite_result] in *; try discriminate.
  - intros [= <-]. rewrite Hval. destruct s; reflexivity.
  - intros [= <-]. destruct Hval as [Hef Hval]. subst s'.
    rewrite shiftl_scaled, Hval by exact Hef. reflexivity.
Qed.

(** *** Valid floats and their order *)

Lemma valid_finite s m e :
  valid (S754_finite s m e) = true ->
  -1074 <= e /\ Z.pos (digits2_pos m) <= 53
  /\ (-1074 < e -> Z.pos (digits2_pos m) = 53).
Proof.
  unfold valid, valid_binary, bounded, canonical_mantissa. rewrite FloatFacts.fexp_max.
  intros H. apply andb_true_iff in H as [H _]. apply Z.eqb_eq in H. lia.
Qed.

Lemma pos_ge_pow_digits m : 2 ^ (Z.pos (digits2_pos m) - 1) <= Z.pos m.
Proof.
  rewrite FloatFacts.digits2_log2.
  pose proof (Z.log2_spec (Z.pos m) ltac:(lia)) as [H _].
  replace (Z.log2 (Z.pos m) + 1 - 1) with (Z.log2 (Z.pos m)) by lia. exact H.
Qed.

(** Between valid floats of the same sign the comparison of exponents, then
    of mantissas, is the comparison of the values. *)
Lemma valid_lt_exponent s m e s' m' e' :
  valid (S754_finite s m e) = true -> valid (S754_finite s' m' e') = true ->
  e < e' -> scaled (Z.pos m) e <= scaled (Z.pos m') e'.
Proof.
  intros Hv Hv' Hlt.
  apply valid_finite in Hv as (He & Hd & _).
  apply valid_finite in Hv' as (He' & _ & Hd'). specialize (Hd' ltac:(lia)).
  pose proof (FloatFacts.pos_lt_pow_digits m) as Hup.
  pose proof (pos_ge_pow_digits m') as Hlow. rewrite Hd' in Hlow.
  assert (Hm : Z.pos m < 2 ^ 53).
  { eapply Z.lt_le_trans; [exact Hup|]. apply Z.pow_le_mono_r; lia. }
  unfold scaled.
  assert (HP : 0 < 2 ^ (e + 1074)) by (apply FloatFacts.pow2_gt_0; lia).
  assert (Hpow : 2 ^ (e' + 1074) = 2 ^ (e' - e - 1) * (2 * 2 ^ (e + 1074))).
  { rewrite <- Z.pow_succ_r by lia. rewrite <- Z.pow_add_r by lia. f_equal. lia. }
  rewrite Hpow.
  assert (1 <= 2 ^ (e' - e - 1)) by (pose proof (FloatFacts.pow2_gt_0 (e' - e - 1)); lia).
  change (2 ^ (53 - 1)) with 4503599627370496 in Hlow.
  change (2 ^ 53) with 9007199254740992 in Hm.
  set (P := 2 ^ (e + 1074)) in *. set (Q := 2 ^ (e' - e - 1)) in *.
  assert (Z.pos m * P <= 4503599627370496 * (2 * P)) by nia.
  assert (4503599627370496 * (2 * P) <= Z.pos m' * (2 * P)) by nia.
  assert (Z.pos m' * (2 * P) <= Z.pos m' * (Q * (2 * P))) by nia.
  lia.
Qed.

Lemma leb_positive m e m' e' :
  valid (S754_finite false m e) = true -> valid (S754_finite false m' e') = true ->
  leb (S754_finite false m e) (S754_finite false m' e') = true ->
  scaled (Z.pos m) e <= scaled (Z.pos m') e'.
Proof.
  intros Hv Hv'. unfold leb, SFleb. cbn [SFcompare].
  destruct (Z.compare_spec e e') as [-> | Hlt | Hgt].
  - change (Pos.compare_cont Eq m m') with (Pos.compare m m').
    destruct (Pos.compare_spec m m'); try discriminate; intros _.
    + subst. lia.
    + unfold scaled. apply Z.mul_le_mono_nonneg_r; [|lia].
      apply Z.pow_nonneg. lia.
  - intros _. exact (valid_lt_exponent _ _ _ _ _ _ Hv Hv' Hlt).
  - discriminate.
Qed.

Lemma leb_negative m e m' e' :
  valid (S754_finite true m e) = true -> valid (S754_finite true m' e') = true ->
  leb (S754_finite true m e) (S754_finite true m' e') = true ->
  scaled (Z.pos m') e' <= scaled (Z.pos m) e.
Proof.
  intros Hv Hv'. unfold leb, SFleb. cbn [SFcompare].
  destruct (Z.compare_spec e e') as [-> | Hlt | Hgt].
  - change (Pos.compare_cont Eq m m') with (Pos.compare m m').
    destruct (Pos.compare_spec m m'); cbn [CompOpp]; try discriminate; intros _.
    + subst. lia.
    + unfold scaled. apply Z.mul_le_mono_nonneg_r; [|lia].
      apply Z.pow_nonneg. lia.
  - discriminate.
  - intros _. exact (valid_lt_exponent _ _ _ _ _ _ Hv' Hv Hgt).
Qed.

(** The magnitude of a bonus grows with the magnitude of the weight. *)
Lemma magnitude_mono b m e m' e' :
  -1074 <= e -> scaled (Z.pos m) e <= scaled (Z.pos m') e' ->
  round_scaled (Z.pos b * scaled (Z.pos m) e) / 2 ^ 1074
  <= round_scaled (Z.pos b * scaled (Z.pos m') e') / 2 ^ 1074.
Proof.
  intros He Hle. pose proof (scaled_pos m e He) as Hpos.
  apply Z.div_le_mono; [apply FloatFacts.pow2_gt_0; lia|].
  apply FloatFacts.round_scaled_mono; nia.
Qed.

Lemma magnitude_nonneg b m e :
  -1074 <= e -> 0 <= round_scaled (Z.pos b * scaled (Z.pos m) e) / 2 ^ 1074.
Proof.
  intros He. pose proof (scaled_pos m e He).
  apply Z.div_pos; [|apply FloatFacts.pow2_gt_0; lia].
  apply round_scaled_nonneg. nia.
Qed.

Lemma bonus_zero b s : bonus (Z.pos b) (S754_zero s) = Ok 0.
Proof. reflexivity. Qed.

(** [int(base * w)] grows with the weight. *)
Lemma bonus_mono b w w' z z' :
  valid w = true -> valid w' = true -> leb w w' = true ->
  bonus (Z.pos b) w = Ok z -> bonus (Z.pos b) w' = Ok z' -> z <= z'.
Proof.
  intros Hv Hv' Hle Hz Hz'.
  destruct w as [s|s| |s m e]; try discriminate Hz;
  destruct w' as [s'|s'| |s' m' e']; try discriminate Hz'.
  - rewrite bonus_zero in Hz, Hz'. injection Hz as <-. injection Hz' as <-. lia.
  - rewrite bonus_zero in Hz. injection Hz as <-.
    destruct (valid_finite _ _ _ Hv') as (He' & _).
    rewrite (bonus_value _ _ _ _ _ He' Hz').
    destruct s'; [discriminate Hle|]. apply magnitude_nonneg. exact He'.
  - rewrite bonus_zero in Hz'. injection Hz' as <-.
    destruct (valid_finite _ _ _ Hv) as (He & _).
    rewrite (bonus_value _ _ _ _ _ He Hz).
    destruct s; [|discriminate Hle]. cbn [cond_Zopp].
    pose proof (magnitude_nonneg b m e He). lia.
  - destruct (valid_finite _ _ _ Hv) as (He & _).
    destruct (valid_finite _ _ _ Hv') as (He' & _).
    rewrite (bonus_value _ _ _ _ _ He Hz), (bonus_value _ _ _ _ _ He' Hz').
    pose proof (magnitude_nonneg b m e He).
    pose proof (magnitude_nonneg b m' e' He').
    destruct s, s'; cbn [cond_Zopp].
    + pose proof (leb_negative _ _ _ _ Hv Hv' Hle) as Hs.
      pose proof (magnitude_mono b m' e' m e He' Hs). lia.
    + lia.
    + discriminate Hle.
    + pose proof (leb_positive _ _ _ _ Hv Hv' Hle) as Hs.
      exact (magnitude_mono b m e m' e' He Hs).
Qed.

(** A moderate weight times a base below 32 is finite, so [int] returns. *)
Lemma bonus_moderate b w :
  Z.pos b < 32 -> valid w = true -> moderate w = true ->
  exists z, bonus (Z.pos b) w = Ok z.
Proof.
  intros Hb Hv Hmod.
  destruct w as [s|s| |s m e]; try discriminate Hmod.
  - exists 0. reflexivity.
  - cbn [moderate] in Hmod. apply Z.leb_le in Hmod.
    destruct (valid_finite _ _ _ Hv) as (He & Hd & _).
    unfold bonus, mul. cbn [of_int SFmul xorb]. change (0 + e) with e.
    assert (Hdigits : Z.pos (digits2_pos (b * m)) <= 60).
    { rewrite FloatFacts.digits2_log2 in *. rewrite Pos2Z.inj_mul.
      pose proof (Z.log2_mul_above (Z.pos b) (Z.pos m) ltac:(lia) ltac:(lia)).
      assert (Z.log2 (Z.pos b) < 5) by (apply Z.log2_lt_pow2; [lia | exact Hb]).
      lia. }
    pose proof (FloatFacts.round_aux_no_overflow s (b * m) e He Hmod Hdigits) as Hfin.
    pose proof (FloatFacts.round_aux_scaled s (b * m) e He) as Hval.
    destruct (binary_round_aux prec emax s (Z.pos (b * m)) e loc_Exact)
      as [s'|s'| |s' mf ef]; cbn [to_int finite_result] in *.
    + eexists. reflexivity.
    + exfalso. exact (Hfin s' eq_refl).
    + contradiction.
    + eexists. reflexivity.
Qed.

(** *** One weight replaced by a larger one *)

Lemma weights_get_insert (weights : gmap string float) key w' k :
  weights_get (<[key := w']> weights) k
  = if decide (key = k) then w' else weights_get weights k.
Proof.
  unfold weights_get. destruct (decide (key = k)) as [-> | Hne].
  - rewrite lookup_insert_eq. reflexivity.
  - rewrite lookup_insert_ne by exact Hne. reflexivity.
Qed.

Section OneWeight.
Context (weights : gmap string float) (key : string) (w' : float).
Hypothesis Hvalid : valid (weights_get weights key) = true.
Hypothesis Hvalid' : valid w' = true.
Hypothesis Hle : leb (weights_get weights key) w' = true.

Lemma bonus_key_mono b k z z' :
  bonus (Z.pos b) (weights_get weights k) = Ok z ->
  bonus (Z.pos b) (weights_get (<[key := w']> weights) k) = Ok z' ->
  z <= z'.
Proof.
  rewrite weights_get_insert. destruct (decide (key = k)) as [<- | Hne].
  - apply bonus_mono; assumption.
  - intros -> [= <-]. lia.
Qed.

Lemma bonus_key_returns b k z :
  Z.pos b < 32 -> moderate w' = true ->
  bonus (Z.pos b) (weights_get weights k) = Ok z ->
  exists z', bonus (Z.pos b) (weights_get (<[key := w']> weights) k) = Ok z'.
Proof.
  intros Hb Hmod Hz. rewrite weights_get_insert.
  destruct (decide (key = k)) as [<- | Hne].
  - apply bonus_moderate; assumption.
  - exists z. exact Hz.
Qed.

Ltac split_cases :=
  unfold bonus_total, mbind, result_bind, Py.bind;
  repeat match goal with
         | |- context [match first_signal ?t with Some _ => _ | None => _ end] =>
             destruct (first_signal t)
         | |- context [if ?c then _ else _] => destruct c
         end.

Lemma bonus_total_mono text industry z z' :
  bonus_total bonus weights text industry = Ok z ->
  bonus_total bonus (<[key := w']> weights) text industry = Ok z' ->
  z <= z'.
Proof.
  split_cases;
  repeat match goal with
         | |- context [bonus (Z.pos ?b) (weights_get ?w ?k)] =>
             let E := fresh "E" in
             destruct (bonus (Z.pos b) (weights_get w k)) eqn:E; try discriminate
         end;
  intros [= <-] [= <-];
  repeat match goal with
         | E : bonus (Z.pos ?b) (weights_get weights ?k) = Ok ?a,
           E' : bonus (Z.pos ?b) (weights_get (<[key := w']> weights) ?k) = Ok ?a' |- _ =>
             pose proof (bonus_key_mono b k a a' E E'); clear E
         end;
  lia.
Qed.

Lemma bonus_total_returns text industry z :
  moderate w' = true ->
  bonus_total bonus weights text industry = Ok z ->
  exists z', bonus_total bonus (<[key := w']> weights) text industry = Ok z'.
Proof.
  intros Hmod. split_cases;
  repeat match goal with
         | |- context [bonus (Z.pos ?b) (weights_get weights ?k)] =>
             let E := fresh "E" in
             destruct (bonus (Z.pos b) (weights_get weights k)) eqn:E;
             [destruct (bonus_key_returns b k _ ltac:(lia) Hmod E) as [? ->]
             | discriminate]
         end;
  intros _; eexists; reflexivity.
Qed.

End OneWeight.

(** Claim C5. For every text, every weight table and every weight key,
    replacing the weight of that key (1.0 when the key is missing) by a
    larger one, with the text and the other weights unchanged, never
    decreases the score accumulated before the clamp to 100, whether a
    bonus of that key is matched or not. Weights are binary64 numbers. The
    new score exists whenever the old one does and the new weight is below
    [2^953] in magnitude; a larger one can make [int] fail on an infinite
    product. *)
Theorem score_grows_with_weight (env : Env) (weights : gmap string float)
    (raw_text key : string) (w' : float) (z : Z) :
  valid (weights_get weights key) = true ->
  valid w' = true ->
  leb (weights_get weights key) w' = true ->
  score_before_clamp env weights raw_text = Ok z ->
  (forall z', score_before_clamp env (<[key := w']> weights) raw_text = Ok z' ->
              z <= z')
  /\ (moderate w' = true ->
      exists z', score_before_clamp env (<[key := w']> weights) raw_text = Ok z'
                 /\ z <= z').
Proof.
  intros Hv Hv' Hle. rewrite !ScoringFacts.score_before_clamp_sum.
  unfold score_with. rewrite !ScoringFacts.summary_intent.
  generalize (_nlp_boost (summarize_for_scoring env (PyStr raw_text))).
  generalize (procurement_intent_score (PyStr raw_text) / 10).
  intros tenth boost.
  destruct (bonus_total bonus weights _ _) as [b|] eqn:Eb; [|discriminate].
  intros [= <-]. split.
  - intros z'.
    destruct (bonus_total bonus (<[key := w']> weights) _ _) as [b'|] eqn:Eb';
      [|discriminate].
    intros [= <-].
    pose proof (bonus_total_mono weights key w' Hv Hv' Hle _ _ _ _ Eb Eb'). lia.
  - intros Hmod.
    destruct (bonus_total_returns weights key w' Hv' _ _ _ Hmod Eb) as [b' Eb'].
    rewrite Eb'. eexists. split; [reflexivity|].
    pose proof (bonus_total_mono weights key w' Hv Hv' Hle _ _ _ _ Eb Eb'). lia.
Qed.

Lemma score_grows_with_weight_witness :
  score_before_clamp no_packages {[ "industry_Marine" := f1_02 ]} "marine" = Ok 30
  /\ score_before_clamp no_packages
       (<[ "industry_Marine" := f1_11 ]> {[ "industry_Marine" := f1_02 ]}) "marine"
     = Ok 33
  /\ 30 <= 33.
Proof.
  assert (H1 : score_before_clamp no_packages {[ "industry_Marine" := f1_02 ]} "marine"
               = Ok 30) by (vm_compute; reflexivity).
  assert (H2 : score_before_clamp no_packages
                 (<[ "industry_Marine" := f1_11 ]> {[ "industry_Marine" := f1_02 ]})
                 "marine" = Ok 33) by (vm_compute; reflexivity).
  split; [exact H1|]. split; [exact H2|].
  refine (proj1 (score_grows_with_weight no_packages {[ "industry_Marine" := f1_02 ]}
                   "marine" "industry_Marine" f1_11 30 _ _ _ H1) 33 H2);
    vm_compute; reflexivity.
Defined.

End MonotonicityFacts.

(** ** Cleaning, tokens and phrases *)

Module TextFacts.
Import Py Nlp Extraction Spec.

(** *** White space *)

Lemma isspace_not c d : isspace c = true -> isspace d = false -> Ascii.eqb c d = false.
Proof. intros Hc Hd. destruct (Ascii.eqb_spec c d); [congruence | done]. Qed.

Lemma sub_spaces_true_head s : starts_clean (sub_spaces true s) = true.
Proof.
  induction s as [|c t IH]; simpl; [done|].
  destruct (isspace c) eqn:E; simpl; [done | by rewrite E].
Qed.

Lemma sub_spaces_single b s : single_spaced (sub_spaces b s) = true.
Proof.
  revert b; induction s as [|c t IH]; intros b; simpl; [done|].
  destruct (isspace c) eqn:E.
  - destruct b; [apply IH|].
    cbn [single_spaced]. rewrite sub_spaces_true_head, IH. reflexivity.
  - cbn [single_spaced]. rewrite E, IH. reflexivity.
Qed.

Lemma single_spaced_tail c t : single_spaced (String c t) = true -> single_spaced t = true.
Proof. cbn [single_spaced]. intros H. apply andb_true_iff in H. tauto. Qed.

Lemma lstrip_head s : starts_clean (lstrip s) = true.
Proof.
  induction s as [|c t IH]; simpl; [done|].
  destruct (isspace c) eqn:E; [done | simpl; by rewrite E].
Qed.

Lemma lstrip_single s : single_spaced s = true -> single_spaced (lstrip s) = true.
Proof.
  induction s as [|c t IH]; [done|]. intros H. simpl.
  destruct (isspace c); [apply IH; by eapply single_spaced_tail | done].
Qed.

Lemma lstrip_clean s : starts_clean s = true -> lstrip s = s.
Proof. destruct s as [|c t]; simpl; [done|]. by destruct (isspace c). Qed.

Lemma rstrip_cons s d u : rstrip s = String d u -> exists v, s = String d v.
Proof.
  destruct s as [|c t]; simpl; [done|].
  destruct (rstrip t); [destruct (isspace c)|]; intros [= <- _]; eauto.
Qed.

Lemma rstrip_head s : starts_clean s = true -> starts_clean (rstrip s) = true.
Proof.
  destruct s as [|c t]; simpl; [done|]. intros H.
  destruct (rstrip t); [|done]. apply negb_true_iff in H. by rewrite H; simpl; rewrite H.
Qed.

Lemma rstrip_single s : single_spaced s = true -> single_spaced (rstrip s) = true.
Proof.
  induction s as [|c t IH]; [done|]. cbn [single_spaced]. intros H.
  apply andb_true_iff in H as [Hc Ht]. specialize (IH Ht). simpl.
  destruct (rstrip t) as [|d u] eqn:R.
  - destruct (isspace c) eqn:E; [done|]. cbn [single_spaced]. by rewrite E.
  - destruct (rstrip_cons _ _ _ R) as [v ->].
    change (single_spaced (String c (String d u)))
      with ((negb (isspace c) || (Ascii.eqb c " " && starts_clean (String d u)))
            && single_spaced (String d u)).
    rewrite IH, andb_true_r. exact Hc.
Qed.

Lemma rstrip_rstrip s : rstrip (rstrip s) = rstrip s.
Proof.
  induction s as [|c t IH]; [done|]. simpl.
  destruct (rstrip t) as [|d u] eqn:R.
  - destruct (isspace c) eqn:E; [done|]. simpl. by rewrite E.
  - change (rstrip (String c (String d u)))
      with (match rstrip (String d u) with
            | EmptyString => if isspace c then EmptyString else String c EmptyString
            | t' => String c t'
            end).
    by rewrite IH.
Qed.

Lemma strip_strip s : strip (strip s) = strip s.
Proof.
  unfold strip. rewrite (lstrip_clean (rstrip (lstrip s))).
  - apply rstrip_rstrip.
  - apply rstrip_head, lstrip_head.
Qed.

Lemma sub_spaces_fixed s : forall b,
  single_spaced s = true -> (b = true -> starts_clean s = true) ->
  sub_spaces b s = s.
Proof.
  induction s as [|c t IH]; intros b H Hb; [done|].
  cbn [single_spaced] in H. apply andb_true_iff in H as [Hc Ht]. simpl.
  destruct (isspace c) eqn:E.
  - simpl in Hc. apply andb_true_iff in Hc as [Hc Hn].
    apply Ascii.eqb_eq in Hc. subst c.
    destruct b.
    + specialize (Hb eq_refl). simpl in Hb. discriminate Hb.
    + f_equal. by apply IH.
  - f_equal. apply IH; [done|]. intros [=].
Qed.

Lemma single_spaced_chars s c :
  single_spaced s = true -> In c (list_ascii_of_string s) -> isspace c = true ->
  c = " "%char.
Proof.
  induction s as [|d t IH]; [done|]. cbn [single_spaced]. intros H.
  apply andb_true_iff in H as [Hd Ht]. simpl. intros [-> | Hin] Hs.
  - rewrite Hs in Hd. simpl in Hd. apply andb_true_iff in Hd as [Hd _].
    by apply Ascii.eqb_eq in Hd.
  - by apply IH.
Qed.

Lemma single_spaced_no_double s :
  single_spaced s = true -> contains "  " s = false.
Proof.
  induction s as [|c t IH]; [done|]. cbn [single_spaced]. intros H.
  apply andb_true_iff in H as [Hc Ht].
  change (contains "  " (String c t))
    with (startswith "  " (String c t) || contains "  " t).
  rewrite (IH Ht), orb_false_r.
  change (startswith "  " (String c t))
    with (Ascii.eqb " " c && startswith " " t).
  destruct (Ascii.eqb_spec " "%char c) as [<- | ]; [|done].
  destruct t as [|d u]; [done|].
  change (startswith " " (String d u)) with (Ascii.eqb " " d && true).
  change (negb (isspace d) = true) in Hc. apply negb_true_iff in Hc.
  by rewrite (isspace_not " " d eq_refl Hc).
Qed.

(** *** Tags *)

Lemma opens_tag_has_gt t : opens_tag t = true -> has_gt t = true.
Proof.
  destruct t as [|c t]; simpl; [done|]. intros H.
  apply andb_true_iff in H as [_ ->]. apply orb_true_r.
Qed.

Lemma no_gt_no_tag t : has_gt t = false -> opens_tag t = false.
Proof.
  intros H. destruct (opens_tag t) eqn:E; [|done].
  apply opens_tag_has_gt in E. congruence.
Qed.

Lemma has_gt_sub_tags s : forall b, has_gt (sub_tags b s) = true -> has_gt s = true.
Proof.
  induction s as [|c t IH]; intros b; simpl; [done|].
  destruct b.
  - intros H. apply IH in H. rewrite H. apply orb_true_r.
  - destruct (Ascii.eqb c "<" && opens_tag t) eqn:E; simpl.
    + intros H. apply IH in H. rewrite H. apply orb_true_r.
    + intros H. apply orb_true_iff in H as [-> | H]; [done|].
      apply IH in H. rewrite H. apply orb_true_r.
Qed.

Lemma opens_tag_sub_tags t : opens_tag t = false -> opens_tag (sub_tags false t) = false.
Proof.
  destruct t as [|d t]; [done|]. cbn [opens_tag]. intros H.
  destruct (Ascii.eqb_spec d ">") as [-> | Hd].
  - by destruct (opens_tag t).
  - simpl in H. apply no_gt_no_tag. 
    assert (opens_tag t = false) as Ho by by apply no_gt_no_tag.
    cbn [sub_tags]. rewrite Ho, andb_false_r. simpl.
    apply Ascii.eqb_neq in Hd. rewrite Hd. simpl.
    destruct (has_gt (sub_tags false t)) eqn:G; [|done].
    apply has_gt_sub_tags in G. congruence.
Qed.

Lemma no_tag_sub_tags s : forall b, no_tag (sub_tags b s) = true.
Proof.
  induction s as [|c t IH]; intros b; simpl; [done|].
  destruct b; [apply IH|].
  destruct (Ascii.eqb c "<" && opens_tag t) eqn:E.
  - cbn [no_tag]. by rewrite IH.
  - cbn [no_tag]. rewrite IH, andb_true_r. apply negb_true_iff.
    apply andb_false_iff in E as [E | E]; [by rewrite E|].
    rewrite (opens_tag_sub_tags _ E). apply andb_false_r.
Qed.

Lemma has_gt_sub_spaces s : forall b, has_gt (sub_spaces b s) = has_gt s.
Proof.
  induction s as [|c t IH]; intros b; simpl; [done|].
  destruct (isspace c) eqn:E.
  - rewrite (isspace_not c ">" E eq_refl). destruct b; simpl; apply IH.
  - simpl. by rewrite IH.
Qed.

Lemma opens_tag_sub_spaces t : opens_tag t = false -> opens_tag (sub_spaces false t) = false.
Proof.
  destruct t as [|d t]; [done|]. cbn [opens_tag]. intros H.
  destruct (Ascii.eqb_spec d ">") as [-> | Hd]; [done|].
  simpl in H. apply no_gt_no_tag. rewrite has_gt_sub_spaces. simpl.
  apply Ascii.eqb_neq in Hd. by rewrite Hd, H.
Qed.

Lemma no_tag_sub_spaces s : forall b, no_tag s = true -> no_tag (sub_spaces b s) = true.
Proof.
  induction s as [|c t IH]; intros b; [done|]. cbn [no_tag]. intros H.
  apply andb_true_iff in H as [Hc Ht]. simpl.
  destruct (isspace c) eqn:E.
  - destruct b; [by apply IH|]. cbn [no_tag]. by rewrite IH.
  - cbn [no_tag]. rewrite IH, andb_true_r by done.
    apply negb_true_iff. apply negb_true_iff in Hc.
    apply andb_false_iff in Hc as [Hc | Hc]; [by rewrite Hc|].
    rewrite (opens_tag_sub_spaces _ Hc). apply andb_false_r.
Qed.

Lemma no_tag_lstrip s : no_tag s = true -> no_tag (lstrip s) = true.
Proof.
  induction s as [|c t IH]; [done|]. intros H. simpl.
  destruct (isspace c); [|done]. apply IH.
  cbn [no_tag] in H. apply andb_true_iff in H. tauto.
Qed.

Lemma has_gt_rstrip s : has_gt (rstrip s) = has_gt s.
Proof.
  induction s as [|c t IH]; [done|]. simpl.
  destruct (rstrip t) as [|d u] eqn:R.
  - rewrite <- IH. simpl. rewrite orb_false_r.
    destruct (isspace c) eqn:E; simpl.
    + symmetry. by apply isspace_not.
    + apply orb_false_r.
  - rewrite <- IH. reflexivity.
Qed.

Lemma opens_tag_rstrip t : opens_tag t = false -> opens_tag (rstrip t) = false.
Proof.
  destruct t as [|d t]; [done|]. cbn [opens_tag]. intros H.
  destruct (Ascii.eqb_spec d ">") as [-> | Hd].
  - simpl. by destruct (rstrip t).
  - simpl in H. apply no_gt_no_tag. rewrite has_gt_rstrip. simpl.
    apply Ascii.eqb_neq in Hd. by rewrite Hd, H.
Qed.

Lemma no_tag_rstrip s : no_tag s = true -> no_tag (rstrip s) = true.
Proof.
  induction s as [|c t IH]; [done|]. cbn [no_tag]. intros H.
  apply andb_true_iff in H as [Hc Ht]. specialize (IH Ht).
  pose proof (opens_tag_rstrip t) as Ho. simpl.
  destruct (rstrip t) as [|d u] eqn:R.
  - destruct (isspace c); [done|]. cbn [no_tag opens_tag]. by rewrite andb_false_r.
  - change (no_tag (String c (String d u)))
      with (negb (Ascii.eqb c "<" && opens_tag (String d u)) && no_tag (String d u)).
    rewrite IH, andb_true_r. apply negb_true_iff. apply negb_true_iff in Hc.
    apply andb_false_iff in Hc as [Hc | Hc]; [by rewrite Hc|].
    rewrite (Ho Hc). apply andb_false_r.
Qed.

Lemma sub_tags_fixed s : no_tag s = true -> sub_tags false s = s.
Proof.
  induction s as [|c t IH]; [done|]. cbn [no_tag]. intros H.
  apply andb_true_iff in H as [Hc Ht]. simpl.
  apply negb_true_iff in Hc. rewrite Hc. f_equal. by apply IH.
Qed.

(** *** The cleaned text *)

(** What [clean_text] returns for a text that is not empty. *)
Lemma clean_text_str s :
  clean_text (PyStr s) = strip (sub_spaces false (sub_tags false s)).
Proof.
  unfold clean_text. simpl. destruct (String.eqb_spec s "") as [-> | _]; done.
Qed.

Lemma clean_text_not_str raw : isinstance_str raw = false -> clean_text raw = "".
Proof.
  intros H. unfold clean_text. rewrite H. simpl. by rewrite orb_true_r.
Qed.

Lemma clean_text_facts raw :
  let t := clean_text raw in
  no_tag t = true /\ single_spaced t = true /\ starts_clean t = true
  /\ rstrip t = t.
Proof.
  destruct raw as [s | | z]; [|by cbv zeta; rewrite clean_text_not_str..].
  cbv zeta. rewrite clean_text_str. unfold strip. repeat split.
  - apply no_tag_rstrip, no_tag_lstrip, no_tag_sub_spaces, no_tag_sub_tags.
  - apply rstrip_single, lstrip_single, sub_spaces_single.
  - apply rstrip_head, lstrip_head.
  - apply rstrip_rstrip.
Qed.

Lemma clean_text_fixed raw : clean_text (PyStr (clean_text raw)) = clean_text raw.
Proof.
  destruct (clean_text_facts raw) as (Ht & Hs & Hc & Hr). cbv zeta in *.
  rewrite clean_text_str, (sub_tags_fixed _ Ht).
  rewrite (sub_spaces_fixed _ false Hs) by done.
  unfold strip. by rewrite (lstrip_clean _ Hc).
Qed.

Lemma get_tokens_cleaned env raw b :
  get_tokens env (PyStr (clean_text raw)) b = get_tokens env raw b.
Proof. unfold get_tokens. by rewrite clean_text_fixed. Qed.

(** X1. Cleaning a cleaned text changes nothing: no tag is left in it, so
    the functions that clean their argument again ([get_tokens],
    [extract_key_phrases], called on the cleaned text) see the same text,
    and the tokens of the summary are the tokens of the raw text. *)
Theorem cleaning_twice_changes_nothing (env : Env) (raw : pyobj) :
  let text := clean_text raw in
  clean_text (PyStr text) = text
  /\ sub_tags false text = text
  /\ (forall remove_stopwords,
        get_tokens env (PyStr text) remove_stopwords
        = get_tokens env raw remove_stopwords)
  /\ (forall max_phrases,
        extract_key_phrases env (PyStr text) max_phrases
        = extract_key_phrases env raw max_phrases)
  /\ s_tokens (summarize_for_scoring env raw) = get_tokens env raw true.
Proof.
  cbv zeta. repeat split.
  - apply clean_text_fixed.
  - apply sub_tags_fixed, clean_text_facts.
  - intros b. apply get_tokens_cleaned.
  - intros n. unfold extract_key_phrases. by rewrite clean_text_fixed.
  - unfold summarize_for_scoring. cbn [s_tokens]. apply get_tokens_cleaned.
Qed.

(** *** Characters *)

Lemma in_lstrip c s :
  In c (list_ascii_of_string (lstrip s)) -> In c (list_ascii_of_string s).
Proof.
  induction s as [|d t IH]; cbn [lstrip]; [done|].
  destruct (isspace d); [|done]. intros H. right. by apply IH.
Qed.

Lemma in_rstrip c s :
  In c (list_ascii_of_string (rstrip s)) -> In c (list_ascii_of_string s).
Proof.
  induction s as [|d t IH]; cbn [rstrip]; [done|].
  destruct (rstrip t) as [|e u].
  - destruct (isspace d); [done|]. cbn. tauto.
  - cbn [list_ascii_of_string]. intros [H | H]; [by left | right; by apply IH].
Qed.

Lemma in_strip c s :
  In c (list_ascii_of_string (strip s)) -> In c (list_ascii_of_string s).
Proof. intros H. by apply in_lstrip, in_rstrip. Qed.

Lemma in_sub_spaces c s : forall b,
  In c (list_ascii_of_string (sub_spaces b s)) ->
  c = " "%char \/ In c (list_ascii_of_string s).
Proof.
  induction s as [|d t IH]; intros b; cbn [sub_spaces]; [done|].
  destruct (isspace d); [destruct b|]; cbn [list_ascii_of_string];
    [intros H | intros [H | H] | intros [H | H]];
    try (apply IH in H as [H | H]); cbn; auto.
Qed.

Lemma in_sub_tags c s : forall b,
  In c (list_ascii_of_string (sub_tags b s)) ->
  c = " "%char \/ In c (list_ascii_of_string s).
Proof.
  induction s as [|d t IH]; intros b; cbn [sub_tags]; [done|].
  destruct b.
  - intros H. apply IH in H as [H | H]; [by left | right; by right].
  - destruct (Ascii.eqb d "<" && opens_tag t); cbn [list_ascii_of_string];
      intros [H | H]; try (by left); try (right; by left);
      apply IH in H as [H | H]; [by left | right; by right | by left | right; by right].
Qed.

Lemma all_chars_forall (p : ascii -> bool) s :
  all_chars p s = true <-> forall c, In c (list_ascii_of_string s) -> p c = true.
Proof.
  induction s as [|d t IH]; cbn [all_chars list_ascii_of_string]; [done|].
  rewrite andb_true_iff, IH. split.
  - intros [Hd Ht] c [<- | Hc]; [done | by apply Ht].
  - intros H. split; [apply H; by left | intros c Hc; apply H; by right].
Qed.

Lemma is_ascii_chars s t :
  is_ascii s = true ->
  (forall c, In c (list_ascii_of_string t) ->
             c = " "%char \/ In c (list_ascii_of_string s)) ->
  is_ascii t = true.
Proof.
  unfold is_ascii. rewrite !all_chars_forall. intros Hs Ht c Hc.
  destruct (Ht c Hc) as [-> | H]; [done | by apply Hs].
Qed.

Lemma in_clean_text c s :
  In c (list_ascii_of_string (clean_text (PyStr s))) ->
  c = " "%char \/ In c (list_ascii_of_string s).
Proof.
  rewrite clean_text_str. intros H.
  apply in_strip, in_sub_spaces in H as [H | H]; [by left|].
  by apply in_sub_tags in H.
Qed.

Lemma clean_text_ascii raw :
  ascii_or_no_str raw = true -> is_ascii (clean_text raw) = true.
Proof.
  destruct raw as [s| |z]; [|by rewrite clean_text_not_str..].
  cbn [ascii_or_no_str]. intros H. apply (is_ascii_chars s); [done|].
  intros c. apply in_clean_text.
Qed.

(** X2. The cleaned text of an ASCII text is an ASCII text in which every
    white-space character is a space, no two spaces are adjacent and there
    is none at either end; its characters are characters of the input or
    spaces. What is not a string is cleaned to the empty text. *)
Theorem cleaned_text_is_single_spaced (raw : pyobj) :
  ascii_or_no_str raw = true ->
  let text := clean_text raw in
  is_ascii text = true
  /\ (forall c, In c (list_ascii_of_string text) -> isspace c = true -> c = " "%char)
  /\ contains "  " text = false
  /\ strip text = text
  /\ (forall s c, raw = PyStr s -> In c (list_ascii_of_string text) ->
                  c = " "%char \/ In c (list_ascii_of_string s))
  /\ (isinstance_str raw = false -> text = "").
Proof.
  intros Ha.
  destruct (clean_text_facts raw) as (Ht & Hs & Hc & Hr). cbv zeta in *.
  split; [by apply clean_text_ascii|]. split; [|split; [|split; [|split]]].
  - intros c. by apply single_spaced_chars.
  - by apply single_spaced_no_double.
  - unfold strip. by rewrite (lstrip_clean _ Hc).
  - intros s c ->. apply in_clean_text.
  - apply clean_text_not_str.
Qed.

(** A text with a tag, a tab and spaces at both ends. *)
Lemma cleaned_text_is_single_spaced_witness :
  is_ascii (clean_text (PyStr "  Marine <b>fuel</b>   supply ")) = true
  /\ strip (clean_text (PyStr "  Marine <b>fuel</b>   supply "))
     = clean_text (PyStr "  Marine <b>fuel</b>   supply ").
Proof.
  destruct (cleaned_text_is_single_spaced (PyStr "  Marine <b>fuel</b>   supply ")
              eq_refl) as (H1 & _ & _ & H2 & _).
  split; [exact H1 | exact H2].
Defined.

(** *** Substrings *)

Lemma startswith_app p : forall s t,
  startswith p s = true -> startswith p (s +:+ t) = true.
Proof.
  induction p as [|a p IH]; intros s t; [done|].
  destruct s as [|b s]; simpl; [done|]. intros H.
  apply andb_true_iff in H as [-> H]. simpl. by apply IH.
Qed.

Lemma startswith_refl s t : startswith s (s +:+ t) = true.
Proof. induction s as [|c s IH]; simpl; [done|]. by rewrite Ascii.eqb_refl. Qed.

Lemma startswith_nil p : startswith p "" = true -> p = "".
Proof. by destruct p. Qed.

Lemma contains_app_l k s t : contains k s = true -> contains k (s +:+ t) = true.
Proof.
  induction s as [|c s IH].
  - simpl. rewrite orb_false_r. intros H. apply startswith_nil in H. subst k.
    by destruct t.
  - change (contains k (String c s))
      with (startswith k (String c s) || contains k s).
    change (contains k (String c s +:+ t))
      with (startswith k (String c s +:+ t) || contains k (s +:+ t)).
    intros H. apply orb_true_iff in H as [H | H].
    + by rewrite (startswith_app _ _ t H).
    + rewrite (IH H). apply orb_true_r.
Qed.

Lemma contains_app_r k s t : contains k t = true -> contains k (s +:+ t) = true.
Proof.
  intros H. induction s as [|c s IH]; [done|].
  change (contains k (String c s +:+ t))
    with (startswith k (String c s +:+ t) || contains k (s +:+ t)).
  rewrite IH. apply orb_true_r.
Qed.

Lemma startswith_self s : startswith s s = true.
Proof. induction s as [|c s IH]; simpl; [done|]. by rewrite Ascii.eqb_refl. Qed.

Lemma contains_refl s : contains s s = true.
Proof.
  pose proof (startswith_self s) as H.
  destruct s; simpl in *; [done|]. by rewrite H.
Qed.

Lemma contains_join k sep l x :
  x ∈ l -> contains k x = true -> contains k (join sep l) = true.
Proof.
  intros Hin Hk. induction l as [|y l IH]; [by apply elem_of_nil in Hin|].
  apply elem_of_cons in Hin as [<- | Hin].
  - destruct l; [done|]. cbn [join]. by apply contains_app_l.
  - specialize (IH Hin). destruct l as [|z l]; [by apply elem_of_nil in Hin|].
    cbn [join] in *. by apply contains_app_r, contains_app_r.
Qed.

Lemma filter_length_le {A} (p q : A -> bool) l :
  (forall x, p x = true -> q x = true) ->
  (length (List.filter p l) <= length (List.filter q l))%nat.
Proof.
  intros H. induction l as [|x l IH]; simpl; [lia|].
  destruct (p x) eqn:P.
  - rewrite (H x P). simpl. lia.
  - destruct (q x); simpl; lia.
Qed.

(** *** Synonyms *)

Lemma expand_cases text :
  let extra :=
    flat_map (fun '(canonical, syns) =>
                if contains canonical (lower text) then [syns] else []) synonyms in
  (extra = [] /\ expand_text_with_synonyms text = text)
  \/ (extra <> [] /\ expand_text_with_synonyms text = text +:+ " " +:+ join " " extra).
Proof.
  cbv zeta. unfold expand_text_with_synonyms.
  destruct (flat_map _ synonyms) as [|x l]; [by left | by right].
Qed.

Lemma expand_keeps k text :
  contains k text = true -> contains k (expand_text_with_synonyms text) = true.
Proof.
  intros H. destruct (expand_cases text) as [[_ ->] | [_ ->]]; [done|].
  by apply contains_app_l.
Qed.

(** X3. Synonym expansion only appends: the text is a prefix of the result
    and every substring of the text stays one; the synonyms of each
    canonical word that occurs in the lowered text occur in the result, and a
    text with no canonical word is returned as it is. *)
Theorem expansion_only_appends (text : string) :
  startswith text (expand_text_with_synonyms text) = true
  /\ (forall k, contains k text = true ->
                contains k (expand_text_with_synonyms text) = true)
  /\ (forall canonical syns,
        (canonical, syns) ∈ synonyms -> contains canonical (lower text) = true ->
        contains syns (expand_text_with_synonyms text) = true)
  /\ ((forall canonical syns,
         (canonical, syns) ∈ synonyms -> contains canonical (lower text) = false) ->
      expand_text_with_synonyms text = text).
Proof.
  split; [|split; [|split]].
  - destruct (expand_cases text) as [[_ ->] | [_ ->]].
    + apply startswith_self.
    + apply startswith_refl.
  - intros k. apply expand_keeps.
  - intros canonical syns Hin Hc.
    assert (syns ∈ flat_map (fun '(canonical, syns) =>
                if contains canonical (lower text) then [syns] else []) synonyms)
      as Hs.
    { apply list_elem_of_In, in_flat_map. exists (canonical, syns).
      split; [by apply list_elem_of_In|]. rewrite Hc. by left. }
    destruct (expand_cases text) as [[E _] | [_ ->]].
    + cbv zeta in E. rewrite E in Hs. by apply elem_of_nil in Hs.
    + apply contains_app_r, contains_app_r.
      eapply contains_join; [exact Hs | apply contains_refl].
  - intros H. destruct (expand_cases text) as [[_ ->] | [E _]]; [done|].
    exfalso. apply E. clear E.
    induction synonyms as [|[c y] l IH]; [done|]. simpl.
    rewrite (H c y) by (by left). simpl. apply IH.
    intros c' y' Hin. apply (H c' y'). by right.
Qed.

(** *** Tokens *)

Lemma all_chars_impl (p q : ascii -> bool) s :
  (forall c, p c = true -> q c = true) -> all_chars p s = true -> all_chars q s = true.
Proof.
  intros H. induction s as [|c s IH]; simpl; [done|]. intros Hs.
  apply andb_true_iff in Hs as [Hc Hs]. by rewrite (H c Hc), IH.
Qed.

Lemma elem_of_filter {A} (p : A -> bool) l x :
  x ∈ List.filter p l <-> x ∈ l /\ p x = true.
Proof. rewrite !list_elem_of_In. apply filter_In. Qed.

(** X4. Every token of an ASCII text is a non-empty alphanumeric string.
    Without NLTK a token has at least two characters, all of them
    lower-case letters or digits, and is no stop word of the built-in list
    when stop words are removed. With NLTK this is said of the tokens that
    are ASCII, as those NLTK makes of an ASCII text are; such a token is no
    stop word of NLTK's list when stop words are removed. *)
Theorem tokens_are_alphanumeric (env : Env) (text : pyobj)
    (remove_stopwords : bool) (t : string) :
  ascii_or_no_str text = true ->
  (nltk env <> None -> is_ascii t = true) ->
  t ∈ get_tokens env text remove_stopwords ->
  isalnum t = true
  /\ is_ascii t = true
  /\ (nltk env = None ->
      (2 <= String.length t)%nat /\ all_chars is_az09 t = true
      /\ (remove_stopwords = true -> mem t fallback_stop = false))
  /\ (forall tk, nltk env = Some tk -> remove_stopwords = true ->
                 mem t (stopwords tk) = false).
Proof.
  intros _ Hascii. unfold get_tokens. destruct (String.eqb (clean_text text) "").
  { intros H. by apply elem_of_nil in H. }
  destruct (nltk env) as [tk|].
  - specialize (Hascii ltac:(done)).
    destruct (remove_stopwords && negb (bool_decide (stopwords tk = []))) eqn:E;
      intros H; apply elem_of_filter in H as [_ H].
    + apply andb_true_iff in H as [Ha Hs]. split; [done|]. split; [done|].
      split; [done|].
      intros tk' [= <-] _. by apply negb_true_iff in Hs.
    + split; [done|]. split; [done|]. split; [done|]. intros tk' [= <-] ->.
      simpl in E. apply negb_false_iff, bool_decide_eq_true in E. by rewrite E.
  - assert (forall x, x ∈ findall_tokens (lower (clean_text text)) ->
                      isalnum x = true /\ (2 <= String.length x)%nat
                      /\ all_chars is_az09 x = true) as Hf.
    { intros x Hx. apply elem_of_filter in Hx as [_ Hx].
      apply andb_true_iff in Hx as [Hl Ha]. apply Nat.leb_le in Hl.
      split; [|done]. unfold isalnum. apply andb_true_iff. split.
      - destruct x; [simpl in Hl; lia | done].
      - revert Ha. apply all_chars_impl. intros c Hc. unfold isalnum_char.
        unfold is_az09 in Hc. apply orb_true_iff in Hc as [-> | ->];
          [by rewrite orb_true_r | by rewrite !orb_true_r]. }
    assert (forall x, all_chars is_az09 x = true -> is_ascii x = true) as Haz.
    { intros x. apply all_chars_impl. intros c.
      by destruct c as [[] [] [] [] [] [] [] []]. }
    destruct remove_stopwords.
    + intros H. apply elem_of_filter in H as [H Hs].
      destruct (Hf _ H) as (? & ? & ?). apply negb_true_iff in Hs.
      split; [done|]. split; [by apply Haz|]. done.
    + intros H. destruct (Hf _ H) as (? & ? & ?).
      split; [done|]. split; [by apply Haz|]. done.
Qed.

(** The tokens of a text that reads "cement and steel", with no package. *)
Lemma tokens_are_alphanumeric_witness :
  isalnum "steel" = true
  /\ is_ascii "steel" = true
  /\ (nltk no_packages = None ->
      (2 <= String.length "steel")%nat /\ all_chars is_az09 "steel" = true
      /\ (true = true -> mem "steel" fallback_stop = false))
  /\ (forall tk, nltk no_packages = Some tk -> true = true ->
                 mem "steel" (stopwords tk) = false).
Proof.
  apply (tokens_are_alphanumeric no_packages (PyStr "Cement and <b>steel</b>") true).
  - reflexivity.
  - reflexivity.
  - vm_compute. right. left.
Defined.

(** *** Key phrases *)

Lemma mem_false x l : mem x l = false -> x ∉ l.
Proof.
  unfold mem. intros H Hin. apply list_elem_of_In in Hin.
  assert (existsb (String.eqb x) l = true) as E.
  { apply existsb_exists. exists x. split; [done | apply String.eqb_refl]. }
  congruence.
Qed.

Lemma elem_of_insert_by_score x y l :
  y ∈ insert_by_score x l <-> y = x \/ y ∈ l.
Proof.
  induction l as [|z l IH]; simpl.
  - rewrite list_elem_of_singleton, elem_of_nil. tauto.
  - destruct (snd x <? snd z)%nat; rewrite !elem_of_cons, ?IH; tauto.
Qed.

Lemma elem_of_sort_by_score y l : y ∈ sort_by_score l <-> y ∈ l.
Proof.
  unfold sort_by_score. induction l as [|x l IH]; [done|].
  cbn [foldr]. rewrite elem_of_insert_by_score, IH, elem_of_cons. tauto.
Qed.

Lemma collect_phrases_spec n candidates : forall seen out,
  NoDup out -> (forall x, x ∈ out -> x ∈ seen) ->
  NoDup (collect_phrases n seen out candidates)
  /\ (forall p, p ∈ collect_phrases n seen out candidates ->
                p ∈ out \/ p ∈ map fst candidates).
Proof.
  induction candidates as [|[p sc] rest IH]; intros seen out Hn Hs; simpl.
  { split; [done | tauto]. }
  destruct (mem p seen) eqn:M.
  - destruct (IH seen out Hn Hs) as [H1 H2]. split; [done|].
    intros q Hq. destruct (H2 q Hq); [by left | right; by right].
  - apply mem_false in M.
    assert (NoDup (out ++ [p])) as Hn'.
    { apply NoDup_app. split; [done|]. split; [|apply NoDup_singleton].
      intros x Hx Hp. apply list_elem_of_singleton in Hp. subst x. auto. }
    assert (forall q, q ∈ out ++ [p] -> q ∈ out \/ q = p) as Ha.
    { intros q Hq. apply elem_of_app in Hq as [Hq | Hq]; [by left|].
      apply list_elem_of_singleton in Hq. by right. }
    destruct (n <=? length (out ++ [p]))%nat.
    + split; [done|]. intros q Hq. destruct (Ha q Hq) as [? | ->];
        [by left | right; by left].
    + destruct (IH (p :: seen) (out ++ [p]) Hn') as [H1 H2].
      { intros x Hx. destruct (Ha x Hx) as [? | ->]; [right; auto | by left]. }
      split; [done|]. intros q Hq. destruct (H2 q Hq) as [Hq' | Hq'].
      * destruct (Ha q Hq') as [? | ->]; [by left | right; by left].
      * right. by right.
Qed.

(** X5. The key phrases are pairwise distinct; each is a 2-gram or a 3-gram
    of the tokens and holds at least one signal word. There are at most
    [max_phrases] of them, but one when [max_phrases] is 0, since the length
    is tested after a phrase is added. *)
Theorem key_phrases_are_distinct (env : Env) (raw_text : pyobj) (max_phrases : nat) :
  let phrases := extract_key_phrases env raw_text max_phrases in
  let tokens := get_tokens env raw_text true in
  NoDup phrases
  /\ (length phrases <= Nat.max 1 max_phrases)%nat
  /\ (forall p, p ∈ phrases ->
        (0 < score_phrase p)%nat
        /\ p ∈ extract_ngrams tokens 2 ++ extract_ngrams tokens 3)
  /\ extract_key_phrases no_packages (PyStr "Marine fuel supply") 0
     = ["marine fuel supply"].
Proof.
  cbv zeta. split; [|split; [apply ExtractionFacts.extract_key_phrases_length|split]].
  - unfold extract_key_phrases.
    destruct (String.eqb (clean_text raw_text) ""); [apply NoDup_nil_2|].
    destruct (length _ <? 2)%nat; [apply NoDup_nil_2|].
    apply collect_phrases_spec; [apply NoDup_nil_2 | done].
  - intros p. unfold extract_key_phrases.
    destruct (String.eqb (clean_text raw_text) "");
      [intros H; by apply elem_of_nil in H|].
    rewrite get_tokens_cleaned.
    destruct (length _ <? 2)%nat; [intros H; by apply elem_of_nil in H|].
    intros H.
    apply collect_phrases_spec in H; [|apply NoDup_nil_2 | done].
    destruct H as [H | H]; [by apply elem_of_nil in H|].
    apply list_elem_of_fmap in H as ([q sc] & -> & H).
    apply (proj1 (elem_of_sort_by_score _ _)) in H.
    apply list_elem_of_fmap in H as (q' & [= -> ->] & H).
    apply elem_of_filter in H as [H Hs]. apply Nat.ltb_lt in Hs. done.
  - by vm_compute.
Qed.

(** *** Entities *)





End TextFacts.

(** ** Industry detection and clues *)

Module DetectionFacts.
Import Py Nlp Extraction Spec.

Lemma hits_nonneg text v : 0 <= hits text v.
Proof. unfold hits, count_hits. lia. Qed.

Lemma hits_le_max text l v : v ∈ l -> hits text v <= max_hits text l.
Proof.
  induction l as [|x l IH]; intros Hin; [by apply elem_of_nil in Hin|].
  rewrite ClassifierFacts.max_hits_cons.
  apply elem_of_cons in Hin as [<- | Hin]; [lia|]. specialize (IH Hin). lia.
Qed.

Lemma count_zero_none_in keywords text :
  count_hits keywords text = 0 -> none_in keywords text = true.
Proof.
  unfold count_hits, none_in. induction keywords as [|k l IH]; [done|].
  cbn [List.filter forallb]. destruct (contains k text); cbn [length negb].
  - lia.
  - intros H. by rewrite IH.
Qed.

Lemma hits_zero_catalog (catalog : list (string * list string)) text :
  NoDup (map fst catalog) ->
  (forall v, v ∈ map fst catalog -> count_hits (dict_get catalog v []) text = 0) ->
  forallb (fun '(_, keywords) => none_in keywords text) catalog = true.
Proof.
  induction catalog as [|[k kws] catalog IH]; [done|].
  cbn [map fst forallb]. intros Hn H. apply NoDup_cons in Hn as [Hk Hn].
  apply andb_true_iff. split.
  - apply count_zero_none_in. specialize (H k ltac:(by left)).
    cbn [dict_get] in H. by rewrite String.eqb_refl in H.
  - apply IH; [done|]. intros v Hv. specialize (H v ltac:(by right)).
    cbn [dict_get] in H. destruct (String.eqb_spec k v) as [-> | _]; done.
Qed.

Lemma catalog_keys :
  map fst INDUSTRY_SIGNALS = specific_verticals ++ ["General Industrial"].
Proof. by vm_compute. Qed.

Lemma catalog_nodup : NoDup (map fst INDUSTRY_SIGNALS).
Proof.
  change (map fst INDUSTRY_SIGNALS) with
    ["Cement"; "Marine"; "Construction / Roads"; "Power / Utilities";
     "Refinery / Petrochemical"; "Mining / Steel"; "Aviation"; "General Industrial"].
  repeat (apply NoDup_cons_2;
          [intros H; apply list_elem_of_In in H; simpl in H;
           repeat (destruct H as [H | H]; [discriminate H|]); exact H|]).
  apply NoDup_nil_2.
Qed.

Lemma classify_cases text :
  (classify text = "Unknown"
   /\ forall v, v ∈ map fst INDUSTRY_SIGNALS -> hits text v = 0)
  \/ (classify text = "General Industrial"
      /\ 0 < hits text "General Industrial"
      /\ forall v, v ∈ specific_verticals -> hits text v = 0)
  \/ (classify text ∈ specific_verticals
      /\ 0 < hits text (classify text)
      /\ forall v, v ∈ specific_verticals -> hits text v <= hits text (classify text)).
Proof.
  unfold classify.
  pose proof (ClassifierFacts.max_hits_nonneg text specific_verticals) as Hm.
  destruct (Z.eqb_spec (max_hits text specific_verticals) 0) as [E | E].
  - assert (forall v, v ∈ specific_verticals -> hits text v = 0) as Hz.
    { intros v Hv. pose proof (hits_le_max text _ _ Hv).
      pose proof (hits_nonneg text v). lia. }
    destruct (Z.ltb_spec 0 (hits text "General Industrial")) as [Hg | Hg].
    + right. left. done.
    + left. split; [done|]. intros v Hv. rewrite catalog_keys in Hv.
      apply elem_of_app in Hv as [Hv | Hv]; [by apply Hz|].
      apply list_elem_of_singleton in Hv. subst v.
      pose proof (hits_nonneg text "General Industrial"). lia.
  - right. right.
    destruct (ClassifierFacts.find_max_hits text specific_verticals ltac:(lia))
      as [v Hv].
    rewrite Hv. apply ClassifierFacts.find_some_elem in Hv as [Hin Hv].
    apply Z.eqb_eq in Hv. split; [done|]. split; [lia|].
    intros w Hw. rewrite Hv. by apply hits_le_max.
Qed.

Lemma detection_text_keeps env raw k :
  contains k (lower (clean_text raw)) = true ->
  contains k (detection_text env raw) = true.
Proof.
  intros H. unfold detection_text.
  by apply TextFacts.contains_app_l, TextFacts.expand_keeps.
Qed.

(** X7. Synonyms and key phrases only add to the text that is searched: a
    keyword found in the cleaned, lowered text is found in the searched
    text, so no vertical has fewer keyword hits there. *)
Theorem searched_text_keeps_keywords (env : Env) (raw_text : pyobj) :
  (forall k, contains k (lower (clean_text raw_text)) = true ->
             contains k (detection_text env raw_text) = true)
  /\ (forall keywords,
        count_hits keywords (lower (clean_text raw_text))
        <= count_hits keywords (detection_text env raw_text))
  /\ (forall vertical,
        hits (lower (clean_text raw_text)) vertical
        <= hits (detection_text env raw_text) vertical).
Proof.
  assert (forall keywords,
            count_hits keywords (lower (clean_text raw_text))
            <= count_hits keywords (detection_text env raw_text)) as H.
  { intros keywords. unfold count_hits. apply inj_le.
    apply TextFacts.filter_length_le. intros k. apply detection_text_keeps. }
  split; [intros k; apply detection_text_keeps|]. split; [exact H|].
  intros v. apply H.
Qed.

(** X8. The industry is Unknown exactly when no keyword of any vertical of
    the catalog occurs in the searched text. A keyword of the catalog that
    occurs in the cleaned, lowered text therefore rules Unknown out. *)
Theorem unknown_iff_no_catalog_keyword (env : Env) (raw_text : pyobj) :
  ((detect_industry env raw_text).1 = "Unknown"
   <-> forallb (fun '(_, keywords) =>
                  none_in keywords (detection_text env raw_text))
         INDUSTRY_SIGNALS = true)
  /\ (forall vertical keywords k,
        (vertical, keywords) ∈ INDUSTRY_SIGNALS -> k ∈ keywords ->
        contains k (lower (clean_text raw_text)) = true ->
        (detect_industry env raw_text).1 <> "Unknown").
Proof.
  rewrite ClassifierFacts.detect_industry_classify.
  set (text := detection_text env raw_text).
  assert (classify text = "Unknown"
          <-> forallb (fun '(_, keywords) => none_in keywords text)
                INDUSTRY_SIGNALS = true) as Hiff.
  { split.
    - intros Hu. apply hits_zero_catalog; [apply catalog_nodup|].
      destruct (classify_cases text) as [[_ H] | [[E _] | [Hin _]]].
      + exact H.
      + rewrite Hu in E. discriminate E.
      + rewrite Hu in Hin.
        apply ClassifierFacts.specific_not_unknown in Hin. discriminate Hin.
    - intros H. unfold classify.
      rewrite ClassifierFacts.max_hits_zero
        by (intros; by apply ScoringFacts.no_hits_in_catalog).
      unfold hits. by rewrite ScoringFacts.no_hits_in_catalog. }
  split; [exact Hiff|].
  intros vertical keywords k Hin Hk Hc Hu. apply Hiff in Hu.
  apply list_elem_of_In in Hin.
  apply (proj1 (forallb_forall _ _)) with (x := (vertical, keywords)) in Hu;
    [|done].
  apply (ScoringFacts.none_in_contains _ _ k) in Hu; [|done].
  subst text. rewrite (detection_text_keeps env raw_text k Hc) in Hu.
  discriminate Hu.
Qed.

(** X9. The industry is Unknown or a vertical of the catalog, and the
    products are the entry of that industry in the product table. General
    Industrial is a fallback: it is returned only when no specific vertical
    has a keyword in the searched text; a specific vertical that is
    returned has a keyword there and no specific vertical has more. *)
Theorem industry_is_catalog_vertical_or_unknown (env : Env) (raw_text : pyobj) :
  let text := detection_text env raw_text in
  let industry := (detect_industry env raw_text).1 in
  industry ∈ "Unknown" :: map fst INDUSTRY_SIGNALS
  /\ (detect_industry env raw_text).2
     = dict_get PRODUCT_MAPPING industry ["Industrial Fuels"]
  /\ (industry = "General Industrial" ->
      0 < hits text "General Industrial"
      /\ forall v, v ∈ specific_verticals -> hits text v = 0)
  /\ (industry ∈ specific_verticals ->
      0 < hits text industry
      /\ forall v, v ∈ specific_verticals -> hits text v <= hits text industry).
Proof.
  cbv zeta. split; [|split; [|split]].
  - rewrite ClassifierFacts.detect_industry_classify, catalog_keys.
    destruct (classify_cases (detection_text env raw_text))
      as [[-> _] | [[-> _] | [Hin _]]].
    + by left.
    + right. apply elem_of_app. right. by left.
    + right. apply elem_of_app. by left.
  - unfold detect_industry. destruct (foldl _ _ _). reflexivity.
  - rewrite ClassifierFacts.detect_industry_classify. intros Hg.
    destruct (classify_cases (detection_text env raw_text))
      as [[E _] | [[_ H] | [Hin _]]].
    + rewrite Hg in E. discriminate E.
    + exact H.
    + rewrite Hg, ClassifierFacts.specific_verticals_list in Hin.
      exfalso. apply list_elem_of_In in Hin. simpl in Hin.
      repeat (destruct Hin as [Hin | Hin]; [discriminate Hin|]). exact Hin.
  - rewrite ClassifierFacts.detect_industry_classify. intros Hs.
    destruct (classify_cases (detection_text env raw_text))
      as [[E _] | [[E _] | [_ H]]].
    + rewrite E in Hs. apply ClassifierFacts.specific_not_unknown in Hs.
      discriminate Hs.
    + rewrite E, ClassifierFacts.specific_verticals_list in Hs.
      exfalso. apply list_elem_of_In in Hs. simpl in Hs.
      repeat (destruct Hs as [Hs | Hs]; [discriminate Hs|]). exact Hs.
    + exact H.
Qed.

(** X10. An input whose cleaned text is empty (nothing, a number, the empty
    string, white space or tags only) carries no signal: the industry is
    Unknown with the default product, and there is no clue, no token, no key
    phrase, no summary and no intent. *)
Theorem blank_input_has_no_signal (env : Env) (raw_text : pyobj) :
  clean_text raw_text = "" ->
  detect_industry env raw_text = ("Unknown", ["Industrial Fuels"])
  /\ extract_requirement_clues env raw_text = []
  /\ procurement_intent_score raw_text = 0
  /\ (forall b, get_tokens env raw_text b = [])
  /\ (forall n, extract_key_phrases env raw_text n = [])
  /\ (forall n m, extractive_summary env raw_text n m = "").
Proof.
  intros H.
  assert (forall n, extract_key_phrases env raw_text n = []) as Hk.
  { intros n. unfold extract_key_phrases. by rewrite H. }
  split; [|split; [|split; [|split; [|split]]]].
  - unfold detect_industry, detection_text. rewrite Hk, H. by vm_compute.
  - unfold extract_requirement_clues. rewrite Hk, H. by vm_compute.
  - unfold procurement_intent_score. by rewrite H.
  - intros b. unfold get_tokens. by rewrite H.
  - exact Hk.
  - intros n m. unfold extractive_summary. by rewrite H.
Qed.

Lemma blank_input_has_no_signal_witness :
  detect_industry no_packages (PyStr " <br/> <p></p> ")
  = ("Unknown", ["Industrial Fuels"])
  /\ extract_requirement_clues no_packages (PyStr " <br/> <p></p> ") = [].
Proof.
  destruct (blank_input_has_no_signal no_packages (PyStr " <br/> <p></p> "))
    as (H1 & H2 & _); [by vm_compute|]. split; [exact H1 | exact H2].
Defined.

End DetectionFacts.

(** ** The weight table between the adapter and the scorer *)

Module WeightFacts.
Import Py PyFloat Nlp Extraction Config Db Scoring Feedback Spec.

(** *** Reading the table *)

(** The dictionary built from the rows, started from any dictionary. *)
Lemma load_lookup rows : forall (d : gmap string float) k,
  NoDup (keys rows) ->
  foldl (fun d row => <[industry_or_product row := weight_real row]> d) d rows !! k
  = match table_lookup k rows with
    | Some r => Some (weight_real r)
    | None => d !! k
    end.
Proof.
  induction rows as [|r rows IH]; intros d k Hn; [done|].
  unfold keys in Hn. cbn [map] in Hn. apply NoDup_cons in Hn as [Hr Hn].
  cbn [foldl]. rewrite IH by done. unfold table_lookup. cbn [List.find].
  destruct (String.eqb_spec (industry_or_product r) k) as [<- | Hne].
  - destruct (List.find _ rows) as [r'|] eqn:F.
    + apply ClassifierFacts.find_some_elem in F as [Hin Heq].
      apply String.eqb_eq in Heq. exfalso. apply Hr. rewrite <- Heq.
      apply list_elem_of_fmap. by exists r'.
    + apply lookup_insert_eq.
  - destruct (List.find _ rows); [done|]. by rewrite lookup_insert_ne.
Qed.

Lemma get_weights_lookup table k :
  NoDup (keys table) ->
  _get_weights (Some table) !! k = weight_real <$> table_lookup k table.
Proof.
  intros Hn. unfold _get_weights. rewrite load_lookup by done.
  destruct (table_lookup k table); [done | apply lookup_empty].
Qed.

Lemma load_agree rows : forall (d1 d2 : gmap string float) k,
  d1 !! k = d2 !! k ->
  foldl (fun d row => <[industry_or_product row := weight_real row]> d) d1 rows !! k
  = foldl (fun d row => <[industry_or_product row := weight_real row]> d) d2 rows !! k.
Proof.
  induction rows as [|r rows IH]; intros d1 d2 k H; [done|].
  cbn [foldl]. apply IH.
  destruct (decide (industry_or_product r = k)) as [<- | Hne].
  - by rewrite !lookup_insert_eq.
  - by rewrite !lookup_insert_ne.
Qed.

Lemma load_upsert_ne now key w table : forall (d1 d2 : gmap string float) k,
  k <> key -> d1 !! k = d2 !! k ->
  foldl (fun d row => <[industry_or_product row := weight_real row]> d) d1
    (upsert now key w table) !! k
  = foldl (fun d row => <[industry_or_product row := weight_real row]> d) d2
      table !! k.
Proof.
  induction table as [|r table IH]; intros d1 d2 k Hk H.
  - cbn [upsert foldl industry_or_product weight_real].
    by rewrite lookup_insert_ne.
  - cbn [upsert]. destruct (String.eqb_spec (industry_or_product r) key) as [E | E].
    + cbn [foldl industry_or_product weight_real]. apply load_agree.
      rewrite !lookup_insert_ne by congruence. done.
    + cbn [foldl]. apply IH; [done|].
      destruct (decide (industry_or_product r = k)) as [<- | Hne].
      * by rewrite !lookup_insert_eq.
      * by rewrite !lookup_insert_ne.
Qed.

Lemma get_weights_upsert_ne now key w table k :
  k <> key ->
  _get_weights (Some (upsert now key w table)) !! k = _get_weights (Some table) !! k.
Proof. intros Hk. unfold _get_weights. by apply load_upsert_ne. Qed.

(** X11. On a table with one row for each key, as the UNIQUE column has it,
    the scorer reads what the upsert wrote: the dictionary of weights after
    an upsert is the dictionary before it with the key set to the new
    weight. The other keys keep their weight on any table. *)
Theorem scorer_reads_the_upserted_weight (now : Z) (key : string) (w : float)
    (table : list weight_row) :
  NoDup (keys table) ->
  _get_weights (Some (upsert now key w table)) = <[key := w]> (_get_weights (Some table))
  /\ weights_get (_get_weights (Some (upsert now key w table))) key = w
  /\ NoDup (keys (upsert now key w table))
  /\ (forall k, k <> key ->
        weights_get (_get_weights (Some (upsert now key w table))) k
        = weights_get (_get_weights (Some table)) k).
Proof.
  intros Hn. pose proof (FeedbackFacts.upsert_nodup now key w table Hn) as Hn'.
  assert (_get_weights (Some (upsert now key w table))
          = <[key := w]> (_get_weights (Some table))) as E.
  { apply map_eq. intros k. rewrite get_weights_lookup by done.
    destruct (decide (k = key)) as [-> | Hne].
    - rewrite lookup_insert_eq.
      destruct (FeedbackFacts.table_lookup_upsert_eq now key w table)
        as (r & -> & _ & <- & _). done.
    - rewrite lookup_insert_ne by done.
      rewrite FeedbackFacts.table_lookup_upsert_ne by done.
      by rewrite get_weights_lookup. }
  split; [exact E|]. split; [|split; [exact Hn'|]].
  - unfold weights_get. by rewrite E, lookup_insert_eq.
  - intros k Hk. unfold weights_get. by rewrite get_weights_upsert_ne.
Qed.

Lemma scorer_reads_the_upserted_weight_witness :
  weights_get
    (_get_weights
       (Some (upsert 9 "industry_Marine" f1_02
                (upsert 3 "signal_tender" f1_11
                   (upsert 1 "industry_Marine" f0_85 [])))))
    "industry_Marine" = f1_02.
Proof.
  apply (scorer_reads_the_upserted_weight 9 "industry_Marine" f1_02
           (upsert 3 "signal_tender" f1_11 (upsert 1 "industry_Marine" f0_85 []))).
  vm_compute. repeat constructor; intros H; apply list_elem_of_In in H; simpl in H;
    repeat (destruct H as [H | H]; [discriminate H|]); exact H.
Defined.

(** *** After the adapter *)

Lemma industry_key_ne_signal sig ind : "signal_" +:+ sig <> "industry_" +:+ ind.
Proof. intros H. discriminate H. Qed.

Lemma store_groups_keep now key groups : forall table,
  (forall ind os, (ind, os) ∈ groups -> key <> "industry_" +:+ ind) ->
  table_lookup key (foldl (store_group now) table groups) = table_lookup key table
  /\ _get_weights (Some (foldl (store_group now) table groups)) !! key
     = _get_weights (Some table) !! key.
Proof.
  induction groups as [|[ind os] groups IH]; intros table H; [done|].
  cbn [foldl].
  destruct (IH (store_group now table (ind, os))) as [H1 H2].
  { intros ind' os' Hin. apply (H ind' os'). by right. }
  rewrite H1, H2. specialize (H ind os ltac:(by left)). split.
  - by apply FeedbackFacts.store_group_other.
  - unfold store_group. destruct (length os =? 0)%nat; [done|].
    by apply get_weights_upsert_ne.
Qed.

Lemma grouped_industry rows ind os :
  (ind, os) ∈ grouped [] rows -> ind ∈ map industry_of rows.
Proof.
  intros Hin.
  assert (ind ∈ map fst (grouped [] rows)) as H.
  { apply list_elem_of_fmap. by exists (ind, os). }
  apply (proj1 (FeedbackFacts.grouped_keys rows [] ind)) in H as [H | H]; [|done].
  by apply elem_of_nil in H.
Qed.

Lemma update_keep now feedback table key :
  (forall rows ind, feedback = Some rows -> ind ∈ map industry_of rows ->
                    key <> "industry_" +:+ ind) ->
  table_lookup key (_update_weights_from_feedback now feedback table)
  = table_lookup key table
  /\ _get_weights (Some (_update_weights_from_feedback now feedback table)) !! key
     = _get_weights (Some table) !! key.
Proof.
  intros H. destruct feedback as [rows|]; [|done].
  rewrite FeedbackFacts.update_is_store. apply store_groups_keep.
  intros ind os Hin. apply (H rows ind eq_refl). by eapply grouped_industry.
Qed.

(** X12. After the adapter has run on a table with one row for each key, the
    weight the scorer reads for an industry that has feedback is the adapted
    weight of its outcomes. *)
Theorem scorer_reads_the_adapted_weight (now : Z) (rows : list feedback_row)
    (table : list weight_row) (ind : string) :
  NoDup (keys table) ->
  ind ∈ map industry_of rows ->
  weights_get
    (_get_weights (Some (_update_weights_from_feedback now (Some rows) table)))
    ("industry_" +:+ ind)
  = group_weight (outcomes_of ind rows).
Proof.
  intros Hn Hin. unfold weights_get.
  rewrite get_weights_lookup by by apply FeedbackFacts.update_nodup.
  destruct (FeedbackFacts.update_lookup now rows table ind Hin)
    as (r & -> & _ & <- & _).
  done.
Qed.

Lemma scorer_reads_the_adapted_weight_witness :
  weights_get
    (_get_weights
       (Some (_update_weights_from_feedback 4
                (Some [feedback "Cement" "Accepted"; feedback "Marine" "Rejected";
                       feedback "Cement" "Rejected"])
                (upsert 1 "industry_Cement" f1_11 []))))
    "industry_Cement"
  = f1_02.
Proof.
  apply (scorer_reads_the_adapted_weight 4
           [feedback "Cement" "Accepted"; feedback "Marine" "Rejected";
            feedback "Cement" "Rejected"]
           (upsert 1 "industry_Cement" f1_11 []) "Cement").
  - vm_compute. repeat constructor. intros H. inversion H.
  - vm_compute. left.
Defined.

(** X13. The adapter writes industry weights only. The row and the weight of
    every signal key, and of every key that is not the key of an industry
    with feedback, are after the run what they were before it, time stamp
    included. *)
Theorem feedback_leaves_the_other_weights (now : Z)
    (feedback : option (list feedback_row)) (table : list weight_row) :
  let table' := _update_weights_from_feedback now feedback table in
  (forall sig,
     table_lookup ("signal_" +:+ sig) table' = table_lookup ("signal_" +:+ sig) table
     /\ weights_get (_get_weights (Some table')) ("signal_" +:+ sig)
        = weights_get (_get_weights (Some table)) ("signal_" +:+ sig))
  /\ (forall key,
        (forall rows ind, feedback = Some rows -> ind ∈ map industry_of rows ->
                          key <> "industry_" +:+ ind) ->
        table_lookup key table' = table_lookup key table
        /\ weights_get (_get_weights (Some table')) key
           = weights_get (_get_weights (Some table)) key).
Proof.
  cbv zeta. split.
  - intros sig.
    destruct (update_keep now feedback table ("signal_" +:+ sig)) as [H1 H2].
    { intros rows ind _ _. apply industry_key_ne_signal. }
    split; [exact H1|]. unfold weights_get. by rewrite H2.
  - intros key H. destruct (update_keep now feedback table key H) as [H1 H2].
    split; [exact H1|]. unfold weights_get. by rewrite H2.
Qed.

(** *** The rows of the table *)

Lemma elem_of_keys_upsert now key w table k :
  k ∈ keys (upsert now key w table) <-> k ∈ keys table \/ k = key.
Proof.
  rewrite FeedbackFacts.keys_upsert.
  destruct (decide (key ∈ keys table)) as [Hin | Hnin].
  - rewrite bool_decide_eq_true_2 by done. split; [tauto|].
    intros [H | ->]; done.
  - rewrite bool_decide_eq_false_2 by done.
    rewrite elem_of_app, list_elem_of_singleton. tauto.
Qed.

Lemma length_upsert now key w table :
  (length table <= length (upsert now key w table))%nat.
Proof.
  induction table as [|r table IH]; cbn [upsert length]; [lia|].
  destruct (String.eqb (industry_or_product r) key); cbn [length]; lia.
Qed.

Lemma store_groups_keys now groups : forall table k,
  k ∈ keys (foldl (store_group now) table groups)
  <-> k ∈ keys table
      \/ exists ind os, (ind, os) ∈ groups /\ os <> [] /\ k = "industry_" +:+ ind.
Proof.
  induction groups as [|[ind os] groups IH]; intros table k.
  - cbn [foldl]. split; [tauto|]. intros [H | (ind & os & H & _)]; [done|].
    by apply elem_of_nil in H.
  - cbn [foldl]. rewrite IH. unfold store_group.
    destruct os as [|o os]; cbn [length Nat.eqb].
    + split.
      * intros [H | (i & s & H & Hs & ->)]; [by left|].
        right. exists i, s. split; [by right | done].
      * intros [H | (i & s & H & Hs & ->)]; [by left|].
        apply elem_of_cons in H as [[= -> ->] | H]; [done|].
        right. by exists i, s.
    + rewrite elem_of_keys_upsert. split.
      * intros [[H | ->] | (i & s & H & Hs & ->)]; [by left | |].
        -- right. exists ind, (o :: os). split; [by left | done].
        -- right. exists i, s. split; [by right | done].
      * intros [H | (i & s & H & Hs & ->)]; [left; by left|].
        apply elem_of_cons in H as [[= -> ->] | H]; [left; by right|].
        right. by exists i, s.
Qed.

Lemma length_store_groups now groups : forall table,
  (length table <= length (foldl (store_group now) table groups))%nat.
Proof.
  induction groups as [|[ind os] groups IH]; intros table; cbn [foldl]; [lia|].
  etrans; [|apply IH]. unfold store_group.
  destruct (length os =? 0)%nat; [lia | apply length_upsert].
Qed.

(** X14. The adapter deletes no row and adds rows for industries only: the
    keys after a run are the keys before it and the keys of the industries
    with feedback. Without feedback rows, or without the database layer,
    the table is left as it is. *)
Theorem feedback_only_adds_industry_rows (now : Z)
    (feedback : option (list feedback_row)) (table : list weight_row) :
  let table' := _update_weights_from_feedback now feedback table in
  (forall k, k ∈ keys table'
             <-> k ∈ keys table
                 \/ exists rows ind, feedback = Some rows
                                     /\ ind ∈ map industry_of rows
                                     /\ k = "industry_" +:+ ind)
  /\ (length table <= length table')%nat
  /\ (feedback = None \/ feedback = Some [] -> table' = table).
Proof.
  cbv zeta. split; [|split].
  - intros k. destruct feedback as [rows|].
    + rewrite FeedbackFacts.update_is_store, store_groups_keys. split.
      * intros [H | (ind & os & H & _ & ->)]; [by left|]. right.
        exists rows, ind. split; [done|]. split; [|done].
        by eapply grouped_industry.
      * intros [H | (rows' & ind & [= <-] & H & ->)]; [by left|]. right.
        exists ind, (outcomes_of ind rows). split; [|split; [|done]].
        -- by apply FeedbackFacts.grouped_elem.
        -- by apply FeedbackFacts.outcomes_of_nonempty.
    + cbn [_update_weights_from_feedback]. split; [tauto|].
      intros [H | (rows & ind & [=] & _)]. done.
  - destruct feedback as [rows|]; [|done].
    rewrite FeedbackFacts.update_is_store. apply length_store_groups.
  - intros [-> | ->]; done.
Qed.

(** *** The order of the feedback rows *)

Lemma filter_length_perm {A} (p : A -> bool) l l' :
  l ≡ₚ l' -> length (List.filter p l) = length (List.filter p l').
Proof.
  induction 1 as [|x l l' _ IH|x y l|l1 l2 l3 _ IH1 _ IH2]; cbn [List.filter].
  - done.
  - destruct (p x); cbn [length]; by rewrite IH.
  - destruct (p x), (p y); done.
  - by rewrite IH1.
Qed.

Lemma filter_perm {A} (p : A -> bool) l l' :
  l ≡ₚ l' -> List.filter p l ≡ₚ List.filter p l'.
Proof.
  induction 1 as [|x l l' _ IH|x y l|l1 l2 l3 _ IH1 _ IH2]; cbn [List.filter].
  - done.
  - destruct (p x); by rewrite IH.
  - destruct (p x), (p y); try done. apply perm_swap.
  - by rewrite IH1.
Qed.

Lemma group_weight_perm os os' : os ≡ₚ os' -> group_weight os = group_weight os'.
Proof.
  intros H. unfold group_weight.
  by rewrite (filter_length_perm is_accepted _ _ H), (Permutation_length H).
Qed.

Lemma outcomes_of_perm ind rows rows' :
  rows ≡ₚ rows' -> outcomes_of ind rows ≡ₚ outcomes_of ind rows'.
Proof.
  intros H. unfold outcomes_of. apply Permutation_map. by apply filter_perm.
Qed.

Lemma industries_perm rows rows' ind :
  rows ≡ₚ rows' -> ind ∈ map industry_of rows -> ind ∈ map industry_of rows'.
Proof.
  intros Hp Hin. apply list_elem_of_In. apply list_elem_of_In in Hin.
  eapply Permutation_in; [apply Permutation_map; exact Hp | exact Hin].
Qed.

(** X15. The order of the feedback rows does not matter to the scorer: on a
    table with one row for each key, two runs of the adapter on feedback
    rows that are a permutation of each other leave the same weights. *)
Theorem feedback_order_does_not_matter (now now' : Z)
    (rows rows' : list feedback_row) (table : list weight_row) :
  NoDup (keys table) ->
  rows ≡ₚ rows' ->
  _get_weights (Some (_update_weights_from_feedback now (Some rows) table))
  = _get_weights (Some (_update_weights_from_feedback now' (Some rows') table)).
Proof.
  intros Hn Hp. apply map_eq. intros k.
  destruct (decide (k ∈ map (fun ind => "industry_" +:+ ind) (map industry_of rows)))
    as [Hin | Hnin].
  - apply list_elem_of_fmap in Hin as (ind & -> & Hin).
    pose proof (industries_perm _ _ _ Hp Hin) as Hin'.
    rewrite !get_weights_lookup by by apply FeedbackFacts.update_nodup.
    destruct (FeedbackFacts.update_lookup now rows table ind Hin)
      as (r & Hr & _ & Hw & _).
    destruct (FeedbackFacts.update_lookup now' rows' table ind Hin')
      as (r' & Hr' & _ & Hw' & _).
    rewrite Hr, Hr'. cbn [fmap option_fmap option_map]. rewrite Hw, Hw'.
    f_equal. by apply group_weight_perm, outcomes_of_perm.
  - assert (forall rs ind, rs ≡ₚ rows -> ind ∈ map industry_of rs ->
                           k <> "industry_" +:+ ind) as Hk.
    { intros rs ind Hrs Hin ->. apply Hnin. apply list_elem_of_fmap.
      exists ind. split; [done|]. by eapply industries_perm. }
    destruct (update_keep now (Some rows) table k) as [_ ->].
    { intros rs ind [= <-]. by apply Hk. }
    destruct (update_keep now' (Some rows') table k) as [_ ->]; [|done].
    intros rs ind [= <-]. by apply Hk.
Qed.

Lemma feedback_order_does_not_matter_witness :
  _get_weights
    (Some (_update_weights_from_feedback 1
             (Some [feedback "Marine" "Converted"; feedback "Cement" "Rejected";
                    feedback "Marine" "Rejected"]) []))
  = _get_weights
      (Some (_update_weights_from_feedback 2
               (Some [feedback "Cement" "Rejected"; feedback "Marine" "Rejected";
                      feedback "Marine" "Converted"]) [])).
Proof.
  apply (feedback_order_does_not_matter 1 2
           [feedback "Marine" "Converted"; feedback "Cement" "Rejected";
            feedback "Marine" "Rejected"]
           [feedback "Cement" "Rejected"; feedback "Marine" "Rejected";
            feedback "Marine" "Converted"] []).
  - apply NoDup_nil_2.
  - etrans; [apply perm_swap|]. apply perm_skip. apply perm_swap.
Defined.

(** *** The two ends of the weight range *)

Lemma of_nat_pos n : n <> 0%nat -> exists p, Z.of_nat n = Zpos p.
Proof. destruct n; [done|]. intros _. by eexists. Qed.

Lemma div_zero p : div (of_int 0) (of_int (Zpos p)) = S754_zero false.
Proof. reflexivity. Qed.

Lemma div_same p : div (of_int (Zpos p)) (of_int (Zpos p)) = f1_0.
Proof.
  unfold div, of_int, SFdiv.
  assert (SFdiv_core_binary prec emax (Z.pos p) 0 (Z.pos p) 0
          = (9007199254740992, -53, loc_Exact)) as E.
  { unfold SFdiv_core_binary.
    replace (Zdigits2 (Z.pos p) + 0 - (Zdigits2 (Z.pos p) + 0)) with 0 by lia.
    change (IntDef.Z.min (fexp prec emax 0) (0 - 0)) with (-53).
    change (0 - 0 - -53) with 53. cbv beta iota zeta.
    change (IntDef.Z.shiftl (Z.pos p) 53) with (Z.shiftl (Z.pos p) 53).
    change IntDef.Z.div_eucl with Z.div_eucl.
    rewrite Z.shiftl_mul_pow2 by lia.
    pose proof (Z.div_mul (2 ^ 53) (Z.pos p) ltac:(lia)) as Hq.
    pose proof (Z.mod_mul (2 ^ 53) (Z.pos p) ltac:(lia)) as Hr.
    rewrite (Z.mul_comm (2 ^ 53)) in Hq, Hr.
    unfold Z.div in Hq. unfold Z.modulo in Hr.
    destruct (Z.div_eucl (Z.pos p * 2 ^ 53) (Z.pos p)) as [q r].
    subst q r.
    assert (new_location (Z.pos p) 0 = loc_Exact) as ->
      by (unfold new_location; destruct (IntDef.Z.even (Z.pos p)); reflexivity).
    reflexivity. }
  rewrite E. reflexivity.
Qed.

(** X16. The two ends of the adapted weight. A group none of whose outcomes
    is accepted gets the weight 0.85, and a group all of whose outcomes are
    accepted gets 1.2, whatever the number of outcomes; the industry bonus,
    30 points at weight 1.0, is then 25 and 36. *)
Theorem adapted_weight_ends (outcomes : list (option string)) :
  outcomes <> [] ->
  (List.filter is_accepted outcomes = [] -> group_weight outcomes = f0_85)
  /\ (List.filter is_accepted outcomes = outcomes -> group_weight outcomes = f1_2)
  /\ bonus 30 f0_85 = Ok 25
  /\ bonus 30 f1_2 = Ok 36.
Proof.
  intros Hne.
  assert (length outcomes <> 0%nat) as Hl by by destruct outcomes.
  destruct (of_nat_pos _ Hl) as [p Hp].
  split; [|split; [|split; reflexivity]].
  - intros H. unfold group_weight. rewrite H, Hp.
    cbn [length Z.of_nat]. rewrite div_zero. reflexivity.
  - intros H. unfold group_weight. rewrite H, Hp, div_same. reflexivity.
Qed.

Lemma adapted_weight_ends_witness :
  group_weight [Some "Rejected"; None; Some "New"] = f0_85
  /\ group_weight [Some "Converted"; Some "Assigned"] = f1_2.
Proof.
  split.
  - apply (adapted_weight_ends [Some "Rejected"; None; Some "New"]);
      [discriminate | reflexivity].
  - apply (adapted_weight_ends [Some "Converted"; Some "Assigned"]);
      [discriminate | reflexivity].
Defined.

End WeightFacts.

(** ** The analysis that is returned *)

Module ResultFacts.
Import Py PyFloat Nlp Extraction Config Db Scoring Feedback Spec.

Lemma bonus_total_default text industry :
  bonus_total bonus ∅ text industry
  = Ok (match first_signal text with Some _ => 15 | None => 0 end
        + (if expansion_trigger text then 25 else 0)
        + (if tender_trigger text then 20 else 0)
        + (if negb (String.eqb industry "Unknown") then 30 else 0)).
Proof.
  unfold bonus_total.
  assert (forall base key, base ∈ [15; 25; 20; 30] ->
            bonus base (weights_get (∅ : gmap string float) key) = Ok base) as Hb.
  { intros base key Hbase. by apply ScoringFacts.bonus_default. }
  rewrite (Hb 25), (Hb 20), (Hb 30) by (repeat constructor).
  destruct (first_signal text) as [sig|];
    [rewrite (Hb 15) by (repeat constructor)|];
    destruct (expansion_trigger text), (tender_trigger text),
      (negb (String.eqb industry "Unknown")); reflexivity.
Qed.

Lemma analysis_fields env config weights s r :
  analyze_and_score env config weights (PyStr s) = Ok r ->
  exists z, score_before_clamp env weights s = Ok z
    /\ score r = Z.min 100 z
    /\ priority r
       = (if HIGH_PRIORITY_THRESHOLD config <=? score r then "HIGH"
          else if MEDIUM_PRIORITY_THRESHOLD config <=? score r then "MEDIUM"
          else "LOW")
    /\ confidence r = Z.min 95 (score r + 10)
    /\ industry r = (detect_industry env (PyStr s)).1
    /\ product_recommendations r = (detect_industry env (PyStr s)).2
    /\ requirement_clues r = extract_requirement_clues env (PyStr s)
    /\ intent_score r = procurement_intent_score (PyStr s).
Proof.
  unfold analyze_and_score. cbv zeta.
  rewrite ScoringFacts.summary_intent.
  generalize (extract_requirement_clues env (PyStr s)).
  generalize (s_summary (summarize_for_scoring env (PyStr s))).
  destruct (detect_industry env (PyStr s)) as [ind prods].
  destruct (score_before_clamp env weights s) as [z|] eqn:E; [|discriminate].
  intros ns clues [= <-]. exists z. repeat split; reflexivity.
Qed.

(** X17. On an installation with neither NLTK nor spaCy and with an empty
    weight table, which is also what the scorer works with when the table
    cannot be read, the score of an ASCII text never fails: before the clamp
    it is 15 for a procurement signal, 25 for an expansion trigger, 20 for a
    tender trigger and 30 for a known industry, plus 3 for two key phrases
    or more and a tenth of the intent score, between 0 and 103. The clamp
    to 100 is reached with these weights. *)
Theorem empty_table_scores (config : Config.t) (s : string) :
  is_ascii s = true ->
  let text := lower s in
  let points :=
    match first_signal text with Some _ => 15 | None => 0 end
    + (if expansion_trigger text then 25 else 0)
    + (if tender_trigger text then 20 else 0)
    + (if negb (String.eqb (detect_industry no_packages (PyStr s)).1 "Unknown")
       then 30 else 0)
    + (if (2 <=? length (extract_key_phrases no_packages (PyStr s) 12))%nat
       then 3 else 0)
    + procurement_intent_score (PyStr s) / 10 in
  _get_weights None = ∅ /\ _get_weights (Some []) = ∅
  /\ score_before_clamp no_packages ∅ s = Ok points
  /\ 0 <= points <= 103
  /\ (exists r, analyze_and_score no_packages config ∅ (PyStr s) = Ok r
                /\ score r = Z.min 100 points)
  /\ score_before_clamp no_packages ∅
       "Tender: RFP and contract for procurement of cement, capacity expansion"
     = Ok 103.
Proof.
  intros _. cbv zeta.
  assert (_nlp_boost (summarize_for_scoring no_packages (PyStr s))
          = if (2 <=? length (extract_key_phrases no_packages (PyStr s) 12))%nat
            then 3 else 0) as Hb.
  { unfold _nlp_boost, summarize_for_scoring. cbn [s_key_phrases s_entities].
    unfold extract_entities. cbn [spacy no_packages orgs]. cbv zeta.
    by destruct (2 <=? length (extract_key_phrases no_packages (PyStr s) 12))%nat. }
  assert (score_before_clamp no_packages ∅ s
          = Ok (match first_signal (lower s) with Some _ => 15 | None => 0 end
                + (if expansion_trigger (lower s) then 25 else 0)
                + (if tender_trigger (lower s) then 20 else 0)
                + (if negb (String.eqb (detect_industry no_packages (PyStr s)).1
                              "Unknown")
                   then 30 else 0)
                + (if (2 <=? length (extract_key_phrases no_packages (PyStr s) 12))%nat
                   then 3 else 0)
                + procurement_intent_score (PyStr s) / 10)) as E.
  { rewrite ScoringFacts.score_before_clamp_sum. unfold score_with.
    rewrite bonus_total_default, ScoringFacts.summary_intent, Hb. reflexivity. }
  split; [done|]. split; [done|]. split; [exact E|]. split; [|split].
  - pose proof (ScoringFacts.intent_score_range (PyStr s)) as Hi.
    assert (0 <= procurement_intent_score (PyStr s) / 10 <= 10).
    { split; [apply Z.div_pos; lia|]. apply Z.div_le_upper_bound; lia. }
    destruct (first_signal (lower s)), (expansion_trigger (lower s)),
      (tender_trigger (lower s)),
      (negb (String.eqb (detect_industry no_packages (PyStr s)).1 "Unknown")),
      (2 <=? length (extract_key_phrases no_packages (PyStr s) 12))%nat; lia.
  - unfold analyze_and_score. cbv zeta. rewrite E.
    destruct (detect_industry no_packages (PyStr s)) as [ind prods].
    eexists. split; reflexivity.
  - by vm_compute.
Qed.

Lemma empty_table_scores_witness :
  exists points,
    score_before_clamp no_packages ∅ "Cement plant expansion, tender for fuel supply"
    = Ok points
    /\ 0 <= points <= 103.
Proof.
  destruct (empty_table_scores Config.defaults
              "Cement plant expansion, tender for fuel supply" eq_refl)
    as (_ & _ & H & Hr & _).
  eexists. split; [exact H | exact Hr].
Defined.

(** X18. A higher score never gets a lower priority: of two analyses made
    with the same thresholds, the one with the greater score has a priority
    at least as high, whatever the thresholds are. The priority is one of
    HIGH, MEDIUM and LOW, and it is HIGH exactly from the high threshold
    on. *)
Theorem priority_grows_with_score (env1 env2 : Env) (config : Config.t)
    (weights1 weights2 : gmap string float) (text1 text2 : pyobj)
    (r1 r2 : analysis) :
  analyze_and_score env1 config weights1 text1 = Ok r1 ->
  analyze_and_score env2 config weights2 text2 = Ok r2 ->
  score r1 <= score r2 ->
  priority_rank (priority r1) <= priority_rank (priority r2)
  /\ priority r1 ∈ ["HIGH"; "MEDIUM"; "LOW"]
  /\ (priority r1 = "HIGH" <-> HIGH_PRIORITY_THRESHOLD config <= score r1)
  /\ (priority r1 = "LOW" <-> score r1 < HIGH_PRIORITY_THRESHOLD config
                              /\ score r1 < MEDIUM_PRIORITY_THRESHOLD config).
Proof.
  intros H1 H2 Hle.
  destruct text1 as [s1| |]; [|discriminate H1..].
  destruct text2 as [s2| |]; [|discriminate H2..].
  apply analysis_fields in H1 as (_ & _ & _ & P1 & _).
  apply analysis_fields in H2 as (_ & _ & _ & P2 & _).
  rewrite P1, P2.
  destruct (Z.leb_spec (HIGH_PRIORITY_THRESHOLD config) (score r1)),
    (Z.leb_spec (MEDIUM_PRIORITY_THRESHOLD config) (score r1)),
    (Z.leb_spec (HIGH_PRIORITY_THRESHOLD config) (score r2)),
    (Z.leb_spec (MEDIUM_PRIORITY_THRESHOLD config) (score r2));
    try lia;
    (split; [vm_compute; congruence|]);
    (split; [repeat constructor|]);
    (split; split; try done; try lia).
Qed.

Lemma priority_grows_with_score_witness :
  exists r1 r2,
    analyze_and_score no_packages Config.defaults ∅ (PyStr "cement plant") = Ok r1
    /\ analyze_and_score no_packages Config.defaults ∅
         (PyStr "cement tender for fuel supply") = Ok r2
    /\ priority r1 = "LOW" /\ priority r2 = "MEDIUM"
    /\ priority_rank (priority r1) <= priority_rank (priority r2).
Proof.
  destruct (analyze_and_score no_packages Config.defaults ∅ (PyStr "cement plant"))
    as [r1|] eqn:E1; [|by vm_compute in E1].
  destruct (analyze_and_score no_packages Config.defaults ∅
              (PyStr "cement tender for fuel supply"))
    as [r2|] eqn:E2; [|by vm_compute in E2].
  exists r1, r2. split; [done|]. split; [done|].
  assert (priority r1 = "LOW") as P1 by (vm_compute in E1; by injection E1 as <-).
  assert (priority r2 = "MEDIUM") as P2 by (vm_compute in E2; by injection E2 as <-).
  split; [done|]. split; [done|].
  apply (priority_grows_with_score no_packages no_packages Config.defaults ∅ ∅
           (PyStr "cement plant") (PyStr "cement tender for fuel supply") r1 r2 E1 E2).
  assert (score r1 = 30) as -> by (vm_compute in E1; by injection E1 as <-).
  assert (score r2 = 72) as -> by (vm_compute in E2; by injection E2 as <-).
  lia.
Defined.

End ResultFacts.

(** ** Which weights reach a score *)

Module InfluenceFacts.
Import Py PyFloat Nlp Extraction Config Db Scoring Feedback Spec.

Lemma bonus_total_same f (w1 w2 : gmap string float) text industry :
  (forall sig, sig ∈ PROCUREMENT_SIGNALS ->
     weights_get w1 ("signal_" +:+ sig) = weights_get w2 ("signal_" +:+ sig)) ->
  (industry <> "Unknown" ->
   weights_get w1 ("industry_" +:+ industry) = weights_get w2 ("industry_" +:+ industry)) ->
  bonus_total f w1 text industry = bonus_total f w2 text industry.
Proof.
  intros Hs Hi. unfold bonus_total.
  assert (weights_get w1 "signal_expansion" = weights_get w2 "signal_expansion")
    as -> by (apply (Hs "expansion"); repeat constructor).
  assert (weights_get w1 "signal_tender" = weights_get w2 "signal_tender")
    as -> by (apply (Hs "tender"); repeat constructor).
  assert (match first_signal text with
          | Some sig => f 15 (weights_get w1 ("signal_" +:+ sig))
          | None => Ok 0
          end
          = match first_signal text with
            | Some sig => f 15 (weights_get w2 ("signal_" +:+ sig))
            | None => Ok 0
            end) as ->.
  { destruct (first_signal text) as [sig|] eqn:F; [|done].
    apply ClassifierFacts.find_some_elem in F as [Hin _]. by rewrite (Hs sig Hin). }
  destruct (String.eqb_spec industry "Unknown") as [-> | Hne]; [done|].
  by rewrite (Hi Hne).
Qed.

Lemma analysis_same env config (w1 w2 : gmap string float) raw_text :
  (forall sig, sig ∈ PROCUREMENT_SIGNALS ->
     weights_get w1 ("signal_" +:+ sig) = weights_get w2 ("signal_" +:+ sig)) ->
  ((detect_industry env raw_text).1 <> "Unknown" ->
   weights_get w1 ("industry_" +:+ (detect_industry env raw_text).1)
   = weights_get w2 ("industry_" +:+ (detect_industry env raw_text).1)) ->
  analyze_and_score env config w1 raw_text = analyze_and_score env config w2 raw_text.
Proof.
  intros Hs Hi. destruct raw_text as [s| |]; [|done..].
  unfold analyze_and_score.
  rewrite !ScoringFacts.score_before_clamp_sum. unfold score_with.
  by rewrite (bonus_total_same bonus w1 w2 _ _ Hs Hi).
Qed.

(** X23. Only the weights that are read matter. Two weight tables that give
    the same weight to the key of every procurement signal and to the key
    of every vertical of the catalog give the same analysis of every input,
    whatever else they hold. *)
Theorem only_the_read_weights_matter (env : Env) (config : Config.t)
    (w1 w2 : gmap string float) (raw_text : pyobj) :
  (forall sig, sig ∈ PROCUREMENT_SIGNALS ->
     w1 !! ("signal_" +:+ sig) = w2 !! ("signal_" +:+ sig)) ->
  (forall v, v ∈ map fst INDUSTRY_SIGNALS ->
     w1 !! ("industry_" +:+ v) = w2 !! ("industry_" +:+ v)) ->
  analyze_and_score env config w1 raw_text = analyze_and_score env config w2 raw_text.
Proof.
  intros Hs Hi. apply analysis_same.
  - intros sig Hin. unfold weights_get. by rewrite (Hs sig Hin).
  - intros Hne. unfold weights_get. rewrite Hi; [done|].
    rewrite ClassifierFacts.detect_industry_classify in *.
    rewrite DetectionFacts.catalog_keys.
    destruct (DetectionFacts.classify_cases (detection_text env raw_text))
      as [[E _] | [[-> _] | [Hin _]]]; [done | |].
    + apply elem_of_app. right. by left.
    + apply elem_of_app. by left.
Qed.

Lemma only_the_read_weights_matter_witness :
  analyze_and_score no_packages Config.defaults
    {[ "industry_Marine" := f1_11; "product_Bitumen" := fm1_0 ]}
    (PyStr "marine fuel tender")
  = analyze_and_score no_packages Config.defaults
      {[ "industry_Marine" := f1_11; "industry_Shipping" := f0_85 ]}
      (PyStr "marine fuel tender").
Proof.
  apply (only_the_read_weights_matter no_packages Config.defaults
           {[ "industry_Marine" := f1_11; "product_Bitumen" := fm1_0 ]}
           {[ "industry_Marine" := f1_11; "industry_Shipping" := f0_85 ]}
           (PyStr "marine fuel tender")).
  - intros sig Hin. apply list_elem_of_In in Hin. simpl in Hin.
    repeat (destruct Hin as [<- | Hin]; [by vm_compute|]). destruct Hin.
  - intros v Hin. apply list_elem_of_In in Hin. simpl in Hin.
    repeat (destruct Hin as [<- | Hin]; [by vm_compute|]). destruct Hin.
Defined.

(** X24. Feedback reaches the leads of its own industries only. After a run
    of the adapter, an input whose industry is Unknown, or whose industry
    has no row in the feedback, is analysed as it was before the run. *)
Theorem feedback_reaches_its_industries_only (env : Env) (config : Config.t)
    (now : Z) (feedback : option (list feedback_row)) (table : list weight_row)
    (raw_text : pyobj) :
  (detect_industry env raw_text).1 = "Unknown"
  \/ (forall rows, feedback = Some rows ->
        (detect_industry env raw_text).1 ∉ map industry_of rows) ->
  analyze_and_score env config
    (_get_weights (Some (_update_weights_from_feedback now feedback table))) raw_text
  = analyze_and_score env config (_get_weights (Some table)) raw_text.
Proof.
  intros H. apply analysis_same.
  - intros sig _. unfold weights_get.
    destruct (WeightFacts.update_keep now feedback table ("signal_" +:+ sig))
      as [_ ->]; [|done].
    intros rows ind _ _. apply WeightFacts.industry_key_ne_signal.
  - intros Hne. destruct H as [H | H]; [done|]. unfold weights_get.
    destruct (WeightFacts.update_keep now feedback table
                ("industry_" +:+ (detect_industry env raw_text).1)) as [_ ->]; [|done].
    intros rows ind -> Hin E. apply ScoringFacts.industry_key_inj in E.
    apply (H rows eq_refl). by rewrite E.
Qed.

Lemma feedback_reaches_its_industries_only_witness :
  analyze_and_score no_packages Config.defaults
    (_get_weights
       (Some (_update_weights_from_feedback 3
                (Some [feedback "Cement" "Rejected"; feedback "Aviation" "Accepted"])
                [])))
    (PyStr "marine fuel tender")
  = analyze_and_score no_packages Config.defaults (_get_weights (Some []))
      (PyStr "marine fuel tender").
Proof.
  apply (feedback_reaches_its_industries_only no_packages Config.defaults 3
           (Some [feedback "Cement" "Rejected"; feedback "Aviation" "Accepted"])
           [] (PyStr "marine fuel tender")).
  right. intros rows [= <-].
  assert ((detect_industry no_packages (PyStr "marine fuel tender")).1 = "Marine")
    as -> by (by vm_compute).
  intros Hin. apply list_elem_of_In in Hin. simpl in Hin.
  repeat (destruct Hin as [Hin | Hin]; [discriminate Hin|]). destruct Hin.
Defined.

End InfluenceFacts.

(** ** The dossier: fingerprint, battlecards, actions and notification *)

Module DossierFacts.
Import Py PyFloat Nlp Extraction Config Scoring Spec.
Import SignalEngine WhyHpcl Dossier Notifications.

(** *** The signal fingerprint *)

(** The sorted product tuple of an entry of the fingerprint and of the
    graph. *)
Lemma fingerprint_loop_spec text graph : forall seen out,
  NoDup (map (fun e => sorted (fp_products e)) out) ->
  (forall e, e ∈ out -> sorted (fp_products e) ∈ seen) ->
  let entries := fingerprint_loop text graph seen out in
  NoDup (map (fun e => sorted (fp_products e)) entries)
  /\ (forall e, e ∈ entries ->
        e ∈ out
        \/ (contains (event e) text = true
            /\ (event e, {| sg_products := fp_products e;
                            sg_reasoning := fp_reasoning e |}) ∈ graph))
  /\ (forall signal data, (signal, data) ∈ graph -> contains signal text = true ->
        sorted (sg_products data) ∈ seen
        \/ exists e, e ∈ entries /\ sorted (fp_products e) = sorted (sg_products data))
  /\ (forall e, e ∈ out -> e ∈ entries).
Proof.
  induction graph as [|[signal [products reasoning]] graph IH]; intros seen out Hn Hs.
  { cbn [fingerprint_loop]. cbv zeta. split; [done|].
    split; [intros e He; by left|]. split; [|done].
    intros signal data H. by apply elem_of_nil in H. }
  cbn [fingerprint_loop sg_products sg_reasoning]. cbv zeta.
  destruct (contains signal text) eqn:C; cbn [negb].
  - destruct (decide (sorted products ∈ seen)) as [Hin | Hnin].
    + rewrite bool_decide_eq_true_2 by done.
      destruct (IH seen out Hn Hs) as (H1 & H2 & H3 & H4).
      split; [done|]. split; [|split; [|done]].
      * intros e He. destruct (H2 e He) as [? | [? ?]]; [by left|].
        right. split; [done | by right].
      * intros sg data Hg Hc. apply elem_of_cons in Hg as [[= -> ->] | Hg].
        -- by left.
        -- by apply (H3 sg data).
    + rewrite bool_decide_eq_false_2 by done.
      set (entry := {| event := signal; fp_products := products;
                       fp_reasoning := reasoning |}).
      destruct (IH (sorted products :: seen) (out ++ [entry])) as (H1 & H2 & H3 & H4).
      { rewrite map_app. apply NoDup_app. split; [done|]. split.
        - intros k Hk Hk'. apply list_elem_of_singleton in Hk'. subst k.
          apply list_elem_of_fmap in Hk as (e & He & Hin). apply Hnin.
          change (sorted products) with (sorted (fp_products entry)).
          rewrite He. by apply Hs.
        - apply NoDup_singleton. }
      { intros e He. apply elem_of_app in He as [He | He].
        - right. by apply Hs.
        - apply list_elem_of_singleton in He. subst e. by left. }
      split; [done|]. split; [|split].
      * intros e He. destruct (H2 e He) as [Ho | [? ?]].
        -- apply elem_of_app in Ho as [Ho | Ho]; [by left|].
           apply list_elem_of_singleton in Ho. subst e. right.
           split; [done | by left].
        -- right. split; [done | by right].
      * intros sg data Hg Hc. apply elem_of_cons in Hg as [[= -> ->] | Hg].
        -- right. exists entry. split; [|done]. apply H4, elem_of_app.
           right. by left.
        -- destruct (H3 sg data Hg Hc) as [Hk | ?]; [|by right].
           apply elem_of_cons in Hk as [Hk | Hk]; [|by left].
           right. exists entry. split; [|done]. apply H4, elem_of_app.
           right. by left.
      * intros e He. apply H4, elem_of_app. by left.
  - destruct (IH seen out Hn Hs) as (H1 & H2 & H3 & H4).
    split; [done|]. split; [|split; [|done]].
    + intros e He. destruct (H2 e He) as [? | [? ?]]; [by left|].
      right. split; [done | by right].
    + intros sg data Hg Hc. apply elem_of_cons in Hg as [[= -> ->] | Hg].
      * congruence.
      * by apply (H3 sg data).
Qed.

Lemma lowered_text raw_text (g : string -> list fingerprint) entries :
  (text ←
     (if truthy raw_text then
        match raw_text with
        | PyStr s => Ok (lower s)
        | _ => Raise AttributeError
        end
      else Ok (lower ""));
   Ok (g text)) = Ok entries ->
  entries = g (lower (match raw_text with PyStr s => s | _ => "" end)).
Proof.
  destruct raw_text as [s| |z]; cbn [truthy].
  - destruct (String.eqb_spec s "") as [-> | _]; cbn; by intros [= <-].
  - cbn. by intros [= <-].
  - destruct (Z.eqb z 0); cbn; [by intros [= <-] | done].
Qed.

Lemma fingerprint_text raw_text entries :
  fingerprint_signals raw_text = Ok entries ->
  entries
  = take 10 (fingerprint_loop
               (lower (match raw_text with PyStr s => s | _ => "" end))
               SIGNAL_GRAPH [] []).
Proof.
  intros H. unfold fingerprint_signals in H.
  exact (lowered_text raw_text
           (fun text => take 10 (fingerprint_loop text SIGNAL_GRAPH [] []))
           entries H).
Qed.

(** X19. The fingerprint lists each set of products once: its entries are
    signals of the graph that occur in the lowered text, with the products
    and the reasoning of the graph, no two of them have the same products,
    and the products of every signal that occurs are those of some entry.
    The graph has nine sets of products, so there are at most nine entries
    and the cap of ten cuts nothing. *)
Theorem fingerprint_lists_each_product_set_once (raw_text : pyobj)
    (entries : list fingerprint) :
  fingerprint_signals raw_text = Ok entries ->
  let text := lower (match raw_text with PyStr s => s | _ => "" end) in
  NoDup (map (fun e => sorted (fp_products e)) entries)
  /\ (length entries <= 9)%nat
  /\ entries = fingerprint_loop text SIGNAL_GRAPH [] []
  /\ (forall e, e ∈ entries ->
        contains (event e) text = true
        /\ (event e, {| sg_products := fp_products e;
                        sg_reasoning := fp_reasoning e |}) ∈ SIGNAL_GRAPH)
  /\ (forall signal data,
        (signal, data) ∈ SIGNAL_GRAPH -> contains signal text = true ->
        exists e, e ∈ entries
                  /\ sorted (fp_products e) = sorted (sg_products data)).
Proof.
  intros H. apply fingerprint_text in H. cbv zeta.
  revert H. generalize (lower (match raw_text with PyStr s => s | _ => "" end)).
  intros text H.
  assert (forall e : fingerprint, e ∈ [] -> sorted (fp_products e) ∈ []) as Hnil
    by (intros e He; by apply elem_of_nil in He).
  pose proof (fingerprint_loop_spec text SIGNAL_GRAPH [] [] NoDup_nil_2 Hnil)
    as Hspec.
  cbv zeta in Hspec. revert H Hspec.
  generalize (fingerprint_loop text SIGNAL_GRAPH [] []).
  intros all H (H1 & H2 & H3 & _).
  assert (length all <= 9)%nat as Hlen.
  { assert (length (remove_dups
                      (map (fun x => sorted (sg_products x.2)) SIGNAL_GRAPH))
            = 9%nat) as E by (vm_compute; reflexivity).
    rewrite <- (length_map (fun e => sorted (fp_products e))), <- E.
    apply submseteq_length, NoDup_submseteq; [exact H1|].
    intros k Hk. apply elem_of_remove_dups.
    apply list_elem_of_fmap in Hk as (e & -> & He).
    destruct (H2 e He) as [Ho | [_ Hg]]; [by apply elem_of_nil in Ho|].
    apply list_elem_of_fmap.
    exists (event e, {| sg_products := fp_products e;
                        sg_reasoning := fp_reasoning e |}).
    split; [reflexivity | exact Hg]. }
  assert (entries = all) as -> by (rewrite H; apply take_ge; lia).
  split; [exact H1|]. split; [exact Hlen|]. split; [reflexivity|]. split.
  - intros e He. destruct (H2 e He) as [Ho | ?]; [by apply elem_of_nil in Ho | done].
  - intros sg data Hg Hc. destruct (H3 sg data Hg Hc) as [Hk | ?]; [|done].
    by apply elem_of_nil in Hk.
Qed.

Lemma fingerprint_lists_each_product_set_once_witness :
  exists entries,
    fingerprint_signals
      (PyStr "New plant: Cement expansion, highway and road construction tender")
    = Ok entries
    /\ map event entries = ["expansion"; "new plant"; "tender"; "road"]
    /\ NoDup (map (fun e => sorted (fp_products e)) entries).
Proof.
  eexists. split; [by vm_compute|]. split; [by vm_compute|].
  eapply (fingerprint_lists_each_product_set_once
            (PyStr "New plant: Cement expansion, highway and road construction tender")).
  by vm_compute.
Defined.

(** *** The battlecards *)

Lemma lookup_elem {V} (d : list (string * V)) k v :
  lookup d k = Some v -> (k, v) ∈ d.
Proof.
  induction d as [|[k' v'] d IH]; cbn [lookup]; [done|].
  destruct (String.eqb_spec k' k) as [-> | _].
  - intros [= ->]. by left.
  - intros H. right. by apply IH.
Qed.

(** Every battlecard has a headline, points and a call to action, and no
    headline is the default one. *)
Lemma cards_shape p c :
  lookup WHY_HPCL_BATTLECARDS p = Some c ->
  exists h pts cta,
    c = [("headline", VStr h); ("points", VList pts); ("cta", VStr cta)]
    /\ h <> "Why HPCL".
Proof.
  intros H. apply lookup_elem, list_elem_of_In in H. simpl in H.
  repeat (destruct H as [H | H];
          [injection H as <- <-; eexists _, _, _;
           split; [reflexivity | discriminate]|]).
  destruct H.
Qed.

Lemma with_product_card q h pts cta :
  with_product q [("headline", VStr h); ("points", VList pts); ("cta", VStr cta)]
  = [("product", VStr q); ("headline", VStr h); ("points", VList pts);
     ("cta", VStr cta)].
Proof. reflexivity. Qed.

Lemma all_cards_loop_closed products : forall all_cards,
  Forall (fun d => length d = 4%nat) all_cards ->
  all_cards_loop products all_cards
  = all_cards
    ++ flat_map (fun p => match lookup WHY_HPCL_BATTLECARDS p with
                          | Some c => [("product", VStr p) :: c]
                          | None => []
                          end) products.
Proof.
  induction products as [|p products IH]; intros acc Hacc;
    cbn [all_cards_loop flat_map]; [by rewrite app_nil_r|].
  destruct (lookup WHY_HPCL_BATTLECARDS p) as [c|] eqn:L; [|by apply IH].
  destruct (cards_shape p c L) as (h & pts & cta & -> & _).
  rewrite bool_decide_eq_false_2 by discriminate.
  assert (existsb
            (dict_eqb [("headline", VStr h); ("points", VList pts); ("cta", VStr cta)])
            acc = false) as ->.
  { induction Hacc as [|d acc Hd _ IHacc]; [done|]. cbn [existsb].
    rewrite IHacc, orb_false_r. unfold dict_eqb. cbn [length]. by rewrite Hd. }
  cbn [negb andb]. rewrite with_product_card, IH.
  - by rewrite <- app_assoc.
  - apply Forall_app. split; [done|]. by repeat constructor.
Qed.

(** X20. A dossier always gets a battlecard. The cards are those of the
    first five products that have one, each as often as the product is
    listed, since the test for a card that is already there compares a card
    with cards that carry a product and never succeeds; when none of the
    products has a card, the card of Industrial Fuels is used under the name
    of the first product. Each card has a product, a headline, points and a
    call to action, and the primary headline is never the default one. *)
Theorem battlecards_are_never_empty (products : list string) (industry : string) :
  let w := build_why_hpcl products industry in
  let cards :=
    flat_map (fun p => match lookup WHY_HPCL_BATTLECARDS p with
                       | Some c => [("product", VStr p) :: c]
                       | None => []
                       end) (take 5 products) in
  all_battlecards w <> []
  /\ (length (all_battlecards w) <= 5)%nat
  /\ (cards <> [] -> all_battlecards w = cards)
  /\ (forall card, card ∈ all_battlecards w ->
        exists p h pts cta,
          card = [("product", VStr p); ("headline", VStr h); ("points", VList pts);
                  ("cta", VStr cta)])
  /\ (exists h, primary_headline w = VStr h /\ h <> "Why HPCL")
  /\ length (all_battlecards (build_why_hpcl ["Bitumen"; "Lubes"; "Bitumen"] industry))
     = 2%nat.
Proof.
  cbv zeta. unfold build_why_hpcl. cbv zeta. cbn [all_battlecards primary_headline].
  rewrite all_cards_loop_closed by constructor. rewrite app_nil_l.
  set (product := match products with [] => "Industrial Fuels" | p :: _ => p end).
  set (fallback := default [] (lookup WHY_HPCL_BATTLECARDS "Industrial Fuels")).
  assert (exists h pts cta,
            (match lookup WHY_HPCL_BATTLECARDS product with
             | Some c => if bool_decide (c = []) then fallback else c
             | None => fallback
             end) = [("headline", VStr h); ("points", VList pts); ("cta", VStr cta)]
            /\ h <> "Why HPCL") as (h & pts & cta & -> & Hh).
  { destruct (lookup WHY_HPCL_BATTLECARDS product) as [c|] eqn:L.
    - destruct (cards_shape _ _ L) as (h & pts & cta & -> & Hh).
      rewrite bool_decide_eq_false_2 by discriminate. by exists h, pts, cta.
    - eexists _, _, _. split; [reflexivity | discriminate]. }
  rewrite with_product_card.
  set (cards := flat_map _ (take 5 products)).
  assert (forall card, card ∈ cards ->
            exists p h pts cta,
              card = [("product", VStr p); ("headline", VStr h);
                      ("points", VList pts); ("cta", VStr cta)]) as Hshape.
  { intros card Hc. apply list_elem_of_In, in_flat_map in Hc as (p & _ & Hc).
    destruct (lookup WHY_HPCL_BATTLECARDS p) as [c|] eqn:L; [|destruct Hc].
    destruct (cards_shape _ _ L) as (h' & pts' & cta' & -> & _).
    destruct Hc as [<- | []]. by exists p, h', pts', cta'. }
  assert (length cards <= 5)%nat as Hlen.
  { pose proof (firstn_le_length 5 products) as Hl. subst cards.
    revert Hl. generalize (take 5 products). intros l Hl.
    etrans; [|exact Hl]. clear Hl.
    induction l as [|p l IH]; cbn [flat_map length]; [lia|].
    rewrite length_app.
    destruct (lookup WHY_HPCL_BATTLECARDS p); cbn [length]; lia. }
  split; [|split; [|split; [|split; [|split]]]].
  - by destruct cards.
  - destruct cards; [cbn; lia | done].
  - by destruct cards.
  - intros card Hc. destruct cards as [|c0 cs] eqn:E.
    + apply list_elem_of_singleton in Hc. subst card. by exists product, h, pts, cta.
    + by apply Hshape.
  - by exists h.
  - reflexivity.
Qed.

(** *** The dossier of an analysis *)

Lemma dossier_fields company raw_text source r url :
  let d := build_dossier company raw_text source r url in
  d_score d = score r /\ d_confidence d = confidence r /\ d_priority d = priority r
  /\ d_industry d = industry r
  /\ d_product_recommendations d = product_recommendations r
  /\ d_suggested_actions d
     = _suggest_actions (priority r) (industry r) (product_recommendations r)
  /\ d_why_hpcl d = build_why_hpcl (product_recommendations r) (industry r).
Proof.
  cbv zeta. unfold build_dossier. cbv zeta.
  destruct (fingerprint_signals raw_text); repeat split; reflexivity.
Qed.

(** X21. With settings like the default ones, where the least confidence
    for a notification is at most 95 and at most ten above either priority
    threshold, the confidence test decides nothing: the dossier of an
    analysis is notified exactly when its priority is not LOW, that is when
    its score has reached a threshold. *)
Theorem notification_follows_priority (env : Env) (config : Config.t)
    (weights : gmap string float) (text raw_text : pyobj) (r : analysis)
    (company source : string) (url : option string) (min_confidence : Z) :
  analyze_and_score env config weights text = Ok r ->
  min_confidence <= 95 ->
  min_confidence <= MEDIUM_PRIORITY_THRESHOLD config + 10 ->
  min_confidence <= HIGH_PRIORITY_THRESHOLD config + 10 ->
  let d := build_dossier company raw_text source r url in
  should_notify min_confidence d = negb (String.eqb (priority r) "LOW")
  /\ (should_notify min_confidence d = true
      <-> HIGH_PRIORITY_THRESHOLD config <= score r
          \/ MEDIUM_PRIORITY_THRESHOLD config <= score r).
Proof.
  intros H H95 Hm Hh. cbv zeta.
  destruct (dossier_fields company raw_text source r url) as (_ & Hc & Hp & _).
  cbv zeta in Hc, Hp. unfold should_notify. rewrite Hc, Hp.
  destruct text as [s| |]; [|discriminate H..].
  apply ResultFacts.analysis_fields in H as (_ & _ & _ & P & C & _).
  rewrite P, C.
  destruct (Z.leb_spec (HIGH_PRIORITY_THRESHOLD config) (score r)),
    (Z.leb_spec (MEDIUM_PRIORITY_THRESHOLD config) (score r));
    cbn [String.eqb Ascii.eqb Bool.eqb negb orb andb];
    rewrite ?andb_true_r, ?andb_false_r;
    (split; [try reflexivity; apply Z.leb_le; lia|]);
    (split; [intros; lia | intros; try lia; try (apply Z.leb_le; lia)]).
Qed.

Lemma notification_follows_priority_witness :
  exists r,
    analyze_and_score no_packages Config.defaults ∅
      (PyStr "cement tender for fuel supply") = Ok r
    /\ should_notify 50
         (build_dossier "ACME" (PyStr "cement tender for fuel supply") "news" r None)
       = negb (String.eqb (priority r) "LOW").
Proof.
  destruct (analyze_and_score no_packages Config.defaults ∅
              (PyStr "cement tender for fuel supply")) as [r|] eqn:E;
    [|by vm_compute in E].
  exists r. split; [done|].
  apply (notification_follows_priority no_packages Config.defaults ∅
           (PyStr "cement tender for fuel supply")
           (PyStr "cement tender for fuel supply") r "ACME" "news" None 50 E);
    by vm_compute.
Defined.

Lemma suggest_actions_spec priority industry products :
  let actions := _suggest_actions priority industry products in
  length actions
  = (if String.eqb priority "HIGH" || String.eqb priority "MEDIUM" then 3 else 2)%nat
  /\ last actions
     = Some ("Highlight HPCL capability in: " +:+ join ", " (take 3 products)).
Proof.
  cbv zeta. unfold _suggest_actions. cbv zeta.
  destruct (String.eqb priority "HIGH"); [|destruct (String.eqb priority "MEDIUM")];
    split; try reflexivity; apply last_snoc.
Qed.

(** X22. The dossier of an analysis names a product: the recommended
    products are never empty, so the last suggested action, which follows
    two actions for HIGH and MEDIUM and one for any other priority, lists
    between one and three products, the product reasoning is that of the
    first product and not the line kept for an empty list, and there is a
    battlecard. The fingerprint of a string never fails. *)
Theorem dossier_names_a_product (env : Env) (config : Config.t)
    (weights : gmap string float) (s company source : string)
    (url : option string) (r : analysis) :
  analyze_and_score env config weights (PyStr s) = Ok r ->
  let d := build_dossier company (PyStr s) source r url in
  d_product_recommendations d <> []
  /\ length (d_suggested_actions d)
     = (if String.eqb (d_priority d) "LOW" then 2 else 3)%nat
  /\ last (d_suggested_actions d)
     = Some ("Highlight HPCL capability in: "
             +:+ join ", " (take 3 (d_product_recommendations d)))
  /\ (1 <= length (take 3 (d_product_recommendations d)) <= 3)%nat
  /\ d_product_reasoning d
     = get_primary_product_reasoning (d_industry d) (d_product_recommendations d)
  /\ d_product_reasoning d <> "General industrial fuels opportunity."
  /\ (exists fp, fingerprint_signals (PyStr s) = Ok fp /\ d_signal_fingerprint d = fp)
  /\ all_battlecards (d_why_hpcl d) <> [].
Proof.
  intros H. cbv zeta.
  destruct (dossier_fields company (PyStr s) source r url)
    as (_ & _ & Hp & Hi & Hpr & Ha & Hw).
  cbv zeta in *. rewrite Hpr, Ha, Hw, Hp, Hi.
  apply ResultFacts.analysis_fields in H as (_ & _ & _ & P & _ & _ & Hprod & _).
  assert (product_recommendations r <> []) as Hne.
  { rewrite Hprod.
    assert ((detect_industry env (PyStr s)).2
            = dict_get PRODUCT_MAPPING (detect_industry env (PyStr s)).1
                ["Industrial Fuels"]) as ->.
    { unfold detect_industry. destruct (foldl _ _ _). reflexivity. }
    rewrite ClassifierFacts.detect_industry_classify.
    apply ClassifierFacts.products_of_classify. }
  destruct (suggest_actions_spec (priority r) (industry r) (product_recommendations r))
    as [Hl Hlast].
  cbv zeta in Hl, Hlast.
  assert (exists fp, fingerprint_signals (PyStr s) = Ok fp) as [fp Hfp].
  { unfold fingerprint_signals. cbn [truthy]. destruct (negb (String.eqb s ""));
      eexists; reflexivity. }
  assert (d_signal_fingerprint (build_dossier company (PyStr s) source r url) = fp
          /\ d_product_reasoning (build_dossier company (PyStr s) source r url)
             = get_primary_product_reasoning (industry r) (product_recommendations r))
    as [Hf Hr].
  { unfold build_dossier. cbv zeta. rewrite Hfp. split; reflexivity. }
  split; [exact Hne|]. split; [|split; [exact Hlast|split; [|split; [exact Hr|split;
    [|split; [by exists fp|]]]]]].
  - rewrite Hl, P.
    destruct (HIGH_PRIORITY_THRESHOLD config <=? score r);
      [|destruct (MEDIUM_PRIORITY_THRESHOLD config <=? score r)]; reflexivity.
  - rewrite length_take. destruct (product_recommendations r); [done|]. cbn [length]. lia.
  - rewrite Hr. destruct (product_recommendations r) as [|p ps]; [done|].
    unfold get_primary_product_reasoning.
    repeat match goal with |- context [if ?b then _ else _] => destruct b end;
      discriminate.
  - apply (battlecards_are_never_empty (product_recommendations r) (industry r)).
Qed.

Lemma dossier_names_a_product_witness :
  exists r,
    analyze_and_score no_packages Config.defaults ∅ (PyStr "Hello world") = Ok r
    /\ last (d_suggested_actions
               (build_dossier "ACME" (PyStr "Hello world") "news" r None))
       = Some "Highlight HPCL capability in: Industrial Fuels".
Proof.
  destruct (analyze_and_score no_packages Config.defaults ∅ (PyStr "Hello world"))
    as [r|] eqn:E; [|by vm_compute in E].
  exists r. split; [done|].
  destruct (dossier_names_a_product no_packages Config.defaults ∅ "Hello world"
              "ACME" "news" None r E) as (_ & _ & -> & _).
  vm_compute in E. injection E as <-. reflexivity.
Defined.

End DossierFacts.

(** ** The range of the adapted weights *)

Module RangeFacts.
Import Py PyFloat Db Scoring Feedback Spec.

(** *** Rounding a mantissa that comes with a location *)

Lemma loc_shifted q l :
  0 <= q -> shifted (4 * q + loc_code l) 2 (shr_record_of_loc q l).
Proof.
  intros Hq. unfold shifted. change (2 ^ 2) with 4.
  assert (forall c, 0 <= c < 4 -> (4 * q + c) / 4 = q /\ (4 * q + c) mod 4 = c)
    as Hc.
  { intros c Hc. replace (4 * q + c) with (c + q * 4) by lia.
    rewrite Z.div_add, Z.mod_add by lia.
    rewrite Z.div_small, Z.mod_small by lia. lia. }
  destruct l as [|[| |]]; cbn [shr_record_of_loc loc_code shr_m shr_r shr_s Z.b2z].
  - destruct (Hc 0 ltac:(lia)) as [-> ->]. split; [done|]. exists 0.
    repeat split; try lia; try discriminate.
  - destruct (Hc 2 ltac:(lia)) as [-> ->]. split; [done|]. exists 0.
    repeat split; try lia; try discriminate.
  - destruct (Hc 1 ltac:(lia)) as [-> ->]. split; [done|]. exists 2.
    repeat split; try lia; try discriminate.
  - destruct (Hc 3 ltac:(lia)) as [-> ->]. split; [done|]. exists 2.
    repeat split; try lia; try discriminate.
Qed.

Lemma shr_from M k0 mrs e n :
  0 <= M -> 0 <= k0 -> shifted M k0 mrs ->
  shifted M (k0 + Z.max n 0) (shr mrs e n).1 /\ (shr mrs e n).2 = e + Z.max n 0.
Proof.
  intros HM Hk H. destruct n as [|p|p]; cbn [shr fst snd].
  - rewrite Z.add_0_r. split; [done | lia].
  - rewrite Z.max_l by lia. split; [|lia].
    by apply FloatFacts.iter_pos_shifted.
  - rewrite Z.max_r by lia. rewrite Z.add_0_r. split; [done | lia].
Qed.

Lemma lt_pow_digits q : 0 <= q -> q < 2 ^ Zdigits2 q.
Proof.
  intros Hq. destruct q as [|p|p]; [done | | lia].
  apply FloatFacts.pos_lt_pow_digits.
Qed.

Lemma digits_le q k : 0 <= q -> 0 <= k -> q < 2 ^ k -> Zdigits2 q <= k.
Proof.
  intros Hq Hk H. destruct (Z.eq_dec q 0) as [-> | Hne]; [done|].
  rewrite FloatFacts.Zdigits2_nonneg_log2 by lia.
  assert (Z.log2 q < k) by (apply Z.log2_lt_pow2; lia). lia.
Qed.

(** The mantissa after the first shift and rounding, and what the second
    shift finds. *)
Lemma first_shift q e l :
  0 <= q ->
  let n := Z.max (fexp prec emax (Zdigits2 q + e) - e) 0 in
  let m1 := div_half_even (4 * q + loc_code l) (2 ^ (2 + n)) in
  let e1 := e + n in
  let n2 := fexp prec emax (Zdigits2 m1 + e1) - e1 in
  (let '(mrs', e') := shr_fexp prec emax q e l in
   (round_nearest_even (shr_m mrs') (loc_of_shr_record mrs'), e')) = (m1, e1)
  /\ 0 <= m1 <= 2 ^ 53 /\ -1074 <= e1
  /\ (n2 <= 0 \/ (n2 = 1 /\ m1 = 2 ^ 53)).
Proof.
  intros Hq. cbv zeta.
  set (n0 := fexp prec emax (Zdigits2 q + e) - e).
  set (n := Z.max n0 0).
  set (M := 4 * q + loc_code l).
  assert (0 <= loc_code l < 4) as Hc by (destruct l as [|[| |]]; cbn; lia).
  assert (0 <= M) as HM by (subst M; lia).
  assert (0 <= n) as Hn by (subst n; lia).
  assert (0 < 2 ^ (2 + n)) as HP by (apply FloatFacts.pow2_gt_0; lia).
  set (m1 := div_half_even M (2 ^ (2 + n))).
  assert (-1074 <= e + n) as He1.
  { subst n n0. rewrite FloatFacts.fexp_max. lia. }
  assert (0 <= m1) as Hm1.
  { subst m1. pose proof (FloatFacts.div_half_even_bounds M (2 ^ (2 + n)) HP).
    assert (0 <= M / 2 ^ (2 + n)) by (apply Z.div_pos; lia). lia. }
  assert (m1 <= 2 ^ 53) as Hm1'.
  { subst m1. apply FloatFacts.div_half_even_grid_le; [done|].
    rewrite <- Z.pow_add_r by lia.
    assert (Zdigits2 q <= 53 + n) as Hd.
    { subst n n0. rewrite FloatFacts.fexp_max. lia. }
    pose proof (lt_pow_digits q Hq) as Hlt.
    assert (0 <= Zdigits2 q) as Hd0 by (destruct q; cbn; lia).
    assert (2 ^ Zdigits2 q <= 2 ^ (53 + n)) by (apply Z.pow_le_mono_r; lia).
    replace (53 + (2 + n)) with (2 + (53 + n)) by lia.
    rewrite Z.pow_add_r by lia. change (2 ^ 2) with 4. subst M. lia. }
  split; [|split; [done|split; [done|]]].
  - unfold shr_fexp. fold n0.
    destruct (shr_from M 2 (shr_record_of_loc q l) e n0 HM ltac:(lia)
                (loc_shifted q l Hq)) as [Hsh He].
    destruct (shr (shr_record_of_loc q l) e n0) as [mrs' e'].
    cbn [fst snd] in Hsh, He. fold n in Hsh, He.
    rewrite (FloatFacts.round_shifted M (2 + n) mrs' ltac:(lia) Hsh).
    by rewrite He.
  - rewrite FloatFacts.fexp_max.
    destruct (Z.eq_dec m1 (2 ^ 53)) as [E | NE].
    + right. split; [|done]. rewrite E. change (Zdigits2 (2 ^ 53)) with 54. lia.
    + left. assert (Zdigits2 m1 <= 53) by (apply digits_le; lia). lia.
Qed.

(** What [binary_round_aux] returns: the rounded mantissa [m1] at the
    exponent [e1], with a mantissa of 54 bits brought back to 53. *)
Lemma round_aux_shape s q e l :
  0 <= q ->
  let n := Z.max (fexp prec emax (Zdigits2 q + e) - e) 0 in
  let m1 := div_half_even (4 * q + loc_code l) (2 ^ (2 + n)) in
  let e1 := e + n in
  0 <= m1 <= 2 ^ 53 /\ -1074 <= e1
  /\ match binary_round_aux prec emax s q e l with
     | S754_zero s' => s' = s /\ m1 = 0
     | S754_finite s' m e' =>
         s' = s /\ e1 <= e' <= e1 + 1 /\ Z.pos m * 2 ^ (e' - e1) = m1
     | S754_infinity _ => 971 <= e1
     | S754_nan => False
     end.
Proof.
  intros Hq. cbv zeta.
  destruct (first_shift q e l Hq) as (Hfirst & Hm1 & He1 & Hsecond).
  cbv zeta in Hfirst, Hm1, He1, Hsecond.
  set (n := Z.max (fexp prec emax (Zdigits2 q + e) - e) 0) in *.
  set (m1 := div_half_even (4 * q + loc_code l) (2 ^ (2 + n))) in *.
  split; [done|]. split; [done|].
  unfold binary_round_aux.
  destruct (shr_fexp prec emax q e l) as [mrs' e']. injection Hfirst as -> ->.
  unfold shr_fexp. cbn [shr_record_of_loc].
  set (n2 := fexp prec emax (Zdigits2 m1 + (e + n)) - (e + n)) in *.
  destruct (FloatFacts.shr_shifted m1 (e + n) n2 ltac:(lia)) as [[Hquo _] He2].
  destruct (shr {| shr_m := m1; shr_r := false; shr_s := false |} (e + n) n2)
    as [mrs'' e'']. cbn [fst snd] in Hquo, He2.
  assert (m1 = shr_m mrs'' * 2 ^ Z.max n2 0) as Hexact.
  { rewrite Hquo. destruct Hsecond as [Hle | [H1 H53]].
    - rewrite Z.max_r by lia. rewrite Z.pow_0_r, Z.div_1_r. lia.
    - rewrite H1, H53. reflexivity. }
  assert (0 <= shr_m mrs'') as Hnn.
  { rewrite Hquo. apply Z.div_pos; [lia | apply FloatFacts.pow2_gt_0; lia]. }
  assert (e'' - (e + n) = Z.max n2 0) as Hdiff by lia.
  destruct (shr_m mrs'') as [|mf|mf] eqn:Em.
  - split; [done|]. lia.
  - change (emax - prec) with 971.
    destruct (Z.leb_spec e'' 971).
    + split; [done|]. split; [lia|]. rewrite Hdiff. lia.
    + lia.
  - lia.
Qed.

Lemma loc_code_range l : 0 <= loc_code l < 4.
Proof. destruct l as [|[| |]]; cbn; lia. Qed.

Lemma scaled_split m e e1 :
  -1074 <= e1 -> e1 <= e -> scaled m e = m * 2 ^ (e - e1) * 2 ^ (e1 + 1074).
Proof.
  intros H1 H2. unfold scaled. rewrite <- Z.mul_assoc, <- Z.pow_add_r by lia.
  f_equal. f_equal. lia.
Qed.

(** *** The ratio *)

(** The quotient of a positive integer by a greater one is at most 1. *)
Lemma ratio_bounded a t :
  Z.pos a < Z.pos t ->
  within 0 (2 ^ 1074) (div (of_int (Z.pos a)) (of_int (Z.pos t))).
Proof.
  intros Hlt. unfold div, of_int, SFdiv, SFdiv_core_binary.
  change IntDef.Z.min with Z.min. change IntDef.Z.shiftl with Z.shiftl.
  change IntDef.Z.div_eucl with Z.div_eucl.
  set (e' := Z.min (fexp prec emax (Zdigits2 (Z.pos a) + 0 - (Zdigits2 (Z.pos t) + 0)))
               (0 - 0)).
  assert (-1074 <= e' <= 0) as He'.
  { subst e'. rewrite FloatFacts.fexp_max. lia. }
  set (s := 0 - 0 - e'). assert (0 <= s) as Hs by (subst s; lia).
  assert (match s with
          | 0 => Z.pos a
          | Z.pos _ => Z.shiftl (Z.pos a) s
          | Z.neg _ => 0
          end = Z.pos a * 2 ^ s) as ->.
  { destruct s as [|p|p] eqn:Es; [lia | | lia].
    by rewrite Z.shiftl_mul_pow2. }
  assert (0 < 2 ^ s) as HPs by (apply FloatFacts.pow2_gt_0; lia).
  pose proof (Z.div_pos (Z.pos a * 2 ^ s) (Z.pos t) ltac:(lia) ltac:(lia)) as Hq0.
  assert (Z.pos a * 2 ^ s / Z.pos t < 2 ^ s) as Hq1.
  { apply Z.div_lt_upper_bound; [lia|]. nia. }
  unfold Z.div in Hq0, Hq1.
  destruct (Z.div_eucl (Z.pos a * 2 ^ s) (Z.pos t)) as [q r]. cbn [fst] in Hq0, Hq1.
  cbv beta iota. cbn [xorb].
  set (l := new_location (Z.pos t) r).
  pose proof (round_aux_shape false q e' l Hq0) as Hshape. cbv zeta in Hshape.
  pose proof (loc_code_range l) as Hc.
  set (n := Z.max (fexp prec emax (Zdigits2 q + e') - e') 0) in *.
  set (m1 := div_half_even (4 * q + loc_code l) (2 ^ (2 + n))) in *.
  destruct Hshape as (Hm1 & He1 & Hres).
  assert (Zdigits2 q <= s) as Hd by (apply digits_le; lia).
  assert (e' + n <= 0) as He1'.
  { subst n. rewrite FloatFacts.fexp_max. lia. }
  assert (0 <= n) as Hn by (subst n; lia).
  assert (m1 <= 2 ^ (- (e' + n))) as Hm1'.
  { subst m1. apply FloatFacts.div_half_even_grid_le;
      [apply FloatFacts.pow2_gt_0; lia|].
    rewrite <- Z.pow_add_r by lia.
    replace (- (e' + n) + (2 + n)) with (2 + s) by (subst s; lia).
    rewrite Z.pow_add_r by lia. change (2 ^ 2) with 4. lia. }
  assert (m1 * 2 ^ (e' + n + 1074) <= 2 ^ 1074) as Hval.
  { replace (2 ^ 1074) with (2 ^ (- (e' + n)) * 2 ^ (e' + n + 1074)).
    - apply Z.mul_le_mono_nonneg_r; [|done].
      apply Z.lt_le_incl, FloatFacts.pow2_gt_0. lia.
    - rewrite <- Z.pow_add_r by lia. f_equal. lia. }
  destruct (binary_round_aux prec emax false q e' l) as [s'|s'| |s' m e].
  - destruct Hres as [-> _]. cbv beta iota delta [within]. split; [lia|].
    apply Z.lt_le_incl, FloatFacts.pow2_gt_0. lia.
  - lia.
  - done.
  - destruct Hres as (-> & He & Hm). cbv beta iota delta [within]. split; [lia|].
    rewrite (scaled_split _ e (e' + n)) by lia. rewrite Hm.
    split; [|done]. apply Z.mul_nonneg_nonneg; [lia|].
    apply Z.lt_le_incl, FloatFacts.pow2_gt_0. lia.
Qed.

(** *** The product *)

Lemma scaled_of_nonneg x : 0 <= scaled_of x.
Proof.
  destruct x as [| | |s m e]; cbn [scaled_of]; try lia.
  unfold scaled. apply Z.mul_nonneg_nonneg; [lia | apply Z.pow_nonneg; lia].
Qed.

Lemma product_bounded r :
  within 0 (2 ^ 1074) r -> within 0 (scaled_of f0_35) (mul f0_35 r).
Proof.
  destruct r as [[|]|[|]| |[|] mr er];
    [intros [] | | intros [] | intros [] | intros [] | intros [] |].
  { intros _. change (0 <= 0 <= scaled_of f0_35).
    split; [lia | apply scaled_of_nonneg]. }
  cbv beta iota delta [within]. intros [Her [_ Hr]].
  assert (0 < 2 ^ (er + 1074)) as HP by (apply FloatFacts.pow2_gt_0; lia).
  assert (er <= 0) as Her0.
  { destruct (Z.le_gt_cases er 0) as [|Hgt]; [done|]. exfalso.
    assert (2 ^ 1075 <= 2 ^ (er + 1074)) by (apply Z.pow_le_mono_r; lia).
    assert (2 ^ 1074 < 2 ^ 1075) by (apply Z.pow_lt_mono_r; lia).
    unfold scaled in Hr. nia. }
  assert (Z.pos mr <= 2 ^ (- er)) as Hmr.
  { unfold scaled in Hr.
    replace (2 ^ 1074) with (2 ^ (- er) * 2 ^ (er + 1074)) in Hr
      by (rewrite <- Z.pow_add_r by lia; f_equal; lia).
    by apply Z.mul_le_mono_pos_r in Hr. }
  unfold mul, f0_35, SFmul. cbn [xorb].
  set (m35 := 6305039478318694%positive).
  pose proof (round_aux_shape false (Z.pos (m35 * mr)) (-54 + er) loc_Exact
                ltac:(lia)) as Hshape.
  cbv zeta in Hshape. cbn [loc_code] in Hshape. rewrite Z.add_0_r in Hshape.
  set (M := Z.pos (m35 * mr)) in *.
  set (n := Z.max (fexp prec emax (Zdigits2 M + (-54 + er)) - (-54 + er)) 0) in *.
  set (m1 := div_half_even (4 * M) (2 ^ (2 + n))) in *.
  destruct Hshape as (Hm1 & He1 & Hres).
  assert (0 < 2 ^ (- er)) as HPr by (apply FloatFacts.pow2_gt_0; lia).
  assert (M <= Z.pos m35 * 2 ^ (- er)) as HM.
  { subst M. rewrite Pos2Z.inj_mul. apply Z.mul_le_mono_nonneg_l; lia. }
  assert (Zdigits2 M <= 53 - er) as Hd.
  { apply digits_le; [lia | lia |].
    eapply Z.le_lt_trans; [exact HM|].
    replace (53 - er) with (53 + - er) by lia. rewrite Z.pow_add_r by lia.
    apply Z.mul_lt_mono_pos_r; [done|]. by vm_compute. }
  assert (0 <= n) as Hn by (subst n; lia).
  assert (-54 + er + n <= -54) as He1'.
  { subst n. rewrite FloatFacts.fexp_max. lia. }
  assert (m1 <= Z.pos m35 * 2 ^ (-54 - (-54 + er + n))) as Hm1'.
  { subst m1. apply FloatFacts.div_half_even_grid_le;
      [apply FloatFacts.pow2_gt_0; lia|].
    rewrite <- Z.mul_assoc, <- Z.pow_add_r by lia.
    replace (-54 - (-54 + er + n) + (2 + n)) with (2 + - er) by lia.
    rewrite Z.pow_add_r by lia. change (2 ^ 2) with 4. lia. }
  assert (m1 * 2 ^ (-54 + er + n + 1074) <= scaled_of f0_35) as Hval.
  { change (scaled_of f0_35) with (Z.pos m35 * 2 ^ (-54 + 1074)).
    replace (2 ^ (-54 + 1074))
      with (2 ^ (-54 - (-54 + er + n)) * 2 ^ (-54 + er + n + 1074))
      by (rewrite <- Z.pow_add_r by lia; f_equal; lia).
    rewrite Z.mul_assoc. apply Z.mul_le_mono_nonneg_r; [|done].
    apply Z.lt_le_incl, FloatFacts.pow2_gt_0. lia. }
  destruct (binary_round_aux prec emax false M (-54 + er) loc_Exact)
    as [s'|s'| |s' m e].
  - destruct Hres as [-> _]. cbv beta iota delta [within].
    split; [lia | apply scaled_of_nonneg].
  - lia.
  - done.
  - destruct Hres as (-> & He & Hm). cbv beta iota delta [within]. split; [lia|].
    rewrite (scaled_split _ e (-54 + er + n)) by lia. rewrite Hm.
    split; [|done]. apply Z.mul_nonneg_nonneg; [lia|].
    apply Z.lt_le_incl, FloatFacts.pow2_gt_0. lia.
Qed.

(** *** The sum *)

Lemma shl_align_spec mx ex ex' :
  (shl_align mx ex ex').2 = Z.min ex ex'
  /\ Z.pos (shl_align mx ex ex').1 = Z.pos mx * 2 ^ (ex - Z.min ex ex').
Proof.
  unfold shl_align. destruct (ex' - ex) as [|d|d] eqn:E; cbn [fst snd].
  - rewrite Z.min_l by lia. rewrite Z.sub_diag. lia.
  - rewrite Z.min_l by lia. rewrite Z.sub_diag. lia.
  - rewrite Z.min_r by lia. split; [done|].
    change (PosDef.Pos.iter xO mx d) with (shift_pos d mx).
    rewrite shift_pos_correct. change (Z.pow_pos 2 d) with (2 ^ Z.pos d).
    replace (ex - ex') with (Z.pos d) by lia. lia.
Qed.

Lemma scaled_values :
  0 < scaled_of f0_85
  /\ round_scaled (scaled_of f0_85) = scaled_of f0_85
  /\ round_scaled (scaled_of f0_85 + scaled_of f0_35) = scaled_of f1_2
  /\ scaled_of f0_85 + scaled_of f0_35 < 2 ^ 1075
  /\ scaled_of f1_2 < 2 * 2 ^ 1074
  /\ div_half_even (scaled_of f0_85 * 100) (2 ^ 1074) = 85
  /\ div_half_even (scaled_of f1_2 * 100) (2 ^ 1074) = 120.
Proof.
  split; [apply Z.ltb_lt; by vm_compute|].
  split; [by vm_compute|]. split; [by vm_compute|].
  split; [apply Z.ltb_lt; by vm_compute|].
  split; [apply Z.ltb_lt; by vm_compute|].
  split; by vm_compute.
Qed.

Lemma sum_within p :
  within 0 (scaled_of f0_35) p ->
  within (scaled_of f0_85) (scaled_of f1_2) (add f0_85 p).
Proof.
  destruct scaled_values as (H85 & Hr85 & Hr120 & Hlt & _).
  generalize dependent (scaled_of f1_2). intros S120 Hr120.
  assert (scaled_of f0_85 <= S120) as Hle.
  { rewrite <- Hr85, <- Hr120. apply FloatFacts.round_scaled_mono; [done|].
    pose proof (scaled_of_nonneg f0_35). lia. }
  destruct p as [[|]|[|]| |[|] mp ep];
    [intros [] | | intros [] | intros [] | intros [] | intros [] |].
  { intros _. change (-1074 <= -53 /\ scaled_of f0_85 <= scaled_of f0_85 <= S120).
    lia. }
  cbv beta iota delta [within]. intros [Hep [Hp0 Hp]].
  unfold add, f0_85, SFadd. change IntDef.Z.min with Z.min.
  set (m85 := 7656119366529843%positive).
  set (ez := Z.min (-53) ep).
  destruct (shl_align_spec m85 (-53) ez) as [_ HA].
  destruct (shl_align_spec mp ep ez) as [_ HB].
  rewrite (Z.min_r (-53) ez) in HA by (subst ez; lia).
  rewrite (Z.min_r ep ez) in HB by (subst ez; lia).
  cbn [cond_Zopp]. rewrite <- Pos2Z.inj_add. cbn [binary_normalize].
  set (A := (shl_align m85 (-53) ez).1) in *.
  set (B := (shl_align mp ep ez).1) in *.
  unfold binary_round.
  set (ef := fexp prec emax (Z.pos (digits2_pos (A + B)) + ez)).
  destruct (shl_align_spec (A + B) ez ef) as [Hez' Hmz].
  destruct (shl_align (A + B) ez ef) as [mz ez']. cbn [fst snd] in Hez', Hmz.
  assert (-1074 <= ez) as Hez by (subst ez; lia).
  assert (-1074 <= ez' <= ez) as Hez''.
  { subst ez' ef. rewrite FloatFacts.fexp_max. lia. }
  assert (scaled (Z.pos mz) ez' = scaled_of f0_85 + scaled (Z.pos mp) ep) as Hval.
  { unfold scaled at 1. rewrite Hmz, Pos2Z.inj_add, HA, HB.
    rewrite <- Hez'. rewrite <- Z.mul_assoc, <- Z.pow_add_r by lia.
    replace (ez - ez' + (ez' + 1074)) with (ez + 1074) by lia.
    rewrite Z.mul_add_distr_r.
    rewrite <- !Z.mul_assoc, <- !Z.pow_add_r by lia.
    replace (-53 - ez + (ez + 1074)) with (-53 + 1074) by lia.
    replace (ep - ez + (ez + 1074)) with (ep + 1074) by lia.
    reflexivity. }
  pose proof (FloatFacts.round_aux_scaled false mz ez' ltac:(lia)) as Hfin.
  rewrite Hval in Hfin.
  pose proof (round_aux_shape false (Z.pos mz) ez' loc_Exact ltac:(lia)) as Hshape.
  cbv zeta in Hshape. destruct Hshape as (_ & _ & Hres).
  assert (scaled_of f0_85
          <= round_scaled (scaled_of f0_85 + scaled (Z.pos mp) ep) <= S120) as Hv.
  { split.
    - rewrite <- Hr85 at 1. apply FloatFacts.round_scaled_mono; lia.
    - rewrite <- Hr120. apply FloatFacts.round_scaled_mono; lia. }
  assert (Zdigits2 (Z.pos mz) <= 1 - ez') as Hd.
  { apply digits_le; [lia | lia |].
    assert (0 < 2 ^ (ez' + 1074)) by (apply FloatFacts.pow2_gt_0; lia).
    assert (2 ^ 1075 = 2 ^ (1 - ez') * 2 ^ (ez' + 1074)) as E
      by (rewrite <- Z.pow_add_r by lia; f_equal; lia).
    apply (Z.mul_lt_mono_pos_r (2 ^ (ez' + 1074))); [done|].
    rewrite <- E. unfold scaled in Hval. rewrite Hval.
    fold (scaled (Z.pos mp) ep). revert Hlt Hp. clear.
    generalize (2 ^ 1075), (scaled_of f0_85), (scaled_of f0_35),
      (scaled (Z.pos mp) ep). lia. }
  assert (ez' + Z.max (fexp prec emax (Zdigits2 (Z.pos mz) + ez') - ez') 0 < 971)
    as Hno.
  { rewrite FloatFacts.fexp_max. lia. }
  destruct (binary_round_aux prec emax false (Z.pos mz) ez' loc_Exact)
    as [s'|s'| |s' m e].
  - cbn [finite_result] in Hfin. lia.
  - lia.
  - done.
  - destruct Hres as (-> & _). cbn [finite_result] in Hfin.
    destruct Hfin as [He Hm]. cbv beta iota delta [within]. rewrite Hm.
    subst m85. change (S754_finite false 7656119366529843 (-53)) with f0_85.
    lia.
Qed.

(** *** Rounding to two decimals *)

Lemma round2_within x :
  within (scaled_of f0_85) (scaled_of f1_2) x ->
  exists k, 85 <= k <= 120 /\ round2 x = div (of_int k) (of_int 100).
Proof.
  destruct scaled_values as (H85 & _ & _ & _ & H120 & Hq85 & Hq120).
  revert H85 H120 Hq85 Hq120.
  generalize (scaled_of f0_85), (scaled_of f1_2). intros S85 S120 H85 H120 Hq85 Hq120.
  destruct x as [[|]|[|]| |[|] m e];
    [intros [] | | intros [] | intros [] | intros [] | intros [] |].
  { cbv beta iota delta [within]. lia. }
  cbv beta iota delta [within]. intros [He [Hlo Hhi]].
  assert (0 < 2 ^ 1074) as HP by (apply FloatFacts.pow2_gt_0; lia).
  assert (0 < 2 ^ (e + 1074)) as HPe by (apply FloatFacts.pow2_gt_0; lia).
  set (q := match e with
            | Z.neg p => div_half_even (Z.pos m * 100) (2 ^ Z.pos p)
            | _ => Z.pos m * 100 * 2 ^ e
            end).
  assert (85 <= q <= 120) as Hq.
  { destruct (Z.lt_ge_cases e 0) as [Hneg | Hpos].
    - assert (q = div_half_even (scaled (Z.pos m) e * 100) (2 ^ 1074)) as ->.
      { subst q. destruct e as [|p|p]; try lia.
        rewrite <- (FloatFacts.div_half_even_scale _ _ (2 ^ (Z.neg p + 1074)))
          by (try apply FloatFacts.pow2_gt_0; lia).
        rewrite <- Z.pow_add_r by lia.
        replace (Z.pos p + (Z.neg p + 1074)) with 1074 by lia.
        f_equal. unfold scaled. lia. }
      rewrite <- Hq85, <- Hq120.
      split; apply FloatFacts.div_half_even_mono; lia.
    - assert (Z.pos m * 2 ^ e = 1) as E.
      { assert (0 < 2 ^ e) by (apply FloatFacts.pow2_gt_0; lia).
        assert (scaled (Z.pos m) e = Z.pos m * 2 ^ e * 2 ^ 1074) as Es
          by (unfold scaled; rewrite Z.pow_add_r by lia; lia).
        nia. }
      assert (q = 100) as ->; [|lia].
      subst q. destruct e as [|p|p]; try lia. }
  unfold round2. fold q. destruct q as [|q'|q'] eqn:Eq; try lia.
  exists (Z.pos q'). split; [lia | reflexivity].
Qed.

(** *** The weights of the adapter *)

Lemma weight_table :
  forallb (fun k => leb f0_85 (div (of_int k) (of_int 100))
                    && leb (div (of_int k) (of_int 100)) f1_2
                    && valid (div (of_int k) (of_int 100))
                    && match bonus 30 (div (of_int k) (of_int 100)) with
                       | Ok b => (25 <=? b) && (b <=? 36)
                       | Raise _ => false
                       end)
    (map Z.of_nat (seq 85 36)) = true.
Proof. by vm_compute. Qed.

Lemma filter_length {A} (p : A -> bool) l :
  (length (List.filter p l) <= length l)%nat.
Proof.
  induction l as [|x l IH]; cbn [List.filter length]; [lia|].
  destruct (p x); cbn [length]; lia.
Qed.

Lemma ratio_of_counts a t :
  (a <= t)%nat -> (0 < t)%nat ->
  within 0 (2 ^ 1074) (div (of_int (Z.of_nat a)) (of_int (Z.of_nat t))).
Proof.
  intros Hle Ht.
  destruct (WeightFacts.of_nat_pos t ltac:(lia)) as [pt Hpt]. rewrite Hpt.
  destruct (Nat.eq_dec a 0%nat) as [-> | Ha].
  { cbn [Z.of_nat]. rewrite WeightFacts.div_zero. cbv beta iota delta [within].
    split; [lia|]. apply Z.lt_le_incl, FloatFacts.pow2_gt_0. lia. }
  destruct (WeightFacts.of_nat_pos a Ha) as [pa Hpa]. rewrite Hpa.
  destruct (Nat.eq_dec a t) as [-> | Hne].
  { assert (pa = pt) as -> by congruence. rewrite WeightFacts.div_same.
    change (-1074 <= -52
            /\ 0 <= scaled 4503599627370496 (-52) <= 2 ^ 1074).
    split; [lia|]. split; [|apply Z.leb_le; by vm_compute].
    unfold scaled. apply Z.mul_nonneg_nonneg; [lia | apply Z.pow_nonneg; lia]. }
  apply ratio_bounded. lia.
Qed.

(** X25. Every weight the adapter stores is one of the 36 weights from
    0.85 to 1.2 in steps of a hundredth, whatever the number of outcomes
    and of accepted ones; it is a binary64 number, and the industry bonus
    it gives, 30 points at weight 1.0, is between 25 and 36. *)
Theorem adapted_weight_range (outcomes : list (option string)) :
  outcomes <> [] ->
  exists k,
    85 <= k <= 120
    /\ group_weight outcomes = div (of_int k) (of_int 100)
    /\ leb f0_85 (group_weight outcomes) = true
    /\ leb (group_weight outcomes) f1_2 = true
    /\ valid (group_weight outcomes) = true
    /\ exists b, bonus 30 (group_weight outcomes) = Ok b /\ 25 <= b <= 36.
Proof.
  intros Hne.
  assert (0 < length outcomes)%nat as Ht by (destruct outcomes; [done | cbn; lia]).
  pose proof (ratio_of_counts _ _ (filter_length is_accepted outcomes) Ht) as Hr.
  apply product_bounded, sum_within, round2_within in Hr as (k & Hk & E).
  exists k. split; [done|]. unfold group_weight. cbv zeta. rewrite E.
  split; [done|].
  pose proof weight_table as T. rewrite forallb_forall in T.
  specialize (T k).
  assert (In k (map Z.of_nat (seq 85 36))) as Hin.
  { apply in_map_iff. exists (Z.to_nat k). split; [lia|]. apply in_seq. lia. }
  specialize (T Hin).
  apply andb_true_iff in T as [T Hb]. apply andb_true_iff in T as [T Hv].
  apply andb_true_iff in T as [Hlo Hhi].
  split; [done|]. split; [done|]. split; [done|].
  destruct (bonus 30 (div (of_int k) (of_int 100))) as [b|]; [|done].
  exists b. split; [done|]. apply andb_true_iff in Hb as [H1 H2].
  apply Z.leb_le in H1, H2. lia.
Qed.

Lemma adapted_weight_range_witness :
  exists k,
    85 <= k <= 120
    /\ group_weight [Some "Converted"; Some "Rejected"; None]
       = div (of_int k) (of_int 100).
Proof.
  destruct (adapted_weight_range [Some "Converted"; Some "Rejected"; None])
    as (k & Hk & E & _); [discriminate|].
  exists k. split; [exact Hk | exact E].
Defined.

End RangeFacts.

(** ** Company names and the key of a lead *)

Module NameFacts.
Import Py Nlp EntityResolution Spec.

(** *** The shape of a normalised name *)

Lemma suffixes_start_with_spaces :
  Forall (fun r => exists r', r = Seq Spaces r') COMPANY_SUFFIXES.
Proof. repeat constructor; eexists; reflexivity. Qed.

Lemma re_sub_head r' repl c t :
  isspace c = false ->
  re_sub (Seq Spaces r') repl 0 (String c t)
  = String c (re_sub (Seq Spaces r') repl 0 t).
Proof. intros H. cbn [re_sub rmatch spaces_then]. by rewrite H. Qed.

Lemma strip_suffixes_head l c t :
  Forall (fun r => exists r', r = Seq Spaces r') l ->
  isspace c = false ->
  exists t', foldl (fun s suffix => re_sub suffix "" 0 s) (String c t) l
             = String c t'.
Proof.
  intros Hl Hc. revert t. induction Hl as [|r l [r' ->] _ IH]; intros t.
  - by exists t.
  - cbn [foldl]. rewrite re_sub_head by done. apply IH.
Qed.

Lemma strip_suffixes_nil l :
  foldl (fun s suffix => re_sub suffix "" 0 s) "" l = "".
Proof. induction l as [|r l IH]; [done | apply IH]. Qed.

Lemma strip_head n c t : strip n = String c t -> isspace c = false.
Proof.
  intros H. pose proof (TextFacts.rstrip_head _ (TextFacts.lstrip_head n)) as Hs.
  fold (strip n) in Hs. rewrite H in Hs. by apply negb_true_iff in Hs.
Qed.

Lemma strip_clean_head c t : isspace c = false -> exists t', strip (String c t) = String c t'.
Proof.
  intros H. unfold strip. cbn [lstrip]. rewrite H. cbn [rstrip].
  destruct (rstrip t); [rewrite H|]; by eexists.
Qed.

Lemma normalize_str n :
  normalize_company_name (PyStr n)
  = strip (sub_spaces false
             (foldl (fun s suffix => re_sub suffix "" 0 s) (strip n) COMPANY_SUFFIXES)).
Proof.
  unfold normalize_company_name. cbn [truthy isinstance_str negb orb].
  destruct (String.eqb_spec n "") as [-> | Hn]; [|by rewrite orb_false_r].
  cbn [negb orb]. change (strip "") with "". by rewrite strip_suffixes_nil.
Qed.

Lemma normalize_not_str name :
  isinstance_str name = false -> normalize_company_name name = "".
Proof.
  intros H. unfold normalize_company_name. rewrite H. cbn [negb].
  by rewrite orb_true_r.
Qed.

Lemma normalize_head n c t :
  strip n = String c t -> exists t', normalize_company_name (PyStr n) = String c t'.
Proof.
  intros H. pose proof (strip_head _ _ _ H) as Hc. rewrite normalize_str, H.
  destruct (strip_suffixes_head COMPANY_SUFFIXES c t suffixes_start_with_spaces Hc)
    as [t' ->].
  cbn [sub_spaces]. rewrite Hc. by apply strip_clean_head.
Qed.

Lemma normalize_blank n : strip n = "" -> normalize_company_name (PyStr n) = "".
Proof. intros H. rewrite normalize_str, H. by rewrite strip_suffixes_nil. Qed.

(** *** Lengths *)

Lemma length_lstrip s : (String.length (lstrip s) <= String.length s)%nat.
Proof.
  induction s as [|c t IH]; cbn [lstrip]; [done|].
  destruct (isspace c); cbn [String.length]; lia.
Qed.

Lemma length_rstrip s : (String.length (rstrip s) <= String.length s)%nat.
Proof.
  induction s as [|c t IH]; cbn [rstrip]; [done|].
  destruct (rstrip t); [destruct (isspace c)|]; cbn [String.length] in *; lia.
Qed.

Lemma length_strip s : (String.length (strip s) <= String.length s)%nat.
Proof.
  unfold strip. pose proof (length_rstrip (lstrip s)). pose proof (length_lstrip s). lia.
Qed.

Lemma length_sub_spaces s b :
  (String.length (sub_spaces b s) <= String.length s)%nat.
Proof.
  revert b. induction s as [|c t IH]; intros b; cbn [sub_spaces]; [done|].
  destruct (isspace c); [destruct b|]; cbn [String.length];
    pose proof (IH true); pose proof (IH false); lia.
Qed.

Lemma length_re_sub r s : forall skip,
  (String.length (re_sub r "" skip s) <= String.length s)%nat.
Proof.
  induction s as [|c t IH]; intros skip; cbn [re_sub]; [done|].
  destruct skip as [|n]; [|pose proof (IH n); cbn [String.length]; lia].
  destruct (rmatch r (String c t) Some) as [rest|].
  - destruct (String.length (String c t) - String.length rest)%nat as [|n].
    + pose proof (IH 0%nat). cbn [String.length]. lia.
    + change ("" +:+ re_sub r "" n t) with (re_sub r "" n t).
      pose proof (IH n). cbn [String.length]. lia.
  - pose proof (IH 0%nat). cbn [String.length]. lia.
Qed.

Lemma length_strip_suffixes l s :
  (String.length (foldl (fun s suffix => re_sub suffix "" 0 s) s l)
   <= String.length s)%nat.
Proof.
  revert s. induction l as [|r l IH]; intros s; cbn [foldl]; [done|].
  pose proof (IH (re_sub r "" 0 s)). pose proof (length_re_sub r s 0). lia.
Qed.

(** *** Characters *)

Lemma in_re_sub r c s : forall skip,
  In c (list_ascii_of_string (re_sub r "" skip s)) -> In c (list_ascii_of_string s).
Proof.
  induction s as [|d t IH]; intros skip; cbn [re_sub]; [done|].
  assert (In c (list_ascii_of_string (String d (re_sub r "" 0 t))) ->
          In c (list_ascii_of_string (String d t))) as Hcopy.
  { cbn [list_ascii_of_string]. intros [H | H]; [by left | right; by apply (IH 0%nat)]. }
  destruct skip as [|n]; [|intros H; right; by apply (IH n)].
  destruct (rmatch r (String d t) Some) as [rest|]; [|done].
  destruct (String.length (String d t) - String.length rest)%nat as [|n]; [done|].
  change ("" +:+ re_sub r "" n t) with (re_sub r "" n t).
  intros H. right. by apply (IH n).
Qed.

Lemma in_strip_suffixes c l s :
  In c (list_ascii_of_string (foldl (fun s suffix => re_sub suffix "" 0 s) s l)) ->
  In c (list_ascii_of_string s).
Proof.
  revert s. induction l as [|r l IH]; intros s; cbn [foldl]; [done|].
  intros H. apply IH in H. by apply in_re_sub in H.
Qed.

(** X26. The normalised name of an ASCII company name is an ASCII text with
    no white space at either end and single spaces only inside; it is never
    longer than the name, and its characters are characters of the name or
    spaces, so the letter case of the name is kept. It is empty exactly
    when the name is no string or a blank one, and otherwise begins with
    the first character of the name that is not white space: no suffix
    takes the whole name. The suffixes are taken off in the order of the
    list, each once, so a normalised name can still end in one. *)
Theorem normalized_name_is_clean (name : pyobj) :
  ascii_or_no_str name = true ->
  let s := normalize_company_name name in
  is_ascii s = true
  /\ strip s = s
  /\ contains "  " s = false
  /\ (forall c, In c (list_ascii_of_string s) -> isspace c = true -> c = " "%char)
  /\ (s = "" <-> match name with PyStr n => strip n = "" | _ => True end)
  /\ (forall n, name = PyStr n ->
        (String.length s <= String.length n)%nat
        /\ (forall c, In c (list_ascii_of_string s) ->
                      c = " "%char \/ In c (list_ascii_of_string n))
        /\ forall c t, strip n = String c t -> exists t', s = String c t')
  /\ normalize_company_name (PyStr "ABC CEMENT LIMITED") = "ABC CEMENT"
  /\ normalize_company_name (PyStr "Foo Ltd India") = "Foo Ltd"
  /\ normalize_company_name (PyStr "Foo Ltd") = "Foo".
Proof.
  intros Hascii. cbv zeta. destruct name as [n| |z].
  2,3: rewrite normalize_not_str by done; repeat split; try done;
       intros n [=].
  cbn [ascii_or_no_str] in Hascii. rewrite normalize_str.
  set (u := foldl (fun s suffix => re_sub suffix "" 0 s) (strip n) COMPANY_SUFFIXES).
  assert (single_spaced (strip (sub_spaces false u)) = true) as Hs.
  { unfold strip. apply TextFacts.rstrip_single, TextFacts.lstrip_single,
      TextFacts.sub_spaces_single. }
  assert (forall c, In c (list_ascii_of_string (strip (sub_spaces false u))) ->
                    c = " "%char \/ In c (list_ascii_of_string n)) as Hchars.
  { intros c H.
    apply TextFacts.in_strip, TextFacts.in_sub_spaces in H as [H | H]; [by left | right].
    subst u. by apply in_strip_suffixes, TextFacts.in_strip in H. }
  split; [by apply (TextFacts.is_ascii_chars n)|].
  split; [apply TextFacts.strip_strip|].
  split; [by apply TextFacts.single_spaced_no_double|].
  split; [intros c; by apply TextFacts.single_spaced_chars|].
  split; [|split; [|by vm_compute]].
  - subst u. rewrite <- normalize_str. split.
    + intros H. destruct (strip n) as [|c t] eqn:E; [done|].
      destruct (normalize_head n c t E) as [t' Ht]. congruence.
    + apply normalize_blank.
  - intros n' [= <-]. split; [|split; [done|]].
    + pose proof (length_strip (sub_spaces false u)) as H1.
      pose proof (length_sub_spaces u false) as H2.
      pose proof (length_strip_suffixes COMPANY_SUFFIXES (strip n)) as H3.
      pose proof (length_strip n) as H4. fold u in H3. lia.
    + intros c t E. subst u. rewrite <- normalize_str. by apply (normalize_head n c t).
Qed.

Lemma normalized_name_is_clean_witness :
  is_ascii (normalize_company_name (PyStr "  Tata   Motors Pvt. Limited ")) = true
  /\ strip (normalize_company_name (PyStr "  Tata   Motors Pvt. Limited "))
     = normalize_company_name (PyStr "  Tata   Motors Pvt. Limited ").
Proof.
  destruct (normalized_name_is_clean (PyStr "  Tata   Motors Pvt. Limited ") eq_refl)
    as (H1 & H2 & _).
  split; [exact H1 | exact H2].
Defined.

(** *** Letter case *)

Lemma lower_char_idem c : lower_char (lower_char c) = lower_char c.
Proof.
  by destruct c as [[] [] [] [] [] [] [] []].
Qed.

Lemma isspace_lower_char c : isspace (lower_char c) = isspace c.
Proof.
  by destruct c as [[] [] [] [] [] [] [] []].
Qed.

Lemma lower_char_line_feed c :
  Ascii.eqb (lower_char c) (ascii_of_N 10) = Ascii.eqb c (ascii_of_N 10).
Proof.
  by destruct c as [[] [] [] [] [] [] [] []].
Qed.

Lemma eqb_nocase_lower c d : eqb_nocase c (lower_char d) = eqb_nocase c d.
Proof. unfold eqb_nocase. by rewrite lower_char_idem. Qed.

Lemma lower_length s : String.length (lower s) = String.length s.
Proof. induction s as [|c t IH]; cbn; [done | by rewrite IH]. Qed.

Lemma lower_eqb_empty s : String.eqb (lower s) "" = String.eqb s "".
Proof. by destruct s. Qed.

Lemma lower_eqb_line_feed s : String.eqb (lower s) line_feed = String.eqb s line_feed.
Proof.
  destruct s as [|c t]; [done|]. unfold line_feed. cbn [lower String.eqb].
  rewrite lower_char_line_feed. by rewrite lower_eqb_empty.
Qed.

Lemma lower_lstrip s : lower (lstrip s) = lstrip (lower s).
Proof.
  induction s as [|c t IH]; [done|]. cbn [lstrip lower].
  rewrite isspace_lower_char. by destruct (isspace c).
Qed.

Lemma lower_rstrip s : lower (rstrip s) = rstrip (lower s).
Proof.
  induction s as [|c t IH]; [done|]. cbn [rstrip lower]. rewrite <- IH.
  rewrite isspace_lower_char.
  destruct (rstrip t); [by destruct (isspace c) | done].
Qed.

Lemma lower_strip s : lower (strip s) = strip (lower s).
Proof. unfold strip. by rewrite lower_rstrip, lower_lstrip. Qed.

Lemma lower_sub_spaces s : forall b, lower (sub_spaces b s) = sub_spaces b (lower s).
Proof.
  induction s as [|c t IH]; intros b; [done|]. cbn [sub_spaces lower].
  rewrite isspace_lower_char.
  destruct (isspace c); [destruct b|]; cbn [lower]; by rewrite ?IH.
Qed.

Lemma lower_substring s : forall n m,
  lower (String.substring n m s) = String.substring n m (lower s).
Proof.
  induction s as [|c t IH]; intros n m; [by destruct n, m|].
  destruct n as [|n]; [destruct m as [|m]|]; cbn [String.substring lower];
    by rewrite ?IH.
Qed.

(** What the matcher returns on the lowered text is the lowered rest. *)
Lemma lit_then_lower w : forall s k k',
  (forall x, k' (lower x) = option_map lower (k x)) -> lit_then w (lower s) k' = option_map lower (lit_then w s k).
Proof.
  induction w as [|c w IH]; intros s k k' Hk; cbn [lit_then]; [apply Hk|].
  destruct s as [|d t]; [done|]. cbn [lower]. rewrite eqb_nocase_lower.
  destruct (eqb_nocase c d); [by apply IH | done].
Qed.

Lemma spaces_then_lower s : forall k k',
  (forall x, k' (lower x) = option_map lower (k x)) -> spaces_then (lower s) k' = option_map lower (spaces_then s k).
Proof.
  induction s as [|c t IH]; intros k k' Hk; [done|]. cbn [lower spaces_then].
  rewrite isspace_lower_char. destruct (isspace c); [|done].
  rewrite (IH k k' Hk). destruct (spaces_then t k); [done | apply Hk].
Qed.

Lemma rmatch_lower r : forall s k k',
  (forall x, k' (lower x) = option_map lower (k x)) -> rmatch r (lower s) k' = option_map lower (rmatch r s k).
Proof.
  induction r as [w| |r IH|r1 IH1 r2 IH2|r1 IH1 r2 IH2|]; intros s k k' Hk;
    cbn [rmatch].
  - by apply lit_then_lower.
  - by apply spaces_then_lower.
  - rewrite (IH s k k' Hk). destruct (rmatch r s k); [done | apply Hk].
  - rewrite (IH1 s k k' Hk). destruct (rmatch r1 s k); [done | by apply IH2].
  - apply IH1. intros x. by apply IH2.
  - rewrite lower_eqb_empty, lower_eqb_line_feed.
    destruct (String.eqb s "" || String.eqb s line_feed); [apply Hk | done].
Qed.

Lemma re_sub_lower r s : forall skip,
  lower (re_sub r "" skip s) = re_sub r "" skip (lower s).
Proof.
  induction s as [|c t IH]; intros skip; [done|]. cbn [re_sub lower].
  destruct skip as [|n]; [|apply IH].
  change (String (lower_char c) (lower t)) with (lower (String c t)).
  rewrite (rmatch_lower r (String c t) Some Some) by done.
  destruct (rmatch r (String c t) Some) as [rest|]; cbn [option_map].
  - rewrite !lower_length.
    destruct (String.length (String c t) - String.length rest)%nat as [|n].
    + cbn [lower]. by rewrite IH.
    + change ("" +:+ re_sub r "" n t) with (re_sub r "" n t).
      change ("" +:+ re_sub r "" n (lower t)) with (re_sub r "" n (lower t)).
      apply IH.
  - cbn [lower]. by rewrite IH.
Qed.

Lemma strip_suffixes_lower l : forall s,
  lower (foldl (fun s suffix => re_sub suffix "" 0 s) s l)
  = foldl (fun s suffix => re_sub suffix "" 0 s) (lower s) l.
Proof.
  induction l as [|r l IH]; intros s; cbn [foldl]; [done|].
  by rewrite IH, re_sub_lower.
Qed.

Lemma normalize_lower n :
  lower (normalize_company_name (PyStr n)) = normalize_company_name (PyStr (lower n)).
Proof.
  rewrite !normalize_str.
  by rewrite lower_strip, lower_sub_spaces, strip_suffixes_lower, lower_strip.
Qed.

(** X27. The key of a lead ignores letter case: for ASCII names and texts,
    two company names that are equal up to the case of their letters, with
    texts whose first 80 characters are equal up to case, have the same
    key. The suffixes are matched in any case, lowering a text and cutting
    it commute, and a missing text counts as an empty one. *)
Theorem dedup_key_ignores_case (n1 n2 t1 t2 : string) :
  is_ascii n1 = true -> is_ascii n2 = true ->
  is_ascii t1 = true -> is_ascii t2 = true ->
  lower n1 = lower n2 ->
  lower (slice_to 80 t1) = lower (slice_to 80 t2) ->
  canonical_key_for_dedup (PyStr n1) (Some t1)
  = canonical_key_for_dedup (PyStr n2) (Some t2)
  /\ lower (normalize_company_name (PyStr n1))
     = normalize_company_name (PyStr (lower n1))
  /\ lower (slice_to 80 t1) = slice_to 80 (lower t1)
  /\ canonical_key_for_dedup (PyStr n1) None = canonical_key_for_dedup (PyStr n1) (Some "").
Proof.
  intros _ _ _ _ Hn Ht. split; [|split; [apply normalize_lower|split; [|done]]].
  - unfold canonical_key_for_dedup. cbv zeta.
    change (default "" (Some t1)) with t1. change (default "" (Some t2)) with t2.
    by rewrite Ht, !normalize_lower, Hn.
  - apply lower_substring.
Qed.

Lemma dedup_key_ignores_case_witness :
  canonical_key_for_dedup (PyStr "TATA Motors LTD") (Some "Cement Tender")
  = canonical_key_for_dedup (PyStr "Tata motors ltd") (Some "cement tender").
Proof.
  apply (proj1 (dedup_key_ignores_case "TATA Motors LTD" "Tata motors ltd"
                  "Cement Tender" "cement tender"
                  eq_refl eq_refl eq_refl eq_refl eq_refl eq_refl)).
Defined.

End NameFacts.

(** ** The discovery job *)

Module DiscoveryFacts.
Import Py PyFloat Nlp Config Scoring Dossier Notifications EntityResolution App Spec.

Section Run.

Variable env : Env.
Variable config : Config.t.
Variable weights : gmap string float.
Variable min_confidence : Z.
Variable predict : string -> string -> string -> Z -> Z -> Z -> option float.
Variable officers : list officer.

Local Abbreviation process := (process env config weights min_confidence predict officers).
Local Abbreviation loop := (discovery_loop env config weights min_confidence predict officers).
Local Abbreviation run := (run_discovery env config weights min_confidence predict officers).

(** The lead of an item: the dossier of its analysis under the name the
    job gives the company. *)
Local Abbreviation lead_of it l :=
  (exists analysis,
     analyze_and_score env config weights (py (i_raw_text it)) = Ok analysis
     /\ l_dossier l
        = build_dossier (company_name it) (py (i_raw_text it)) (i_source it)
            analysis (i_source_url it)).

Lemma process_spec it st st' :
  process it st = Ok st' ->
  seen st' = seen st
  /\ exists l,
       inserted st' = inserted st ++ [l] /\ (lead_of it l)
       /\ notified st'
          = notified st
            ++ match officers with
               | o :: _ => if should_notify min_confidence (l_dossier l)
                           then [(l, o)] else []
               | [] => []
               end.
Proof.
  unfold App.process.
  destruct (analyze_and_score env config weights (py (i_raw_text it)))
    as [analysis|e] eqn:E; [|discriminate].
  cbn [mbind result_bind bind]. cbv zeta. intros [= <-]. cbn [seen inserted notified].
  split; [done|]. eexists. split; [reflexivity|]. cbn [l_dossier].
  split; [by exists analysis|].
  destruct officers as [|o ?]; [by rewrite app_nil_r|].
  destruct (should_notify _ _); [done | by rewrite app_nil_r].
Qed.

Lemma loop_spec existing items : forall st st',
  loop existing items st = (st', Ok tt) ->
  exists processed leads,
    sublist processed items
    /\ NoDup (map item_key processed)
    /\ (forall it, it ∈ processed ->
          (item_key it ∉ existing) /\ (item_key it ∉ seen st))
    /\ (forall it, it ∈ items ->
          item_key it ∈ existing \/ item_key it ∈ seen st
          \/ item_key it ∈ map item_key processed)
    /\ (forall a it b, items = a ++ it :: b ->
          item_key it ∉ existing -> item_key it ∉ seen st ->
          (forall x, x ∈ a -> item_key x <> item_key it) -> it ∈ processed)
    /\ seen st' = list_to_set (map item_key processed) ∪ seen st
    /\ inserted st' = inserted st ++ leads
    /\ Forall2 (fun it l => lead_of it l) processed leads
    /\ (notified st')
       = notified st
         ++ match officers with
            | o :: _ =>
                map (fun l => (l, o))
                  (List.filter (fun l => should_notify min_confidence (l_dossier l))
                     leads)
            | [] => []
            end.
Proof.
  induction items as [|it items IH]; intros st st'; cbn [discovery_loop].
  { intros [= <-]. exists [], [].
    split; [constructor|]. split; [constructor|].
    split; [intros it Hit; by apply elem_of_nil in Hit|].
    split; [intros it Hit; by apply elem_of_nil in Hit|].
    split; [intros [|? ?] ? ? [=]|].
    split; [cbn [map list_to_set]; by rewrite union_empty_l_L|].
    split; [by rewrite app_nil_r|]. split; [constructor|].
    destruct officers; by rewrite app_nil_r. }
  cbv zeta.
  destruct (bool_decide (item_key it ∈ existing) || bool_decide (item_key it ∈ seen st))
    eqn:Hknown.
  - intros H.
    destruct (IH _ _ H) as (processed & leads & Hsub & Hnd & Hnew & Hcov & Hfirst & Hrest).
    assert (item_key it ∈ existing \/ item_key it ∈ seen st) as Hk.
    { apply orb_true_iff in Hknown as [Hk | Hk]; apply bool_decide_eq_true in Hk; auto. }
    exists processed, leads. split; [by apply sublist_cons|].
    split; [done|]. split; [done|]. split; [|split; [|done]].
    + intros x Hx. apply elem_of_cons in Hx as [-> | Hx]; [|by apply Hcov].
      destruct Hk; auto.
    + intros [|y a] x b; cbn [app]; intros [= -> ->] H1 H2 Ha; [by destruct Hk|].
      apply (Hfirst a x b); [done..|]. intros z Hz. apply Ha. by right.
  - apply orb_false_iff in Hknown as [Hk1 Hk2].
    apply bool_decide_eq_false in Hk1, Hk2.
    set (st1 := {| seen := {[item_key it]} ∪ seen st; inserted := inserted st;
                   notified := notified st |}).
    destruct (process it st1) as [st2|e] eqn:Hp; [|discriminate].
    intros H. apply process_spec in Hp as (Hseen & l & Hins & Hlead & Hnot).
    destruct (IH _ _ H)
      as (processed & leads & Hsub & Hnd & Hnew & Hcov & Hfirst & Hs & Hi & Hl & Hn).
    rewrite Hseen in Hnew, Hcov, Hfirst, Hs. cbn [st1 seen inserted notified] in *.
    exists (it :: processed), (l :: leads). split; [by apply sublist_skip|].
    split.
    { cbn [map]. apply NoDup_cons_2; [|done]. intros Hin.
      apply list_elem_of_fmap in Hin as (x & Hx & Hin).
      destruct (Hnew x Hin) as [_ Hx']. apply Hx'. rewrite <- Hx.
      apply elem_of_union_l. by apply elem_of_singleton. }
    split.
    { intros x Hx. apply elem_of_cons in Hx as [-> | Hx]; [done|].
      destruct (Hnew x Hx) as [H1 H2]. split; [done|].
      intros Hk. apply H2. by apply elem_of_union_r. }
    split.
    { intros x Hx. cbn [map]. apply elem_of_cons in Hx as [-> | Hx].
      - right. right. by left.
      - destruct (Hcov x Hx) as [H1 | [H1 | H1]]; [by left | | right; right; by right].
        apply elem_of_union in H1 as [H1 | H1]; [|by right; left].
        apply elem_of_singleton in H1. right. right. rewrite H1. by left. }
    split.
    { intros [|y a] x b; cbn [app]; intros [= -> ->] H1 H2 Ha; [by left|].
      right. apply (Hfirst a x b); [done..| |].
      - intros Hx. apply elem_of_union in Hx as [Hx | Hx]; [|done].
        apply elem_of_singleton in Hx. apply (Ha y); [by left | done].
      - intros z Hz. apply Ha. by right. }
    split.
    { rewrite Hs. cbn [map]. rewrite list_to_set_cons.
      apply set_eq. intros z. rewrite !elem_of_union. tauto. }
    split; [rewrite Hi, Hins; by rewrite <- app_assoc|].
    split; [by constructor|].
    rewrite Hn, Hnot, <- app_assoc. f_equal.
    destruct officers as [|o ?]; [done|]. cbn [List.filter].
    by destruct (should_notify min_confidence (l_dossier l)).
Qed.

Lemma loop_known existing items : forall st,
  (forall it, it ∈ items -> item_key it ∈ existing \/ item_key it ∈ seen st) ->
  loop existing items st = (st, Ok tt).
Proof.
  induction items as [|it items IH]; intros st H; cbn [discovery_loop]; [done|].
  cbv zeta.
  assert (bool_decide (item_key it ∈ existing) || bool_decide (item_key it ∈ seen st)
          = true) as ->.
  { apply orb_true_iff. destruct (H it) as [Hk | Hk]; [by left | |];
      [left | right]; by apply bool_decide_eq_true. }
  apply IH. intros x Hx. apply H. by right.
Qed.

Lemma loop_app existing a b : forall st,
  loop existing (a ++ b) st
  = match loop existing a st with
    | (st', Ok _) => loop existing b st'
    | (st', Raise e) => (st', Raise e)
    end.
Proof.
  induction a as [|it a IH]; intros st; [done|].
  cbn [app discovery_loop]. cbv zeta.
  destruct (bool_decide _ || bool_decide _); [apply IH|].
  destruct (process it _); [apply IH | done].
Qed.

Lemma run_ok leads items st n :
  run leads items = (st, Ok n) ->
  loop (existing_keys leads) items {| seen := ∅; inserted := []; notified := [] |}
  = (st, Ok tt)
  /\ n = Z.of_nat (size (seen st)).
Proof.
  unfold run_discovery. cbv zeta.
  destruct (loop _ _ _) as [st0 [[]|e]]; [|discriminate].
  by intros [= -> <-].
Qed.

Lemma seen_of_run leads items st n :
  run leads items = (st, Ok n) ->
  forall k, k ∈ seen st -> exists it, it ∈ items /\ item_key it = k.
Proof.
  intros H. apply run_ok in H as [H _].
  apply loop_spec in H as (processed & _ & Hsub & _ & _ & _ & _ & Hs & _).
  intros k Hk. rewrite Hs in Hk. cbn [seen] in Hk.
  rewrite union_empty_r_L in Hk. apply elem_of_list_to_set in Hk.
  apply list_elem_of_fmap in Hk as (it & -> & Hit).
  exists it. split; [|done]. by eapply elem_of_sublist.
Qed.

(** X28. A run that ends inserts one lead for each new key: the items it
    processes are a sub-list of the items, they have pairwise distinct keys
    that no row of the table has, every other item has the key of a row or
    of a processed item, and of the items with a new key the first is the
    one processed. The leads inserted are, in this order, the dossiers of
    the analyses of the processed items, the return value is their number,
    and the leads notified are those among them that are to be notified,
    when there is an officer. *)
Theorem discovery_inserts_each_new_key_once (leads : list lead_row)
    (items : list item) (st : state) (n : Z) :
  run leads items = (st, Ok n) ->
  exists processed,
    sublist processed items
    /\ NoDup (map item_key processed)
    /\ (forall it, it ∈ processed -> item_key it ∉ existing_keys leads)
    /\ (forall it, it ∈ items ->
          item_key it ∈ existing_keys leads
          \/ item_key it ∈ map item_key processed)
    /\ (forall a it b, items = a ++ it :: b ->
          item_key it ∉ existing_keys leads ->
          (forall x, x ∈ a -> item_key x <> item_key it) -> it ∈ processed)
    /\ Forall2 (fun it l => lead_of it l) processed (inserted st)
    /\ n = Z.of_nat (length (inserted st))
    /\ notified st
       = match officers with
         | o :: _ =>
             map (fun l => (l, o))
               (List.filter (fun l => should_notify min_confidence (l_dossier l))
                  (inserted st))
         | [] => []
         end.
Proof.
  intros H. apply run_ok in H as [H ->].
  apply loop_spec in H
    as (processed & ls & Hsub & Hnd & Hnew & Hcov & Hfirst & Hs & Hi & Hl & Hn).
  cbn [seen inserted notified app] in *.
  exists processed. split; [done|]. split; [done|].
  split; [intros it Hit; by apply Hnew|].
  split.
  { intros it Hit. destruct (Hcov it Hit) as [? | [Hk | ?]]; [by left | | by right].
    by apply elem_of_empty in Hk. }
  split.
  { intros a it b E H1 H2. apply (Hfirst a it b); [done..| |done].
    apply not_elem_of_empty. }
  rewrite Hi. split; [done|]. split; [|done].
  rewrite Hs, union_empty_r_L, size_list_to_set by done.
  rewrite length_map. f_equal. by eapply Forall2_length.
Qed.

(** X29. The job stops at the first item whose analysis fails, as that of an
    item without a text does: when the items before it are processed
    without a failure and its key is new, the job ends with the exception
    of the scorer, the leads of the items before it stay inserted, its key
    is recorded and the items after it are not looked at. *)
Theorem discovery_stops_at_the_first_failure (leads : list lead_row)
    (before after : list item) (it : item) (st : state) (n : Z) (e : exn) :
  run leads before = (st, Ok n) ->
  item_key it ∉ existing_keys leads ->
  (forall x, x ∈ before -> item_key x <> item_key it) ->
  analyze_and_score env config weights (py (i_raw_text it)) = Raise e ->
  run leads (before ++ it :: after)
  = ({| seen := {[item_key it]} ∪ seen st;
        inserted := inserted st;
        notified := notified st |}, Raise e)
  /\ (i_raw_text it = None -> e = AttributeError).
Proof.
  intros H Hnew Hbefore He.
  assert (item_key it ∉ seen st) as Hseen.
  { intros Hk. destruct (seen_of_run _ _ _ _ H _ Hk) as (x & Hx & E).
    by apply (Hbefore x). }
  apply run_ok in H as [H _]. split.
  - unfold run_discovery. cbv zeta. rewrite loop_app, H. cbn [discovery_loop].
    cbv zeta. rewrite (bool_decide_eq_false_2 _ Hnew), (bool_decide_eq_false_2 _ Hseen).
    cbn [orb]. unfold App.process. rewrite He. reflexivity.
  - intros Hnone. rewrite Hnone in He. cbn in He. congruence.
Qed.

Lemma stored_key it l s :
  i_raw_text it = Some s ->
  d_company (l_dossier l) = company_name it ->
  d_raw_text (l_dossier l) = py (i_raw_text it) ->
  lower (normalize_company_name (PyStr (company_name it)))
  = lower (normalize_company_name (py (i_company it))) ->
  canonical_key_for_dedup (py (l_company (stored_row l))) (l_raw_text (stored_row l))
  = item_key it.
Proof.
  intros Hs Hc Hr Hn. unfold stored_row, item_key, canonical_key_for_dedup.
  cbn [l_company l_raw_text py]. cbv zeta. rewrite Hc, Hr, Hs, Hn. reflexivity.
Qed.

Lemma dossier_company company raw_text source r url :
  d_company (build_dossier company raw_text source r url) = company
  /\ d_raw_text (build_dossier company raw_text source r url) = raw_text.
Proof.
  unfold build_dossier. cbv zeta. by destruct (SignalEngine.fingerprint_signals raw_text).
Qed.

(** X30. A second run over the same items inserts nothing, provided the
    name under which each company is stored is normalised to the same name,
    up to letter case, as the name of the item: every item then has the key
    of a row. The rows of the second run are those of the first and those
    the first has inserted, in any order and with any others. The proviso
    is needed: a company named Foo Ltd India is stored as Foo Ltd, which is
    normalised to Foo, and a company without a name is stored as Unknown;
    the second run inserts either again. *)
Theorem second_run_inserts_nothing (leads leads' : list lead_row)
    (items : list item) (st : state) (n : Z) :
  run leads items = (st, Ok n) ->
  (forall row, row ∈ leads \/ row ∈ map stored_row (inserted st) -> row ∈ leads') ->
  (forall it, it ∈ items ->
     lower (normalize_company_name (PyStr (company_name it)))
     = lower (normalize_company_name (py (i_company it)))) ->
  run leads' items = ({| seen := ∅; inserted := []; notified := [] |}, Ok 0)
  /\ (forall company,
        company = Some "Foo Ltd India" \/ company = None ->
        let job := run_discovery no_packages Config.defaults ∅ 50
                     (fun _ _ _ _ _ _ => None) [] in
        let found := [ {| i_company := company;
                          i_raw_text := Some "Cement expansion tender fuel supply";
                          i_source := "news"; i_source_url := None |} ] in
        let first := (job [] found).1 in
        map (fun l => d_company (l_dossier l)) (inserted first)
        = [match company with Some _ => "Foo Ltd" | None => "Unknown" end]
        /\ (job (map stored_row (inserted first)) found).2 = Ok 1).
Proof.
  intros H Hrows Hnames. split; [|by intros company [-> | ->]; vm_compute].
  apply run_ok in H as [H _].
  apply loop_spec in H
    as (processed & ls & Hsub & _ & _ & Hcov & _ & _ & Hi & Hl & _).
  cbn [seen inserted app] in *. subst ls.
  unfold run_discovery. cbv zeta. rewrite loop_known; [done|].
  intros it Hit. left. unfold existing_keys. apply elem_of_list_to_set.
  destruct (Hcov it Hit) as [Hk | [Hk | Hk]].
  - unfold existing_keys in Hk. apply elem_of_list_to_set in Hk.
    apply list_elem_of_fmap in Hk as (row & -> & Hrow).
    apply list_elem_of_fmap. exists row. split; [done|]. apply Hrows. by left.
  - by apply elem_of_empty in Hk.
  - apply list_elem_of_fmap in Hk as (x & -> & Hx).
    apply list_elem_of_lookup in Hx as [i Hx].
    destruct (Forall2_lookup_l _ _ _ _ _ Hl Hx) as (l & Hlk & analysis & Ha & Hd).
    apply list_elem_of_fmap. exists (stored_row l). split.
    + destruct (i_raw_text x) as [s|] eqn:Hs; [|discriminate Ha].
      destruct (dossier_company (company_name x) (py (Some s)) (i_source x) analysis
                  (i_source_url x)) as [Hc Hr].
      symmetry. apply (stored_key x l s Hs).
      * by rewrite Hd.
      * by rewrite Hd, Hs.
      * apply Hnames. eapply elem_of_sublist; [|done]. by eapply list_elem_of_lookup_2.
    + apply Hrows. right. apply list_elem_of_fmap. exists l. split; [done|].
      by eapply list_elem_of_lookup_2.
Qed.

End Run.

Lemma discovery_inserts_each_new_key_once_witness :
  exists processed,
    sublist processed
      [ {| i_company := Some "ABC Cement Ltd";
           i_raw_text := Some "Cement expansion tender fuel supply";
           i_source := "news"; i_source_url := None |};
        {| i_company := Some "abc cement";
           i_raw_text := Some "Cement Expansion Tender fuel supply";
           i_source := "tender"; i_source_url := None |};
        {| i_company := Some "Oceanic Shipping Corp";
           i_raw_text := Some "Marine fuel contract shipping vessels";
           i_source := "news"; i_source_url := None |} ]
    /\ NoDup (map item_key processed)
    /\ length processed = 2%nat.
Proof.
  set (items :=
      [ {| i_company := Some "ABC Cement Ltd";
           i_raw_text := Some "Cement expansion tender fuel supply";
           i_source := "news"; i_source_url := None |};
        {| i_company := Some "abc cement";
           i_raw_text := Some "Cement Expansion Tender fuel supply";
           i_source := "tender"; i_source_url := None |};
        {| i_company := Some "Oceanic Shipping Corp";
           i_raw_text := Some "Marine fuel contract shipping vessels";
           i_source := "news"; i_source_url := None |} ]).
  destruct (discovery_inserts_each_new_key_once no_packages Config.defaults ∅ 50
              (fun _ _ _ _ _ _ => None) [] [] items
              (run_discovery no_packages Config.defaults ∅ 50
                 (fun _ _ _ _ _ _ => None) [] [] items).1 2)
    as (processed & Hsub & Hnd & _ & _ & _ & Hl & _).
  { vm_compute. reflexivity. }
  exists processed. split; [exact Hsub|]. split; [exact Hnd|].
  rewrite (Forall2_length _ _ _ Hl). vm_compute. reflexivity.
Defined.

Lemma discovery_stops_at_the_first_failure_witness :
  (run_discovery no_packages Config.defaults ∅ 50 (fun _ _ _ _ _ _ => None) [] []
     [ {| i_company := Some "ABC Cement Ltd";
          i_raw_text := Some "Cement expansion tender fuel supply";
          i_source := "news"; i_source_url := None |};
       {| i_company := Some "Highway Infra Projects";
          i_raw_text := None;
          i_source := "tender"; i_source_url := None |};
       {| i_company := Some "Oceanic Shipping Corp";
          i_raw_text := Some "Marine fuel contract shipping vessels";
          i_source := "news"; i_source_url := None |} ]).2
  = Raise AttributeError.
Proof.
  set (first := {| i_company := Some "ABC Cement Ltd";
                   i_raw_text := Some "Cement expansion tender fuel supply";
                   i_source := "news"; i_source_url := None |}).
  set (it := {| i_company := Some "Highway Infra Projects";
                i_raw_text := None;
                i_source := "tender"; i_source_url := None |}).
  set (last := {| i_company := Some "Oceanic Shipping Corp";
                  i_raw_text := Some "Marine fuel contract shipping vessels";
                  i_source := "news"; i_source_url := None |}).
  destruct (discovery_stops_at_the_first_failure no_packages Config.defaults ∅ 50
              (fun _ _ _ _ _ _ => None) [] [] [first] [last] it
              (run_discovery no_packages Config.defaults ∅ 50
                 (fun _ _ _ _ _ _ => None) [] [] [first]).1 1 AttributeError)
    as [H _].
  - vm_compute. reflexivity.
  - apply not_elem_of_empty.
  - intros x Hx. apply list_elem_of_singleton in Hx. rewrite Hx.
    vm_compute. discriminate.
  - reflexivity.
  - change ([first; it; last]) with ([first] ++ it :: [last]). rewrite H. reflexivity.
Defined.

Lemma second_run_inserts_nothing_witness :
  run_discovery no_packages Config.defaults ∅ 50 (fun _ _ _ _ _ _ => None) []
    [ {| l_company := Some "Oceanic Shipping";
         l_raw_text := Some "Marine fuel contract shipping vessels" |};
      {| l_company := Some "ABC Cement";
         l_raw_text := Some "Cement expansion tender fuel supply" |} ]
    [ {| i_company := Some "ABC Cement Ltd";
         i_raw_text := Some "Cement expansion tender fuel supply";
         i_source := "news"; i_source_url := None |};
      {| i_company := Some "Oceanic Shipping Corp";
         i_raw_text := Some "Marine fuel contract shipping vessels";
         i_source := "news"; i_source_url := None |} ]
  = ({| seen := ∅; inserted := []; notified := [] |}, Ok 0).
Proof.
  set (items :=
      [ {| i_company := Some "ABC Cement Ltd";
           i_raw_text := Some "Cement expansion tender fuel supply";
           i_source := "news"; i_source_url := None |};
        {| i_company := Some "Oceanic Shipping Corp";
           i_raw_text := Some "Marine fuel contract shipping vessels";
           i_source := "news"; i_source_url := None |} ]).
  set (st := (run_discovery no_packages Config.defaults ∅ 50
                (fun _ _ _ _ _ _ => None) [] [] items).1).
  apply (fun H1 H2 H3 =>
           proj1 (second_run_inserts_nothing no_packages Config.defaults ∅ 50
                    (fun _ _ _ _ _ _ => None) [] [] _ items st 2 H1 H2 H3)).
  - vm_compute. reflexivity.
  - intros row [Hrow | Hrow]; [by apply elem_of_nil in Hrow|].
    assert (map stored_row (inserted st)
            = [ {| l_company := Some "ABC Cement";
                   l_raw_text := Some "Cement expansion tender fuel supply" |};
                {| l_company := Some "Oceanic Shipping";
                   l_raw_text := Some "Marine fuel contract shipping vessels" |} ])
      as E by (vm_compute; reflexivity).
    rewrite E in Hrow. apply elem_of_cons in Hrow as [-> | Hrow].
    + right. left.
    + apply list_elem_of_singleton in Hrow as ->. left.
  - intros x Hx. apply elem_of_cons in Hx as [-> | Hx]; [vm_compute; reflexivity|].
    apply list_elem_of_singleton in Hx as ->. vm_compute. reflexivity.
Defined.

End DiscoveryFacts.
